(** * Import resolution, semantic diffing and versioning of device
      configurations

    A shallow embedding of [indigo_specifics/resolve_device_config.py]:
    the comment stripper, the JSON normaliser and differ, the [$import]
    resolver with its template cache, and the version reconciler of
    [process_device], followed by the properties proved about them.  The
    two analysers, [indigo_specifics/analyze_param_keys.py] and
    [indigo_specifics/analyze_top_level_description.py], are embedded after
    the script.

    Conventions of the embedding.
    - A Python [str] is a [string]; each character stands for one code
      point below 256.
    - A JSON number is an integer ([Z]); floating-point numbers are outside
      the embedding.
    - A Python [dict] is an association list in insertion order whose keys
      are pairwise distinct ([wf_value]); [dict_set] is item assignment.
    - The template cache, a [dict] used purely as a map, is a [gmap].
    - Exceptions are values of [exn]; a computation that raises returns
      [Raise e].  Recursion that Python bounds by its call stack carries a
      fuel argument, one unit per call frame. *)

From Stdlib Require Import ZArith String Ascii List Bool Lia Permutation Sorted DecimalString.
From stdpp Require Import gmap strings.
Import ListNotations.

#[local] Set Warnings "-register-all".
#[local] Arguments String.append !_ _ / : simpl nomatch.
#[local] Open Scope string_scope.
#[local] Open Scope Z_scope.

(** ** JSON values *)

Inductive value : Type :=
| JNull
| JBool (b : bool)
| JNum (n : Z)
| JStr (s : string)
| JList (l : list value)
| JMap (m : list (string * value)).

(** Python [dict] objects as they come out of [json.load]. *)
Definition dict : Type := list (string * value).

Definition keys (d : dict) : list string := List.map fst d.

(** [d.get(k)], [None] when the key is absent. *)
Fixpoint dict_get (k : string) (d : dict) : option value :=
  match d with
  | [] => None
  | (k', v) :: d' => if String.eqb k k' then Some v else dict_get k d'
  end.

(** [k in d] *)
Definition dict_has (k : string) (d : dict) : bool :=
  match dict_get k d with Some _ => true | None => false end.

(** [d[k] = v]: an existing key keeps its position, a new key goes last. *)
Fixpoint dict_set (d : dict) (k : string) (v : value) : dict :=
  match d with
  | [] => [(k, v)]
  | (k', v') :: d' =>
      if String.eqb k k' then (k', v) :: d' else (k', v') :: dict_set d' k v
  end.

(** [d.get(k, default)] *)
Definition dict_get_default (k : string) (default : value) (d : dict) : value :=
  match dict_get k d with Some v => v | None => default end.

(** [isinstance(v, (dict, list))] *)
Definition is_container (v : value) : bool :=
  match v with JList _ | JMap _ => true | _ => false end.

Definition is_dict (v : value) : bool :=
  match v with JMap _ => true | _ => false end.

(** The invariant of Python dictionaries: no key occurs twice, at any depth. *)
Fixpoint wf_value (v : value) : Prop :=
  match v with
  | JList l => (fix all (l : list value) : Prop :=
                  match l with [] => True | x :: l' => wf_value x /\ all l' end) l
  | JMap m => List.NoDup (List.map fst m) /\
              (fix all (m : dict) : Prop :=
                 match m with [] => True | (_, x) :: m' => wf_value x /\ all m' end) m
  | _ => True
  end.

(** ** Python primitives used by the script *)

Definition DQUOTE : ascii := "034"%char.
Definition BACKSLASH : ascii := "092"%char.
Definition NEWLINE : ascii := "010"%char.
Definition SLASH : ascii := "/"%char.
Definition HASH : ascii := "#"%char.

(** Python's [==] on decoded JSON: [bool] is a subclass of [int], so
    [True == 1] and [False == 0]; dictionaries compare as maps, whatever
    their insertion order; lists compare element by element. *)
Fixpoint py_eq (a b : value) : bool :=
  match a, b with
  | JNull, JNull => true
  | JBool x, JBool y => Bool.eqb x y
  | JNum x, JNum y => Z.eqb x y
  | JBool x, JNum y => Z.eqb (Z.b2z x) y
  | JNum x, JBool y => Z.eqb x (Z.b2z y)
  | JStr x, JStr y => String.eqb x y
  | JList l1, JList l2 =>
      (fix go (l1 l2 : list value) : bool :=
         match l1, l2 with
         | [], [] => true
         | x :: l1', y :: l2' => py_eq x y && go l1' l2'
         | _, _ => false
         end) l1 l2
  | JMap m1, JMap m2 =>
      Nat.eqb (List.length m1) (List.length m2) &&
      (fix go (m : dict) : bool :=
         match m with
         | [] => true
         | (k, v) :: m' =>
             match dict_get k m2 with
             | Some v' => py_eq v v' && go m'
             | None => false
             end
         end) m1
  | _, _ => false
  end.

(** [sorted(obj.items())]: a stable sort of the items.  Tuples are compared
    first component first, and the keys of a dictionary are distinct, so the
    comparison never reaches the values; the order is that of the keys, code
    point by code point. *)
Fixpoint insert_item (e : string * value) (l : dict) : dict :=
  match l with
  | [] => [e]
  | e' :: l' =>
      if String.leb (fst e) (fst e') then e :: l else e' :: insert_item e l'
  end.

Definition sorted_items (d : dict) : dict := fold_right insert_item [] d.

(** [str(n)] for an integer and for a length. *)
Definition str_of_Z (n : Z) : string := NilZero.string_of_int (Z.to_int n).
Definition str_of_nat (n : nat) : string := NilZero.string_of_uint (Nat.to_uint n).

(** [json.dumps]: string literals with [ensure_ascii], every character
    outside the printable ASCII range written as a [\u00XX] escape. *)
Definition hex_digit (n : N) : ascii :=
  ascii_of_N (if (n <? 10)%N then 48 + n else 87 + n).

Definition escape_char (c : ascii) : string :=
  let n := N_of_ascii c in
  if Ascii.eqb c DQUOTE then String BACKSLASH (String DQUOTE "")
  else if Ascii.eqb c BACKSLASH then String BACKSLASH (String BACKSLASH "")
  else if (n =? 10)%N then String BACKSLASH "n"
  else if (n =? 13)%N then String BACKSLASH "r"
  else if (n =? 9)%N then String BACKSLASH "t"
  else if (n =? 8)%N then String BACKSLASH "b"
  else if (n =? 12)%N then String BACKSLASH "f"
  else if ((32 <=? n) && (n <=? 126))%N then String c ""
  else String BACKSLASH
         ("u00" ++ String (hex_digit (n / 16)) (String (hex_digit (n mod 16)) "")).

Fixpoint escape_string (s : string) : string :=
  match s with
  | EmptyString => ""
  | String c s' => escape_char c ++ escape_string s'
  end.

Definition encode_string (s : string) : string :=
  String DQUOTE (escape_string s ++ String DQUOTE "").

(** [json.dumps(v)] with the default separators [", "] and [": "]. *)
Fixpoint dumps (v : value) : string :=
  match v with
  | JNull => "null"
  | JBool true => "true"
  | JBool false => "false"
  | JNum n => str_of_Z n
  | JStr s => encode_string s
  | JList [] => "[]"
  | JList (x :: xs) =>
      "[" ++ dumps x ++
      (fix rest (xs : list value) : string :=
         match xs with
         | [] => ""
         | y :: ys => ", " ++ dumps y ++ rest ys
         end) xs ++ "]"
  | JMap [] => "{}"
  | JMap ((k, x) :: xs) =>
      "{" ++ encode_string k ++ ": " ++ dumps x ++
      (fix rest (xs : dict) : string :=
         match xs with
         | [] => ""
         | (k', y) :: ys => ", " ++ encode_string k' ++ ": " ++ dumps y ++ rest ys
         end) xs ++ "}"
  end.

Fixpoint spaces (n : nat) : string :=
  match n with O => "" | S n' => String " " (spaces n') end.

(** The line break and indentation opening a line at nesting depth [level]
    when [indent=2]. *)
Definition newline_indent (level : nat) : string :=
  String NEWLINE (spaces (2 * level)).

(** [json.dumps(v, indent=2)]: items one per line, separated by [","], two
    more spaces per nesting level; empty containers stay on one line. *)
Fixpoint dumps_indent (level : nat) (v : value) : string :=
  match v with
  | JNull => "null"
  | JBool true => "true"
  | JBool false => "false"
  | JNum n => str_of_Z n
  | JStr s => encode_string s
  | JList [] => "[]"
  | JList (x :: xs) =>
      "[" ++ newline_indent (S level) ++ dumps_indent (S level) x ++
      (fix rest (xs : list value) : string :=
         match xs with
         | [] => ""
         | y :: ys =>
             "," ++ newline_indent (S level) ++ dumps_indent (S level) y ++ rest ys
         end) xs ++ newline_indent level ++ "]"
  | JMap [] => "{}"
  | JMap ((k, x) :: xs) =>
      "{" ++ newline_indent (S level) ++ encode_string k ++ ": " ++
      dumps_indent (S level) x ++
      (fix rest (xs : dict) : string :=
         match xs with
         | [] => ""
         | (k', y) :: ys =>
             "," ++ newline_indent (S level) ++ encode_string k' ++ ": " ++
             dumps_indent (S level) y ++ rest ys
         end) xs ++ newline_indent level ++ "}"
  end.

(** ** [JsonDiffer] *)

(** [JsonDiffer.normalize_json]: dictionaries are rebuilt from their sorted
    items, lists keep their order, anything else is returned as it is.
    The comprehension [{k: normalize_json(v) for k, v in sorted(obj.items())}]
    normalises the values of the sorted items; the sort reads keys only, so
    it is written here with the values normalised in place and the items
    sorted afterwards, which is structurally recursive.  Lemma
    [normalize_json_dict] below restates it in the order of the source. *)
Fixpoint normalize_json (obj : value) : value :=
  match obj with
  | JMap m =>
      JMap (sorted_items
              ((fix items (l : dict) : dict :=
                  match l with
                  | [] => []
                  | (k, v) :: l' => (k, normalize_json v) :: items l'
                  end) m))
  | JList l => JList (List.map normalize_json l)
  | _ => obj
  end.

(** [JsonDiffer.json_objects_equal] *)
Definition json_objects_equal (obj1 obj2 : value) : bool :=
  py_eq (normalize_json obj1) (normalize_json obj2).

(** [f"{path}.{key}" if path else key] *)
Definition join_path (path key : string) : string :=
  if String.eqb path "" then key else path ++ "." ++ key.

(** [JsonDiffer.generate_diff_report]: the list of report lines. *)
Fixpoint generate_diff_report (old_obj new_obj : value) (path : string)
  : list string :=
  match old_obj, new_obj with
  | JMap old_d, JMap new_d =>
      List.app
        (* removed keys *)
        (flat_map (fun e : string * value =>
                     if negb (dict_has (fst e) new_d)
                     then ["- Removed key: " ++ join_path path (fst e)]
                     else []) old_d)
     (List.app
        (* added keys *)
        (flat_map (fun e : string * value =>
                     if negb (dict_has (fst e) old_d)
                     then ["+ Added key: " ++ join_path path (fst e)]
                     else []) new_d)
        (* modified values *)
        ((fix modified (l : dict) : list string :=
            match l with
            | [] => []
            | (key, old_v) :: l' =>
                List.app
                  match dict_get key new_d with
                  | Some new_v =>
                      let new_path := join_path path key in
                      if negb (json_objects_equal old_v new_v) then
                        if is_container old_v && is_container new_v
                        then generate_diff_report old_v new_v new_path
                        else [ "  Modified: " ++ new_path;
                               "    - Old: " ++ dumps old_v;
                               "    + New: " ++ dumps new_v ]
                      else []
                  | None => []
                  end
                  (modified l')
            end) old_d))
  | JList old_l, JList new_l =>
      List.app
        (if negb (Nat.eqb (List.length old_l) (List.length new_l))
         then ["  Modified array length at " ++ path ++ ": " ++
               str_of_nat (List.length old_l) ++ " -> " ++
               str_of_nat (List.length new_l)]
         else [])
        (if negb (json_objects_equal old_obj new_obj)
         then ["  Modified array content at " ++ path]
         else [])
  | _, _ => []
  end.

(** ** [JsonCommentStripper] *)

(** The inner loop of [strip_comments], [for i, char in enumerate(line)]:
    [line] is what is left to read from index [i] on; the result is
    [comment_pos], [None] standing for [-1].  The test
    [i + 1 < len(line) and line[i + 1] == '/'] reads the next character. *)
Fixpoint scan_line (in_string escaped : bool) (i : nat) (line : string)
  : option nat :=
  match line with
  | EmptyString => None
  | String char rest =>
      if escaped then scan_line in_string false (S i) rest
      else if Ascii.eqb char BACKSLASH then scan_line in_string true (S i) rest
      else if Ascii.eqb char DQUOTE then scan_line (negb in_string) false (S i) rest
      else if negb in_string && Ascii.eqb char SLASH &&
              match rest with
              | String next _ => Ascii.eqb next SLASH
              | EmptyString => false
              end
           then Some i
           else scan_line in_string false (S i) rest
  end.

(** [c.isspace()] on the code points below 256. *)
Definition is_space (c : ascii) : bool :=
  let n := N_of_ascii c in
  (((9 <=? n) && (n <=? 13)) || ((28 <=? n) && (n <=? 32)) ||
   (n =? 133) || (n =? 160))%N.

(** [s.rstrip()] *)
Fixpoint rstrip (s : string) : string :=
  match s with
  | EmptyString => EmptyString
  | String c s' =>
      match rstrip s' with
      | EmptyString => if is_space c then EmptyString else String c EmptyString
      | r => String c r
      end
  end.

(** [text.split(sep)] for a one-character separator: never empty, one more
    piece than separators. *)
Fixpoint split_on (sep : ascii) (text : string) : list string :=
  match text with
  | EmptyString => [EmptyString]
  | String c rest =>
      if Ascii.eqb c sep then EmptyString :: split_on sep rest
      else match split_on sep rest with
           | piece :: pieces => String c piece :: pieces
           | [] => [String c EmptyString]
           end
  end.

(** The lines of a text: [text.split] at every line feed. *)
Definition split_lines (text : string) : list string := split_on NEWLINE text.

(** The inverse, [join] with a line feed between the lines. *)
Definition join_lines (lines : list string) : string :=
  String.concat (String NEWLINE "") lines.

(** The body of the outer loop: what is appended to [lines] for one line. *)
Definition strip_line (line : string) : string :=
  match scan_line false false 0 line with
  | Some comment_pos => rstrip (substring 0 comment_pos line)
  | None => line
  end.

(** [JsonCommentStripper.strip_comments] *)
Definition strip_comments (text : string) : string :=
  join_lines (List.map strip_line (split_lines text)).

(** ** Exceptions and the resolver's monad *)

(** The exceptions the script can raise, one constructor per raise site or
    per class raised by the interpreter and the libraries.  The two
    [ValueError]s and the [KeyError] carry what their messages interpolate. *)
Inductive exn : Type :=
| ValueError_no_hash (import_path : value)
    (* ValueError: Import path must contain '#' *)
| ValueError_cannot_merge
    (* ValueError: Cannot merge non-dict template value with other keys *)
| KeyError_not_found (key template_file : string)
    (* KeyError: Key ... not found in template ... *)
| FileNotFoundError
| JSONDecodeError
| TypeError
| AttributeError
| OtherError.

(** [except FileNotFoundError] and [except (ValueError, KeyError,
    json.JSONDecodeError)] in [process_device]. *)
Definition caught (e : exn) : bool :=
  match e with
  | ValueError_no_hash _ | ValueError_cannot_merge | KeyError_not_found _ _
  | FileNotFoundError | JSONDecodeError => true
  | TypeError | AttributeError | OtherError => false
  end.

(** What a call yields: a value, an exception, or no answer within the
    fuel it was given. *)
Inductive result (A : Type) : Type :=
| Ok (a : A)
| Raise (e : exn)
| OutOfFuel.

Arguments Ok {A} a.
Arguments Raise {A} e.
Arguments OutOfFuel {A}.

(** [self.template_cache]: file name to parsed file. *)
Abbreviation template_cache := (gmap string value).

(** Computations of the resolver: they read and extend the cache and may
    raise. *)
Definition M (A : Type) : Type := template_cache -> result A * template_cache.

Definition ret {A} (a : A) : M A := fun st => (Ok a, st).

Definition raise {A} (e : exn) : M A := fun st => (Raise e, st).

Definition out_of_fuel {A} : M A := fun st => (OutOfFuel, st).

Definition lift {A} (r : result A) : M A := fun st => (r, st).

Definition bind {A B} (c : M A) (k : A -> M B) : M B :=
  fun st =>
    match c st with
    | (Ok a, st') => k a st'
    | (Raise e, st') => (Raise e, st')
    | (OutOfFuel, st') => (OutOfFuel, st')
    end.

Notation "'let*' x := c 'in' k" := (bind c (fun x => k))
  (at level 10, x name, c at level 100, k at level 200).
Notation "'let*' ' pat := c 'in' k" :=
  (bind c (fun x => match x with pat => k end))
  (at level 10, pat pattern, c at level 100, k at level 200).

Definition get_cache : M template_cache := fun st => (Ok st, st).

Definition put_cache (st : template_cache) : M unit := fun _ => (Ok tt, st).

(** [needle in haystack] on strings. *)
Fixpoint contains (needle haystack : string) : bool :=
  String.prefix needle haystack ||
  match haystack with
  | EmptyString => false
  | String _ rest => contains needle rest
  end.

(** [s.split('#', 1)] when [s] contains ['#']: the text before the first
    ['#'] and the text after it. *)
Fixpoint split_hash (s : string) : option (string * string) :=
  match s with
  | EmptyString => None
  | String c rest =>
      if Ascii.eqb c HASH then Some (EmptyString, rest)
      else match split_hash rest with
           | Some (path_part, key_part) => Some (String c path_part, key_part)
           | None => None
           end
  end.

(** [s[2:]] *)
Definition drop2 (s : string) : string := substring 2 (String.length s - 2) s.

(** [existing_version += 1] *)
Definition py_add_one (v : value) : result value :=
  match v with
  | JNum n => Ok (JNum (n + 1))
  | JBool b => Ok (JNum (Z.b2z b + 1))
  | _ => Raise TypeError
  end.

(** ** The file system and the libraries around the script *)

(** [pathlib.Path] with the operations the script uses, the text of the
    files, and [json.loads]. *)
Class Files : Type := {
  Path : Type;
  path_join : Path -> string -> Path;       (* p / s *)
  path_parent : Path -> Path;               (* p.parent *)
  path_str : Path -> string;                (* str(p) *)
  path_exists : Path -> bool;               (* p.exists() *)
  read_text : Path -> result string;        (* open(p, 'r').read() *)
  json_loads : string -> result value       (* json.loads *)
}.

(** ** [DeviceConfigResolver] *)

Section Resolver.
Context `{Files}.
Variable base_dir : Path.

(** [load_json_file] *)
Definition load_json_file (file_path : Path) : result value :=
  match read_text file_path with
  | Ok content => json_loads (strip_comments content)
  | Raise e => Raise e
  | OutOfFuel => OutOfFuel
  end.

(** [resolve_import_path].  A [$import] value that is not a string fails
    in the interpreter: ['#' not in x] needs a container, [x.split] a
    string. *)
Definition resolve_import_path (import_path : value) (current_file : Path)
  : result (Path * string) :=
  match import_path with
  | JStr s =>
      match split_hash s with
      | None => Raise (ValueError_no_hash import_path)
      | Some (path_part, key_part) =>
          let template_path :=
            if String.eqb path_part "" then current_file
            else if String.prefix "~/" path_part
                 then path_join base_dir (drop2 path_part)
                 else path_join (path_parent current_file) path_part in
          Ok (template_path, key_part)
      end
  | JList l =>
      if existsb (fun x => py_eq (JStr "#") x) l then Raise AttributeError
      else Raise (ValueError_no_hash import_path)
  | JMap d =>
      if dict_has "#" d then Raise AttributeError
      else Raise (ValueError_no_hash import_path)
  | _ => Raise TypeError
  end.

(** [get_template_value] *)
Definition get_template_value (template_file : Path) (key : string) : M value :=
  let cache_key := path_str template_file in
  let* st := get_cache in
  let* template_data :=
    match lookup cache_key st with
    | Some data => ret data
    | None =>
        let* data := lift (load_json_file template_file) in
        let* stored := put_cache (insert cache_key data st) in
        ret data
    end in
  match template_data with
  | JMap d =>
      match dict_get key d with
      | Some v => ret v
      | None => raise (KeyError_not_found key cache_key)
      end
  | JList l =>
      if existsb (fun x => py_eq (JStr key) x) l then raise TypeError
      else raise (KeyError_not_found key cache_key)
  | JStr s =>
      if contains key s then raise TypeError
      else raise (KeyError_not_found key cache_key)
  | _ => raise TypeError
  end.

(** [{k: f(v) for k, v in data.items()}] *)
Fixpoint resolve_items (resolve : value -> M value) (items : dict) : M dict :=
  match items with
  | [] => ret []
  | (k, v) :: items' =>
      let* v' := resolve v in
      let* rest := resolve_items resolve items' in
      ret ((k, v') :: rest)
  end.

(** [[f(item) for item in data]] *)
Fixpoint resolve_list (resolve : value -> M value) (items : list value)
  : M (list value) :=
  match items with
  | [] => ret []
  | item :: items' =>
      let* item' := resolve item in
      let* rest := resolve_list resolve items' in
      ret (item' :: rest)
  end.

(** The merge loop: [for k, v in data.items(): if k != '$import':
    result[k] = resolve(v)]. *)
Fixpoint merge_overrides (resolve : value -> M value) (items : dict)
  (result : dict) : M dict :=
  match items with
  | [] => ret result
  | (k, v) :: items' =>
      if String.eqb k "$import" then merge_overrides resolve items' result
      else let* v' := resolve v in
           merge_overrides resolve items' (dict_set result k v')
  end.

(** [resolve_imports]; [fuel] bounds the depth of the recursion. *)
Fixpoint resolve_imports (fuel : nat) (data : value) (current_file : Path)
  : M value :=
  match fuel with
  | O => out_of_fuel
  | S fuel' =>
      match data with
      | JMap d =>
          match dict_get "$import" d with
          | Some import_path =>
              let* '(template_file, template_key) :=
                  lift (resolve_import_path import_path current_file) in
              let* template_value :=
                  get_template_value template_file template_key in
              let* resolved_template :=
                  resolve_imports fuel' template_value template_file in
              match resolved_template with
              | JMap template_d =>
                  let* merged :=
                      merge_overrides
                        (fun v => resolve_imports fuel' v current_file)
                        d template_d in
                  ret (JMap merged)
              | _ =>
                  if Nat.eqb (List.length d) 1 then ret resolved_template
                  else raise ValueError_cannot_merge
              end
          | None =>
              let* d' :=
                  resolve_items
                    (fun v => resolve_imports fuel' v current_file) d in
              ret (JMap d')
          end
      | JList l =>
          let* l' :=
              resolve_list (fun v => resolve_imports fuel' v current_file) l in
          ret (JList l')
      | _ => ret data
      end
  end.

(** [resolve_device_config], run on the empty cache of a new resolver. *)
Definition resolve_device_config (fuel : nat)
  (manufacturer_id device_filename : string) : result value :=
  let device_file := path_join (path_join base_dir manufacturer_id) device_filename in
  if negb (path_exists device_file) then Raise FileNotFoundError
  else
    match load_json_file device_file with
    | Ok device_config =>
        fst (resolve_imports fuel device_config device_file empty)
    | Raise e => Raise e
    | OutOfFuel => OutOfFuel
    end.

End Resolver.

(** ** [process_device] *)

(** How the run was started: unattended ([silent_mode]), or interactive with
    the answer to the overwrite prompt, [confirm] telling whether
    [input().strip().lower()] is ['y'] or ['yes']. *)
Inductive mode : Type :=
| Silent
| Interactive (confirm : bool).

Section Reconciler.
Context `{Files}.
Variable base_dir : Path.
Variable indigo_dir : Path.

(** What a run of [process_device] does to the artifact.  Console output is
    not part of the embedding. *)
Inductive outcome : Type :=
| Unchanged
    (* identical to the existing file: return, nothing written *)
| Cancelled
    (* the prompt was declined: return, nothing written *)
| Written (output_path : Path) (document : value) (json_output : string)
    (* [json_output] written to [output_path] *)
| Failed (e : exn)
    (* an exception of the [except] clauses: sys.exit(1) *)
| Crashed (e : exn)
    (* any other exception leaves [process_device] *)
| Diverged.
    (* the resolver ran out of fuel *)

Definition output_path_of (manufacturer_id device_filename : string) : Path :=
  path_join (path_join (path_join indigo_dir "full_definitions") manufacturer_id)
            device_filename.

(** Lines 478 to 489: the metadata is set on the resolved dictionary, which
    is serialised and written. *)
Definition save_resolved (output_path : Path) (resolved_config : value)
  (existing_version : value) (current_timestamp : string) : outcome :=
  match resolved_config with
  | JMap rc =>
      let document :=
        JMap (dict_set (dict_set rc "vers" existing_version)
                       "last_update" (JStr current_timestamp)) in
      Written output_path document (dumps_indent 0 document ++ String NEWLINE "")
  | _ => Crashed TypeError
  end.

(** [existing_version += 1], then the write. *)
Definition bump_and_save (output_path : Path) (resolved_config : value)
  (existing_version : value) (current_timestamp : string) : outcome :=
  match py_add_one existing_version with
  | Ok v => save_resolved output_path resolved_config v current_timestamp
  | Raise e => Crashed e
  | OutOfFuel => Diverged
  end.

(** The comparison copy: [temp_resolved]. *)
Definition temp_resolved (rc existing_data : dict) (current_timestamp : string)
  : dict :=
  dict_set (dict_set rc "vers" (dict_get_default "vers" (JNum 1) existing_data))
           "last_update"
           (dict_get_default "last_update" (JStr current_timestamp) existing_data).

(** The body of [process_device] after the resolution: [existing] is the
    parsed content of the output file when it exists. *)
Definition reconcile (output_path : Path) (resolved_config : value)
  (existing : option value) (md : mode) (current_timestamp : string) : outcome :=
  match existing with
  | None => save_resolved output_path resolved_config (JNum 1) current_timestamp
  | Some existing_data =>
      match existing_data with
      | JMap ed =>
          let existing_version := dict_get_default "vers" (JNum 1) ed in
          match resolved_config with
          | JMap rc =>
              if json_objects_equal existing_data
                   (JMap (temp_resolved rc ed current_timestamp))
              then Unchanged
              else
                match md with
                | Silent =>
                    bump_and_save output_path resolved_config existing_version
                                  current_timestamp
                | Interactive confirm =>
                    if confirm
                    then bump_and_save output_path resolved_config
                                       existing_version current_timestamp
                    else Cancelled
                end
          | JList _ => Crashed TypeError
          | _ => Crashed AttributeError
          end
      | _ => Crashed AttributeError
      end
  end.

(** [process_device] *)
Definition process_device (fuel : nat) (manufacturer_id device_filename : string)
  (md : mode) (current_timestamp : string) : outcome :=
  match resolve_device_config base_dir fuel manufacturer_id device_filename with
  | OutOfFuel => Diverged
  | Raise e => if caught e then Failed e else Crashed e
  | Ok resolved_config =>
      let output_path := output_path_of manufacturer_id device_filename in
      if path_exists output_path then
        match read_text output_path with
        | Ok content =>
            match json_loads content with
            | Ok existing_data =>
                reconcile output_path resolved_config (Some existing_data) md
                          current_timestamp
            | Raise e => if caught e then Failed e else Crashed e
            | OutOfFuel => Diverged
            end
        | Raise e => if caught e then Failed e else Crashed e
        | OutOfFuel => Diverged
        end
      else reconcile output_path resolved_config None md current_timestamp
  end.

End Reconciler.

Arguments Unchanged {_}.
Arguments Cancelled {_}.
Arguments Diverged {_}.

(** ** Notions the properties are stated with *)

(** *** Semantic equality *)

(** Two values agree up to the order of dictionary keys at every depth,
    their scalars being related by [R]: lists agree element by element, in
    order; dictionaries agree when the items of one can be reordered so as
    to carry the keys of the other, in its order, with values that agree. *)
Inductive agree (R : value -> value -> Prop) : value -> value -> Prop :=
| agree_scalar a b :
    is_container a = false -> is_container b = false -> R a b -> agree R a b
| agree_list l1 l2 :
    agree_all R l1 l2 -> agree R (JList l1) (JList l2)
| agree_map m1 m2 m2' :
    agree_items R m1 m2' -> Permutation m2' m2 -> agree R (JMap m1) (JMap m2)
with agree_all (R : value -> value -> Prop) : list value -> list value -> Prop :=
| agree_all_nil : agree_all R [] []
| agree_all_cons x y l1 l2 :
    agree R x y -> agree_all R l1 l2 -> agree_all R (x :: l1) (y :: l2)
with agree_items (R : value -> value -> Prop) : dict -> dict -> Prop :=
| agree_items_nil : agree_items R [] []
| agree_items_cons k x y m1 m2 :
    agree R x y -> agree_items R m1 m2 ->
    agree_items R ((k, x) :: m1) ((k, y) :: m2).

(** Equality up to the order of dictionary keys: scalars are the same. *)
Definition reorder_eq : value -> value -> Prop := agree eq.

(** Python's [==] on scalars, under which [True == 1] and [False == 0]. *)
Definition py_scalar_eq (a b : value) : Prop := py_eq a b = true.

(** The keys of a dictionary in the order of [sorted]. *)
Definition keys_sorted (d : dict) : Prop :=
  Sorted (fun k1 k2 => String.leb k1 k2 = true) (keys d).

(** Every dictionary of the value has its keys in sorted order. *)
Inductive sorted_deep : value -> Prop :=
| sorted_scalar v : is_container v = false -> sorted_deep v
| sorted_list l : Forall sorted_deep l -> sorted_deep (JList l)
| sorted_map m :
    keys_sorted m -> Forall (fun e => sorted_deep (snd e)) m ->
    sorted_deep (JMap m).

(** The same keys, each value changed by [f]. *)
Definition map_values (f : value -> value) (d : dict) : dict :=
  List.map (fun e => (fst e, f (snd e))) d.

(** The test Python's [==] makes for one item [e] of the left dictionary:
    [m2] has its key, with an equal value. *)
Definition item_matches (m2 : dict) (e : string * value) : bool :=
  match dict_get (fst e) m2 with
  | Some v' => py_eq (snd e) v'
  | None => false
  end.

(** Distinct keys of a literal dictionary. *)
Ltac solve_wf :=
  simpl; repeat split; repeat constructor; simpl;
  intuition (try discriminate; try congruence).

(** *** Positions in a line of text *)

(** Length of the run of backslashes that ends [s]. *)
Fixpoint backslash_run (s : string) : nat :=
  match s with
  | EmptyString => O
  | String c s' =>
      if Ascii.eqb c BACKSLASH && Nat.eqb (backslash_run s') (String.length s')
      then S (String.length s')
      else backslash_run s'
  end.

(** The character at index [i] is escaped: an odd number of backslashes
    stands immediately before it. *)
Definition escaped_at (line : string) (i : nat) : bool :=
  Nat.odd (backslash_run (substring 0 i line)).

(** The character at index [i] is [c]. *)
Definition char_at (line : string) (i : nat) (c : ascii) : bool :=
  match String.get i line with
  | Some c' => Ascii.eqb c' c
  | None => false
  end.

(** Index [j] holds a double quote that is not escaped. *)
Definition quote_at (line : string) (j : nat) : bool :=
  char_at line j DQUOTE && negb (escaped_at line j).

(** Index [i] lies inside a string literal: an odd number of unescaped
    double quotes stand before it on the line. *)
Definition in_string_at (line : string) (i : nat) : bool :=
  Nat.odd (List.length (List.filter (quote_at line) (seq 0 i))).

(** A comment starts at index [i]: two slashes, outside any string literal,
    the first of them not escaped. *)
Definition comment_at (line : string) (i : nat) : bool :=
  negb (escaped_at line i) && negb (in_string_at line i) &&
  char_at line i SLASH && char_at line (S i) SLASH.

(** The first index of the line at which a comment starts. *)
Definition first_comment (line : string) : option nat :=
  List.find (comment_at line) (seq 0 (String.length line)).

(** The line cut at its first comment, white space before the comment
    dropped with it; a line without comment is kept as it is. *)
Definition without_comment (line : string) : string :=
  match first_comment line with
  | Some i => rstrip (substring 0 i line)
  | None => line
  end.

(** [s] begins [t]. *)
Definition is_prefix (s t : string) : Prop := exists u, t = s ++ u.

(** Number of line breaks in a text. *)
Fixpoint count_newlines (text : string) : nat :=
  match text with
  | EmptyString => O
  | String c rest =>
      if Ascii.eqb c NEWLINE then S (count_newlines rest) else count_newlines rest
  end.

(** *** Resolution *)

(** No dictionary, at any depth, has the key [$import]. *)
Fixpoint no_import (v : value) : bool :=
  match v with
  | JMap m =>
      negb (dict_has "$import" m) &&
      (fix all (m : dict) : bool :=
         match m with [] => true | (_, x) :: m' => no_import x && all m' end) m
  | JList l =>
      (fix all (l : list value) : bool :=
         match l with [] => true | x :: l' => no_import x && all l' end) l
  | _ => true
  end.

(** The items of the importing node other than [$import]. *)
Definition overrides (d : dict) : dict :=
  List.filter (fun e => negb (String.eqb (fst e) "$import")) d.

(** [t.update(o)]: the items of [o] assigned to [t] one after the other. *)
Definition dict_update (t o : dict) : dict :=
  fold_left (fun r e => dict_set r (fst e) (snd e)) o t.

(** The cache has not read [file] yet, or holds [doc] for it. *)
Definition cache_agrees `{Files} (st : template_cache) (file : Path)
  (doc : value) : Prop :=
  lookup (path_str file) st = None \/ lookup (path_str file) st = Some doc.

(** In the dictionary [fd] of a file, the entry [k] leads to [v] through the
    keys [ks], each link being a reference with an empty path. *)
Fixpoint self_chain (fd : dict) (ks : list string) (k : string) (v : value)
  : Prop :=
  match ks with
  | [] => dict_get k fd = Some v
  | k' :: ks' =>
      dict_get k fd = Some (JMap [("$import", JStr (String HASH k'))]) /\
      self_chain fd ks' k' v
  end.

(** *** Versions *)

(** The integer a version stands for in [existing_version += 1]. *)
Definition int_value (v : value) : option Z :=
  match v with
  | JNum n => Some n
  | JBool b => Some (Z.b2z b)
  | _ => None
  end.

(** [existing_data.get('vers', 1)] *)
Definition existing_version (existing_data : dict) : value :=
  dict_get_default "vers" (JNum 1) existing_data.

(** The document a run writes for the resolved dictionary [rc]. *)
Definition artifact (rc : dict) (version : Z) (current_timestamp : string)
  : value :=
  JMap (dict_set (dict_set rc "vers" (JNum version))
                 "last_update" (JStr current_timestamp)).

(** The version a document carries. *)
Definition stored_version (doc : value) : option value :=
  match doc with
  | JMap d => dict_get "vers" d
  | _ => None
  end.

(** ** A small configuration tree, for the examples *)

(** A string literal, for the examples. *)
Definition quoted (s : string) : string := String DQUOTE (s ++ String DQUOTE "").

Definition ex_master : value :=
  JMap [ ("base", JMap [("a", JNum 1); ("b", JNum 2)]);
         ("nested", JMap [("$import", JStr "#inner"); ("x", JNum 1)]);
         ("inner", JMap [("deep", JBool true)]);
         ("text", JStr "master") ].

Definition ex_local : value :=
  JMap [ ("label", JMap [("$import", JStr "#text")]);
         ("text", JStr "hello") ].

Definition ex_device : value :=
  JMap [ ("name", JStr "dev");
         ("p1", JMap [("$import", JStr "~/templates/master.json#base");
                      ("b", JNum 99)]);
         ("p2", JMap [("$import", JStr "templates/local.json#label")]);
         ("p3", JList [JMap [("$import", JStr "~/templates/master.json#nested");
                             ("y", JMap [("$import", JStr "#text")])]]);
         ("text", JStr "device") ].

Definition ex_conflict : value :=
  JMap [ ("p", JMap [("$import", JStr "templates/local.json#text");
                     ("x", JNum 1)]) ].

Definition ex_device_resolved : value :=
  JMap [ ("name", JStr "dev");
         ("p1", JMap [("a", JNum 1); ("b", JNum 99)]);
         ("p2", JStr "hello");
         ("p3", JList [JMap [("deep", JBool true); ("x", JNum 1);
                             ("y", JStr "device")]]);
         ("text", JStr "device") ].

Definition ex_base_dir : list string := ["cfg"].
Definition ex_indigo_dir : list string := ["indigo"].
Definition ex_device_file : list string := ["cfg"; "0x027a"; "dev.json"].
Definition ex_conflict_file : list string := ["cfg"; "0x027a"; "bad.json"].
Definition ex_master_file : list string := ["cfg"; "templates"; "master.json"].
Definition ex_local_file : list string := ["cfg"; "0x027a"; "templates"; "local.json"].
Definition ex_artifact_file : list string :=
  ["indigo"; "full_definitions"; "0x027a"; "dev.json"].

(** The source files, each with a trailing comment. *)
Definition ex_sources : list (list string * string) :=
  [ (ex_device_file, dumps ex_device ++ "  // device");
    (ex_conflict_file, dumps ex_conflict ++ "  // conflict");
    (ex_master_file, dumps ex_master ++ "  // master template");
    (ex_local_file, dumps ex_local ++ "  // local template") ].

(** A file system holding [files]; paths are lists of components, and
    [json.loads] is a table over the documents in [docs]. *)
Definition ex_files (files : list (list string * string)) (docs : list value)
  : Files :=
  {| Path := list string;
     path_join p s :=
       (p ++ List.filter (fun x => negb (String.eqb x "")) (split_on SLASH s))%list;
     path_parent p := removelast p;
     path_str p := String.concat "/" p;
     path_exists p := existsb (fun e => bool_decide (fst e = p)) files;
     read_text p :=
       match List.find (fun e => bool_decide (fst e = p)) files with
       | Some e => Ok (snd e)
       | None => Raise FileNotFoundError
       end;
     json_loads s :=
       match List.find (fun v => String.eqb (dumps v) s) docs with
       | Some v => Ok v
       | None => Raise JSONDecodeError
       end |}.

Definition ex_docs : list value := [ex_device; ex_conflict; ex_master; ex_local].

Definition ex_fs : Files := ex_files ex_sources ex_docs.

(** Previously written artifacts, for the examples. *)
Definition ex_resolved_dict : dict :=
  match ex_device_resolved with JMap d => d | _ => [] end.

Definition ex_timestamp_old : string := "2025-01-01T00:00:00.000000".
Definition ex_timestamp_now : string := "2026-01-01T00:00:00.000000".

Definition ex_artifact_same : value := artifact ex_resolved_dict 3 ex_timestamp_old.

Definition ex_artifact_old : value :=
  JMap [("name", JStr "old"); ("vers", JNum 3);
        ("last_update", JStr ex_timestamp_old)].


Definition ex_artifact_legacy : value :=
  JMap (dict_set ex_resolved_dict "last_update" (JStr ex_timestamp_old)).

(** The example tree with [a] stored as the artifact of the device. *)
Definition ex_fs_with (a : value) : Files :=
  ex_files (ex_sources ++ [(ex_artifact_file, dumps a)])%list
           (ex_docs ++ [a])%list.

(** ** The rest of the script and the two analysers *)

(** *** [main]: the file name handed to [process_device] *)



(** *** [analyze_param_keys.py] *)

(** [extract_param_keys]: the set [keys] is updated in place; the function
    returns it here. *)
Fixpoint extract_param_keys (obj : value) (keys : gset string) : gset string :=
  match obj with
  | JMap d =>
      let keys1 :=
        match dict_get "paramInformation" d with
        | Some (JList params) =>
            fold_left
              (fun acc param =>
                 match param with
                 | JMap pd => union acc (list_to_set (List.map fst pd))
                 | _ => acc
                 end) params keys
        | _ => keys
        end in
      (fix values (l : dict) (acc : gset string) : gset string :=
         match l with
         | [] => acc
         | (_, v) :: l' => values l' (extract_param_keys v acc)
         end) d keys1
  | JList l =>
      (fix items (l : list value) (acc : gset string) : gset string :=
         match l with
         | [] => acc
         | item :: l' => items l' (extract_param_keys item acc)
         end) l keys
  | _ => keys
  end.

(** What the loop of [main] has accumulated: [all_keys], [file_count],
    [error_count]. *)
Record param_keys_state : Type := {
  all_keys : gset string;
  file_count : nat;
  error_count : nat
}.

(** The loop of [main] over [json_files], the files found under the
    devices directory: each is read, stripped of its comments and parsed, as
    [load_json_file] does; a file that cannot be read or parsed is counted
    as an error, [except Exception] catching whatever is raised. *)
Definition param_keys_main `{Files} (json_files : list Path) : param_keys_state :=
  fold_left
    (fun st json_file =>
       match load_json_file json_file with
       | Ok data =>
           {| all_keys := extract_param_keys data (all_keys st);
              file_count := S (file_count st);
              error_count := error_count st |}
       | _ =>
           {| all_keys := all_keys st;
              file_count := file_count st;
              error_count := S (error_count st) |}
       end)
    json_files
    {| all_keys := empty; file_count := O; error_count := O |}.

(** *** [analyze_top_level_description.py] *)

(** [json.dumps(v, sort_keys=True)]: the items of every dictionary are
    written in the order of [sorted]. *)
Definition dumps_sorted (v : value) : string := dumps (normalize_json v).

(** The body of the loop of [main] for a parsed file: the description it
    appends to [descriptions], [None] when the file has no top-level
    description.  A list or a dictionary is serialised with its keys sorted;
    anything else goes through [str]. *)
Definition description_of (data : value) : option string :=
  match data with
  | JMap d =>
      match dict_get "description" d with
      | Some desc_value =>
          Some match desc_value with
               | JList _ | JMap _ => dumps_sorted desc_value
               | JNull => "None"
               | JBool true => "True"
               | JBool false => "False"
               | JNum n => str_of_Z n
               | JStr s => s
               end
      | None => None
      end
  | _ => None
  end.

(** What the loop of [main] has accumulated; [d_file_count] and
    [d_error_count] are its [file_count] and [error_count]. *)
Record description_state : Type := {
  descriptions : list string;
  d_file_count : nat;
  d_error_count : nat;
  no_description_count : nat
}.

(** The loop of [main] over [json_files]. *)
Definition description_main `{Files} (json_files : list Path) : description_state :=
  fold_left
    (fun st json_file =>
       match load_json_file json_file with
       | Ok data =>
           match description_of data with
           | Some desc =>
               {| descriptions := (descriptions st ++ [desc])%list;
                  d_file_count := S (d_file_count st);
                  d_error_count := d_error_count st;
                  no_description_count := no_description_count st |}
           | None =>
               {| descriptions := descriptions st;
                  d_file_count := S (d_file_count st);
                  d_error_count := d_error_count st;
                  no_description_count := S (no_description_count st) |}
           end
       | _ =>
           {| descriptions := descriptions st;
              d_file_count := d_file_count st;
              d_error_count := S (d_error_count st);
              no_description_count := no_description_count st |}
       end)
    json_files
    {| descriptions := []; d_file_count := O; d_error_count := O;
       no_description_count := O |}.

(** ** Notions for the further properties *)

(** Goals [x =? y = true] whose sides are equal by congruence. *)
Ltac solve_eqb :=
  match goal with
  | |- Bool.eqb _ _ = true => apply Bool.eqb_true_iff; congruence
  | |- Z.eqb _ _ = true => apply Z.eqb_eq; congruence
  | |- String.eqb _ _ = true => apply String.eqb_eq; congruence
  end.

(** The depth of the recursion of a walk over [v]: one frame for [v], and
    the frames of its deepest item. *)
Fixpoint frames (v : value) : nat :=
  match v with
  | JMap m =>
      S ((fix deepest (m : dict) : nat :=
            match m with
            | [] => O
            | (_, x) :: m' => Nat.max (frames x) (deepest m')
            end) m)
  | JList l =>
      S ((fix deepest (l : list value) : nat :=
            match l with
            | [] => O
            | x :: l' => Nat.max (frames x) (deepest l')
            end) l)
  | _ => 1%nat
  end.

(** The lines [generate_diff_report] gives for one item of the old
    dictionary: the body of its last loop. *)
Definition modified_lines (new_d : dict) (path : string) (e : string * value)
  : list string :=
  match dict_get (fst e) new_d with
  | Some new_v =>
      if negb (json_objects_equal (snd e) new_v) then
        if is_container (snd e) && is_container new_v
        then generate_diff_report (snd e) new_v (join_path path (fst e))
        else [ "  Modified: " ++ join_path path (fst e);
               "    - Old: " ++ dumps (snd e);
               "    + New: " ++ dumps new_v ]
      else []
  | None => []
  end.

(** Under no path common to both values does a dictionary stand against a
    list. *)
Fixpoint kinds_agree (a b : value) : bool :=
  match a, b with
  | JMap m1, JMap m2 =>
      (fix all (m : dict) : bool :=
         match m with
         | [] => true
         | (k, v) :: m' =>
             match dict_get k m2 with
             | Some v' => kinds_agree v v'
             | None => true
             end && all m'
         end) m1
  | JMap _, JList _ | JList _, JMap _ => false
  | _, _ => true
  end.

(** [sub] occurs in [v]: it is [v], or occurs in an item of [v]. *)
Inductive occurs_in (sub : value) : value -> Prop :=
| occurs_here : occurs_in sub sub
| occurs_list l x : In x l -> occurs_in sub x -> occurs_in sub (JList l)
| occurs_map m k x : In (k, x) m -> occurs_in sub x -> occurs_in sub (JMap m).

(** [k] is a key of a dictionary listed under [paramInformation] by some
    dictionary that occurs in [obj]. *)
Definition param_key (obj : value) (k : string) : Prop :=
  exists d params pd,
    occurs_in (JMap d) obj /\
    dict_get "paramInformation" d = Some (JList params) /\
    In (JMap pd) params /\ In k (List.map fst pd).

(** Every entry of the cache is what its file parses to. *)
Definition cache_consistent `{Files} (st : template_cache) : Prop :=
  forall file data,
    lookup (path_str file) st = Some data -> load_json_file file = Ok data.

(** The file name decides what is loaded: [open] is given [str(path)]. *)
Definition load_by_name `{Files} : Prop :=
  forall file file' : Path,
    path_str file = path_str file' -> load_json_file file = load_json_file file'.

(** A computation whose answer does not depend on which consistent cache it
    is started from, and which leaves a consistent cache that extends the
    one it was given. *)
Definition cache_independent `{Files} {A} (c : M A) : Prop :=
  forall st1 st2,
    cache_consistent st1 -> cache_consistent st2 ->
    fst (c st1) = fst (c st2) /\
    cache_consistent (snd (c st1)) /\
    subseteq st1 (snd (c st1)).

(** Whatever [json.loads] returns has dictionaries with distinct keys. *)
Definition loads_wf `{Files} : Prop :=
  forall text data, json_loads text = Ok data -> wf_value data.

(** Every entry of the cache has dictionaries with distinct keys. *)
Definition cache_wf (st : template_cache) : Prop :=
  forall name data, lookup name st = Some data -> wf_value data.

(** A computation that keeps the cache well formed and answers with well
    formed values. *)
Definition keeps_wf {A} (P : A -> Prop) (c : M A) : Prop :=
  forall st, cache_wf st ->
    cache_wf (snd (c st)) /\
    forall a, fst (c st) = Ok a -> P a.

(** An [$import] value that can be resolved: a string with a ['#']. *)
Definition importable (import_path : value) : bool :=
  match import_path with
  | JStr s => contains "#" s
  | _ => false
  end.

(** Read outside a string literal, [t] shows no comment and ends outside a
    string literal, whatever follows it on the line. *)
Definition scans_clean (t : string) : Prop :=
  forall i rest,
    scan_line false false i (t ++ rest)
    = scan_line false false (i + String.length t) rest.

(** Read inside a string literal, [t] does not end the literal. *)
Definition scans_inside (t : string) : Prop :=
  forall i rest,
    scan_line true false i (t ++ rest)
    = scan_line true false (i + String.length t) rest.

(** No line of the text shows a comment or ends inside a string literal. *)
Definition lines_clean (t : string) : Prop :=
  Forall scans_clean (split_lines t).

(** No character of the text is a backslash, a double quote, a slash or a
    line feed. *)
Fixpoint plain_text (t : string) : bool :=
  match t with
  | EmptyString => true
  | String c t' =>
      negb (Ascii.eqb c BACKSLASH) && negb (Ascii.eqb c DQUOTE) &&
      negb (Ascii.eqb c SLASH) && negb (Ascii.eqb c NEWLINE) && plain_text t'
  end.

(** The text ends with a character that [rstrip] keeps. *)
Fixpoint ends_solid (t : string) : bool :=
  match t with
  | EmptyString => false
  | String c EmptyString => negb (is_space c)
  | String _ t' => ends_solid t'
  end.

(** Every character of the text is white space. *)
Fixpoint all_space (t : string) : bool :=
  match t with
  | EmptyString => true
  | String c t' => is_space c && all_space t'
  end.

(** ** Further examples *)

(** A template file whose entry [loop] imports itself. *)
Definition ex_cycle : value :=
  JMap [ ("loop", JMap [("$import", JStr "#loop")]);
         ("leaf", JNum 1) ].

Definition ex_cycle_file : list string := ["cfg"; "templates"; "cycle.json"].

Definition ex_cycle_fs : Files :=
  ex_files [(ex_cycle_file, dumps ex_cycle)] [ex_cycle].

(** A file system whose paths are file names. *)
Definition flat_files (files : list (string * string)) (docs : list value)
  : Files :=
  {| Path := string;
     path_join p s := p ++ "/" ++ s;
     path_parent p := String.concat "/" (removelast (split_on SLASH p));
     path_str p := p;
     path_exists p := existsb (fun e => String.eqb (fst e) p) files;
     read_text p :=
       match List.find (fun e => String.eqb (fst e) p) files with
       | Some e => Ok (snd e)
       | None => Raise FileNotFoundError
       end;
     json_loads s :=
       match List.find (fun v => String.eqb (dumps v) s) docs with
       | Some v => Ok v
       | None => Raise JSONDecodeError
       end |}.

Definition ex_flat_fs : Files :=
  flat_files
    [ ("cfg/0x027a/dev.json", dumps ex_device ++ "  // device");
      ("cfg/templates/master.json", dumps ex_master ++ "  // master template");
      ("cfg/0x027a/templates/local.json", dumps ex_local) ]
    ex_docs.

(** ** The resolution as the specification words it *)

(** A result without the reason of its failure. *)
Definition to_option {A} (r : result A) : option A :=
  match r with
  | Ok a => Some a
  | _ => None
  end.

Section Located.
Context `{Files}.
Variable base_dir : Path.

(** Steps 1 and 2 of the algorithm: the reference [path#key] is cut at its
    first ['#']; an empty path is the current file, a path in [~/] is taken
    from the base directory, any other path from the directory that holds
    the current file. *)
Definition locate (current_file : Path) (reference : value)
  : option (Path * string) :=
  match reference with
  | JStr s =>
      match split_hash s with
      | Some (path, key) =>
          Some (if String.eqb path "" then current_file
                else if String.prefix "~/" path
                     then path_join base_dir (drop2 path)
                     else path_join (path_parent current_file) path,
                key)
      | None => None
      end
  | _ => None
  end.

(** Steps 3 and 4: the value under [key] in the Mapping the target file
    holds. *)
Definition template_value_of (target : Path) (key : string) : option value :=
  match load_json_file target with
  | Ok (JMap target_d) => dict_get key target_d
  | _ => None
  end.

(** Each element resolved, order kept. *)
Fixpoint located_list (resolve : value -> option value) (l : list value)
  : option (list value) :=
  match l with
  | [] => Some []
  | x :: l' =>
      match resolve x with
      | Some x' =>
          match located_list resolve l' with
          | Some rest => Some (x' :: rest)
          | None => None
          end
      | None => None
      end
  end.

(** Each value resolved, keys and order kept. *)
Fixpoint located_items (resolve : value -> option value) (d : dict)
  : option dict :=
  match d with
  | [] => Some []
  | (k, x) :: d' =>
      match resolve x with
      | Some x' =>
          match located_items resolve d' with
          | Some rest => Some ((k, x') :: rest)
          | None => None
          end
      | None => None
      end
  end.

(** The resolution of a value found in [current_file], to at most [depth]
    frames, with no cache: the value a reference names is resolved with the
    target file as its current file (step 5), the sibling keys of the
    importing node with the importing file, and laid over the resolved
    template one after the other (step 6); a template that is no Mapping is
    returned when the node has no other key (step 7). *)
Fixpoint resolve_located (depth : nat) (current_file : Path) (v : value)
  : option value :=
  match depth with
  | O => None
  | S depth' =>
      match v with
      | JMap d =>
          match dict_get "$import" d with
          | Some reference =>
              match locate current_file reference with
              | Some (target, key) =>
                  match template_value_of target key with
                  | Some template_value =>
                      match resolve_located depth' target template_value with
                      | Some (JMap template_d) =>
                          match located_items (resolve_located depth' current_file)
                                              (overrides d) with
                          | Some o => Some (JMap (dict_update template_d o))
                          | None => None
                          end
                      | Some resolved_template =>
                          if Nat.eqb (List.length d) 1 then Some resolved_template
                          else None
                      | None => None
                      end
                  | None => None
                  end
              | None => None
              end
          | None =>
              match located_items (resolve_located depth' current_file) d with
              | Some d' => Some (JMap d')
              | None => None
              end
          end
      | JList l =>
          match located_list (resolve_located depth' current_file) l with
          | Some l' => Some (JList l')
          | None => None
          end
      | _ => Some v
      end
  end.

End Located.

(** The computation [c], started from any cache whose entries are what
    their files hold, answers [o] and leaves such a cache. *)
Definition refines `{Files} {A} (c : M A) (o : option A) : Prop :=
  forall st, cache_consistent st ->
    to_option (fst (c st)) = o /\ cache_consistent (snd (c st)).

(** A device whose template imports, by a relative path, a template of its
    own; each of the three files has a key [own]. *)
Definition ex_nested_device : value :=
  JMap [ ("p", JMap [("$import", JStr "lib/a.json#entry");
                     ("mine", JMap [("$import", JStr "#own")])]);
         ("own", JStr "device") ].

Definition ex_nested_a : value :=
  JMap [ ("entry", JMap [("$import", JStr "sub/b.json#leaf");
                         ("here", JMap [("$import", JStr "#own")])]);
         ("own", JStr "a") ].

Definition ex_nested_b : value :=
  JMap [ ("leaf", JMap [("v", JNum 1); ("there", JMap [("$import", JStr "#own")])]);
         ("own", JStr "b") ].

Definition ex_nested_resolved : value :=
  JMap [ ("p", JMap [("v", JNum 1); ("there", JStr "b"); ("here", JStr "a");
                     ("mine", JStr "device")]);
         ("own", JStr "device") ].

Definition ex_nested_fs : Files :=
  flat_files
    [ ("cfg/devs/dev.json", dumps ex_nested_device);
      ("cfg/devs/lib/a.json", dumps ex_nested_a);
      ("cfg/devs/lib/sub/b.json", dumps ex_nested_b) ]
    [ex_nested_device; ex_nested_a; ex_nested_b].

(** * Properties *)

(** ** Induction on JSON values *)

Lemma value_ind_nested (P : value -> Prop)
  (Hnull : P JNull)
  (Hbool : forall b, P (JBool b))
  (Hnum : forall n, P (JNum n))
  (Hstr : forall s, P (JStr s))
  (Hlist : forall l, Forall P l -> P (JList l))
  (Hmap : forall m, Forall (fun e => P (snd e)) m -> P (JMap m)) :
  forall v, P v.
Proof.
  fix IH 1. intros [ | b | n | s | l | m ].
  - exact Hnull.
  - apply Hbool.
  - apply Hnum.
  - apply Hstr.
  - apply Hlist. induction l as [ | x l IHl ]; constructor; [ apply IH | exact IHl ].
  - apply Hmap. induction m as [ | [k x] m IHm ]; constructor; [ apply IH | exact IHm ].
Qed.

(** ** Dictionaries *)

Lemma dict_get_In k v (d : dict) : dict_get k d = Some v -> In (k, v) d.
Proof.
  induction d as [ | [k' v'] d IH ]; simpl; [ discriminate | ].
  destruct (String.eqb k k') eqn:E.
  - apply String.eqb_eq in E. intros [= ->]. subst. now left.
  - intros Hg. right. now apply IH.
Qed.

Lemma dict_get_None k (d : dict) : dict_get k d = None <-> ~ In k (keys d).
Proof.
  induction d as [ | [k' v'] d IH ]; simpl; [ tauto | ].
  destruct (String.eqb k k') eqn:E.
  - apply String.eqb_eq in E. subst. split; [ discriminate | intros Hn; exfalso; apply Hn; now left ].
  - apply String.eqb_neq in E. rewrite IH. split.
    + intros Hn [Heq | Hin]; [ now apply E | now apply Hn ].
    + intros Hn Hin. apply Hn. now right.
Qed.

Lemma In_dict_get k v (d : dict) :
  List.NoDup (keys d) -> In (k, v) d -> dict_get k d = Some v.
Proof.
  induction d as [ | [k' v'] d IH ]; simpl; [ tauto | ].
  intros Hnd [Heq | Hin].
  - injection Heq as -> ->. now rewrite String.eqb_refl.
  - inversion Hnd as [ | ? ? Hnotin Hnd' ]; subst.
    destruct (String.eqb k k') eqn:E.
    + apply String.eqb_eq in E. subst. exfalso. apply Hnotin.
      change k' with (fst (k', v)). now apply in_map.
    + now apply IH.
Qed.

Lemma dict_has_In k (d : dict) : dict_has k d = true <-> In k (keys d).
Proof.
  unfold dict_has. destruct (dict_get k d) eqn:E.
  - split; [ intros _ | reflexivity ].
    apply dict_get_In in E. change k with (fst (k, v)). now apply in_map.
  - apply dict_get_None in E. split; [ discriminate | tauto ].
Qed.

Lemma dict_get_set_eq (d : dict) k v : dict_get k (dict_set d k v) = Some v.
Proof.
  induction d as [ | [k' v'] d IH ]; simpl.
  - now rewrite String.eqb_refl.
  - destruct (String.eqb k k') eqn:E; simpl; rewrite E; [ reflexivity | exact IH ].
Qed.

Lemma dict_get_set_ne (d : dict) k k' v :
  k <> k' -> dict_get k' (dict_set d k v) = dict_get k' d.
Proof.
  intros Hne. induction d as [ | [k0 v0] d IH ]; simpl.
  - destruct (String.eqb k' k) eqn:E; [ | reflexivity ].
    apply String.eqb_eq in E. congruence.
  - destruct (String.eqb k k0) eqn:E; simpl.
    + apply String.eqb_eq in E. subst k0.
      destruct (String.eqb k' k) eqn:E'; [ | reflexivity ].
      apply String.eqb_eq in E'. congruence.
    + now rewrite IH.
Qed.

Lemma keys_dict_set (d : dict) k v :
  keys (dict_set d k v) = if dict_has k d then keys d else (keys d ++ [k])%list.
Proof.
  unfold dict_has, keys. induction d as [ | [k' v'] d IH ]; simpl; [ reflexivity | ].
  destruct (String.eqb k k') eqn:E; simpl; [ reflexivity | ].
  rewrite IH. now destruct (dict_get k d).
Qed.


(** ** Sorting the items of a dictionary *)

Lemma insert_item_perm e (l : dict) : Permutation (insert_item e l) (e :: l).
Proof.
  induction l as [ | e' l IH ]; simpl; [ reflexivity | ].
  destruct (String.leb (fst e) (fst e')); [ reflexivity | ].
  rewrite IH. apply perm_swap.
Qed.

Lemma sorted_items_perm (d : dict) : Permutation (sorted_items d) d.
Proof.
  induction d as [ | e d IH ]; simpl; [ reflexivity | ].
  rewrite insert_item_perm. now constructor.
Qed.

Lemma sorted_items_length (d : dict) : List.length (sorted_items d) = List.length d.
Proof. apply Permutation_length, sorted_items_perm. Qed.

Lemma insert_item_sorted e (l : dict) : keys_sorted l -> keys_sorted (insert_item e l).
Proof.
  unfold keys_sorted, keys.
  induction l as [ | e' l IH ]; simpl; intros Hs.
  - repeat constructor.
  - destruct (String.leb (fst e) (fst e')) eqn:E; simpl.
    + constructor; [ exact Hs | constructor; exact E ].
    + inversion Hs as [ | ? ? Hs' Hhd ]; subst.
      constructor; [ now apply IH | ].
      destruct l as [ | e'' l ]; simpl.
      * constructor. destruct (String.leb_total (fst e') (fst e)); congruence.
      * destruct (String.leb (fst e) (fst e'')); simpl; constructor.
        -- destruct (String.leb_total (fst e') (fst e)); congruence.
        -- now inversion Hhd.
Qed.

Lemma sorted_items_sorted (d : dict) : keys_sorted (sorted_items d).
Proof.
  induction d as [ | e d IH ]; simpl.
  - constructor.
  - now apply insert_item_sorted.
Qed.

Lemma insert_item_map_values f e (l : dict) :
  insert_item (fst e, f (snd e)) (map_values f l) = map_values f (insert_item e l).
Proof.
  induction l as [ | e' l IH ]; simpl; [ reflexivity | ].
  destruct (String.leb (fst e) (fst e')); simpl; [ reflexivity | ].
  now rewrite IH.
Qed.

Lemma sorted_items_map_values f (d : dict) :
  sorted_items (map_values f d) = map_values f (sorted_items d).
Proof.
  induction d as [ | e d IH ]; simpl; [ reflexivity | ].
  rewrite IH. apply insert_item_map_values.
Qed.

Lemma keys_map_values f (d : dict) : keys (map_values f d) = keys d.
Proof.
  unfold keys, map_values. rewrite List.map_map. now apply List.map_ext.
Qed.

Lemma dict_get_map_values f k (d : dict) :
  dict_get k (map_values f d) = option_map f (dict_get k d).
Proof.
  induction d as [ | [k' v'] d IH ]; simpl; [ reflexivity | ].
  now destruct (String.eqb k k').
Qed.

Lemma dict_get_perm k (d d' : dict) :
  List.NoDup (keys d) -> Permutation d d' -> dict_get k d' = dict_get k d.
Proof.
  intros Hnd Hp.
  assert (Hnd' : List.NoDup (keys d')).
  { eapply Permutation_NoDup; [ | exact Hnd ]. now apply Permutation_map. }
  destruct (dict_get k d) as [ v | ] eqn:E.
  - apply In_dict_get; [ exact Hnd' | ].
    eapply Permutation_in; [ exact Hp | ]. now apply dict_get_In.
  - apply dict_get_None. apply dict_get_None in E. intros Hin. apply E.
    eapply Permutation_in; [ | exact Hin ].
    apply Permutation_map. now symmetry.
Qed.

(** ** [normalize_json] as the source writes it *)

Lemma normalize_json_dict (m : dict) :
  normalize_json (JMap m) = JMap (map_values normalize_json (sorted_items m)).
Proof.
  simpl. f_equal. rewrite <- sorted_items_map_values. f_equal.
  unfold map_values. induction m as [ | [k v] m IH ]; simpl; [ reflexivity | ].
  now rewrite IH.
Qed.

Lemma normalize_json_list (l : list value) :
  normalize_json (JList l) = JList (List.map normalize_json l).
Proof. reflexivity. Qed.

Lemma normalize_json_scalar (v : value) :
  is_container v = false -> normalize_json v = v.
Proof. destruct v; simpl; intros; try reflexivity; discriminate. Qed.

(** ** Python equality, unfolded *)

Lemma py_eq_dict (m1 m2 : dict) :
  py_eq (JMap m1) (JMap m2) =
  Nat.eqb (List.length m1) (List.length m2) && forallb (item_matches m2) m1.
Proof.
  simpl. f_equal. unfold item_matches.
  induction m1 as [ | [k v] m1 IH ]; simpl; [ reflexivity | ].
  destruct (dict_get k m2); [ | reflexivity ]. now rewrite IH.
Qed.

Lemma py_eq_list_cons x y (l1 l2 : list value) :
  py_eq (JList (x :: l1)) (JList (y :: l2)) = py_eq x y && py_eq (JList l1) (JList l2).
Proof. reflexivity. Qed.

Lemma forallb_perm {A} (f : A -> bool) (l l' : list A) :
  Permutation l l' -> forallb f l = forallb f l'.
Proof.
  induction 1 as [ | x l l' _ IH | x y l | l l' l'' _ IH1 _ IH2 ]; simpl.
  - reflexivity.
  - now rewrite IH.
  - destruct (f x), (f y); reflexivity.
  - congruence.
Qed.

Lemma forallb_of_map {A B} (g : B -> bool) (h : A -> B) (l : list A) :
  forallb g (List.map h l) = forallb (fun x => g (h x)) l.
Proof. induction l as [ | x l IH ]; simpl; [ reflexivity | now rewrite IH ]. Qed.

Lemma forallb_ext_on {A} (f g : A -> bool) (l : list A) :
  (forall x, In x l -> f x = g x) -> forallb f l = forallb g l.
Proof.
  induction l as [ | x l IH ]; simpl; intros Hfg; [ reflexivity | ].
  rewrite (Hfg x) by now left. f_equal. apply IH. intros y Hy. apply Hfg. now right.
Qed.

(** ** Well-formed values *)

Lemma wf_list_iff (l : list value) : wf_value (JList l) <-> Forall wf_value l.
Proof.
  induction l as [ | x l IH ]; simpl.
  - split; [ constructor | trivial ].
  - simpl in IH. rewrite IH. split.
    + intros [Hx Hl]. now constructor.
    + intros Hf. inversion Hf; subst. now split.
Qed.

Lemma wf_map_iff (m : dict) :
  wf_value (JMap m) <->
  List.NoDup (keys m) /\ Forall (fun e => wf_value (snd e)) m.
Proof.
  unfold keys. simpl.
  assert (Hall : (fix all (m0 : dict) : Prop :=
                    match m0 with
                    | [] => True
                    | (_, x) :: m' => wf_value x /\ all m'
                    end) m <-> Forall (fun e => wf_value (snd e)) m).
  { induction m as [ | [k x] m IH ].
    - split; [ constructor | trivial ].
    - rewrite IH. split.
      + intros [Hx Hm]. now constructor.
      + intros Hf. inversion Hf; subst. now split. }
  now rewrite Hall.
Qed.

Lemma wf_map_get (m : dict) k v :
  wf_value (JMap m) -> dict_get k m = Some v -> wf_value v.
Proof.
  intros Hwf Hg. apply wf_map_iff in Hwf. destruct Hwf as [_ Hall].
  rewrite List.Forall_forall in Hall. apply (Hall (k, v)). now apply dict_get_In.
Qed.

(** ** Normalisation does not change the outcome of [==] *)

Lemma py_eq_normalize (a : value) :
  forall b, wf_value b -> py_eq (normalize_json a) (normalize_json b) = py_eq a b.
Proof.
  induction a as [ | x | x | x | l1 IH | m1 IH ] using value_ind_nested;
    intros b Hwf.
  1-4: destruct b as [ | y | y | y | l2 | m2 ]; reflexivity.
  - destruct b as [ | y | y | y | l2 | m2 ]; try reflexivity.
    rewrite !normalize_json_list. apply wf_list_iff in Hwf.
    revert l2 Hwf. induction IH as [ | x l1 Hx _ IHl ]; intros [ | y l2 ] Hwf;
      try reflexivity.
    inversion Hwf; subst. simpl List.map. rewrite !py_eq_list_cons.
    rewrite Hx by assumption. f_equal. now apply IHl.
  - destruct b as [ | y | y | y | l2 | m2 ]; try reflexivity.
    rewrite !normalize_json_dict, !py_eq_dict.
    pose proof Hwf as Hwf'. apply wf_map_iff in Hwf'. destruct Hwf' as [Hnd _].
    f_equal.
    + unfold map_values. now rewrite !length_map, !sorted_items_length.
    + rewrite (forallb_perm _ (map_values normalize_json (sorted_items m1))
                              (map_values normalize_json m1))
        by (apply Permutation_map, sorted_items_perm).
      unfold map_values at 2. rewrite forallb_of_map.
      apply forallb_ext_on. intros [k v] Hin.
      unfold item_matches. cbn [fst snd].
      rewrite dict_get_map_values.
      rewrite (dict_get_perm k m2 (sorted_items m2))
        by (assumption || (symmetry; apply sorted_items_perm)).
      destruct (dict_get k m2) as [ v' | ] eqn:Hg; simpl; [ | reflexivity ].
      rewrite List.Forall_forall in IH. apply (IH (k, v) Hin).
      eapply wf_map_get; eassumption.
Qed.

Lemma json_objects_equal_py_eq (a b : value) :
  wf_value b -> json_objects_equal a b = py_eq a b.
Proof. intros Hwf. unfold json_objects_equal. now apply py_eq_normalize. Qed.

(** ** Agreement up to the order of keys *)

Scheme agree_min := Minimality for agree Sort Prop
  with agree_all_min := Minimality for agree_all Sort Prop
  with agree_items_min := Minimality for agree_items Sort Prop.

(** Induction on a derivation of [agree], the lists and items carrying the
    induction hypothesis position by position. *)
Lemma agree_ind_nested (R : value -> value -> Prop) (P : value -> value -> Prop)
  (Hscalar : forall a b,
      is_container a = false -> is_container b = false -> R a b -> P a b)
  (Hlist : forall l1 l2, Forall2 P l1 l2 -> P (JList l1) (JList l2))
  (Hmap : forall m1 m2 m2',
      Forall2 (fun e1 e2 => fst e1 = fst e2 /\ P (snd e1) (snd e2)) m1 m2' ->
      Permutation m2' m2 -> P (JMap m1) (JMap m2)) :
  forall a b, agree R a b -> P a b.
Proof.
  apply (agree_min R P (Forall2 P)
           (Forall2 (fun e1 e2 => fst e1 = fst e2 /\ P (snd e1) (snd e2)))).
  - exact Hscalar.
  - intros l1 l2 _ Hf. now apply Hlist.
  - intros m1 m2 m2' _ Hf Hp. now apply (Hmap m1 m2 m2').
  - constructor.
  - intros x y l1 l2 _ Hxy _ Hl. now constructor.
  - constructor.
  - intros k x y m1 m2 _ Hxy _ Hm. constructor; [ now split | exact Hm ].
Qed.

Lemma agree_all_of_Forall2 R (l1 l2 : list value) :
  Forall2 (agree R) l1 l2 -> agree_all R l1 l2.
Proof. induction 1; constructor; assumption. Qed.

Lemma agree_items_of_Forall2 R (m1 m2 : dict) :
  Forall2 (fun e1 e2 => fst e1 = fst e2 /\ agree R (snd e1) (snd e2)) m1 m2 ->
  agree_items R m1 m2.
Proof.
  induction 1 as [ | [k1 x] [k2 y] m1 m2 [Hk Hxy] _ IH ]; [ constructor | ].
  simpl in Hk. subst k2. now constructor.
Qed.

(** A weaker relation on scalars gives a weaker agreement. *)
Lemma agree_weaken (R R' : value -> value -> Prop) :
  (forall a b, is_container a = false -> is_container b = false ->
               R a b -> R' a b) ->
  forall a b, agree R a b -> agree R' a b.
Proof.
  intros HR. apply agree_ind_nested.
  - intros a b Ha Hb Hab. apply agree_scalar; auto.
  - intros l1 l2 Hf. apply agree_list. now apply agree_all_of_Forall2.
  - intros m1 m2 m2' Hf Hp. eapply agree_map; [ | exact Hp ].
    now apply agree_items_of_Forall2.
Qed.

Lemma py_eq_scalar_refl (a : value) : is_container a = false -> py_eq a a = true.
Proof.
  destruct a; simpl; intros Hc; try discriminate.
  - reflexivity.
  - now destruct b.
  - apply Z.eqb_refl.
  - apply String.eqb_refl.
Qed.

Lemma dict_get_middle k1 k (v : value) (a b : dict) :
  k1 <> k -> dict_get k1 (a ++ (k, v) :: b)%list = dict_get k1 (a ++ b)%list.
Proof.
  intros Hne. induction a as [ | [k' v'] a IH ]; simpl.
  - destruct (String.eqb k1 k) eqn:E; [ | reflexivity ].
    apply String.eqb_eq in E. contradiction.
  - now rewrite IH.
Qed.

(** What agrees compares equal. *)
Lemma agree_py_eq (a b : value) :
  agree py_scalar_eq a b -> wf_value b -> py_eq a b = true.
Proof.
  revert a b. apply (agree_ind_nested py_scalar_eq
                       (fun a b => wf_value b -> py_eq a b = true)).
  - intros a b _ _ Hab _. exact Hab.
  - intros l1 l2 Hf Hwf. apply wf_list_iff in Hwf.
    induction Hf as [ | x y l1 l2 Hxy _ IH ]; [ reflexivity | ].
    inversion Hwf; subst. rewrite py_eq_list_cons.
    rewrite Hxy by assumption. now apply IH.
  - intros m1 m2 m2' Hf Hp Hwf. rewrite py_eq_dict.
    pose proof Hwf as Hwf'. apply wf_map_iff in Hwf'. destruct Hwf' as [Hnd Hall].
    apply andb_true_intro. split.
    + apply Nat.eqb_eq. rewrite <- (Permutation_length Hp).
      eapply Forall2_length; eassumption.
    + assert (Hin : forall e', In e' m2' -> In e' m2)
        by (intros e'; apply Permutation_in; exact Hp).
      clear Hp. induction Hf as [ | [k x] [k' y] m1 m2' [Hk Hxy] _ IH ];
        [ reflexivity | ].
      simpl in Hk. subst k'. simpl forallb.
      apply andb_true_intro. split.
      * unfold item_matches. cbn [fst snd].
        rewrite (In_dict_get k y m2 Hnd) by (apply Hin; now left).
        apply Hxy. rewrite List.Forall_forall in Hall.
        apply (Hall (k, y)). apply Hin. now left.
      * apply IH. intros e' He'. apply Hin. now right.
Qed.

(** What compares equal agrees. *)
Lemma py_eq_items_agree (m1 : dict) :
  Forall (fun e => forall b, wf_value (snd e) -> wf_value b ->
                             py_eq (snd e) b = true ->
                             agree py_scalar_eq (snd e) b) m1 ->
  List.NoDup (keys m1) -> Forall (fun e => wf_value (snd e)) m1 ->
  forall m2, wf_value (JMap m2) -> List.length m1 = List.length m2 ->
             forallb (item_matches m2) m1 = true ->
             exists m2', agree_items py_scalar_eq m1 m2' /\ Permutation m2' m2.
Proof.
  induction 1 as [ | [k v] m1 Hv _ IH ]; intros Hnd Hwf1 m2 Hwf2 Hlen Hall.
  - destruct m2; [ | discriminate ]. exists []. split; constructor.
  - simpl in Hall. apply andb_prop in Hall. destruct Hall as [Hm Hall].
    unfold item_matches in Hm. cbn [fst snd] in Hm.
    destruct (dict_get k m2) as [ v' | ] eqn:Hg; [ | discriminate ].
    destruct (in_split _ _ (dict_get_In _ _ _ Hg)) as (a & b & ->).
    inversion Hnd as [ | ? ? Hnotin Hnd' ]; subst.
    inversion Hwf1 as [ | ? ? Hwfv Hwf1' ]; subst.
    pose proof Hwf2 as Hwf2'. apply wf_map_iff in Hwf2'.
    destruct Hwf2' as [Hnd2 Hall2].
    assert (Hwfr : wf_value (JMap (a ++ b)%list)).
    { apply wf_map_iff. split.
      - unfold keys in *. rewrite List.map_app in *. simpl in Hnd2.
        now apply NoDup_remove_1 in Hnd2.
      - apply Forall_app in Hall2. destruct Hall2 as [Ha Hb].
        inversion Hb; subst. apply Forall_app. now split. }
    destruct (IH Hnd' Hwf1' (a ++ b)%list Hwfr) as (m2' & Hitems & Hperm).
    + rewrite length_app in *. simpl in Hlen. lia.
    + rewrite <- Hall. apply forallb_ext_on. intros [k1 v1] Hin1.
      unfold item_matches. cbn [fst snd].
      rewrite dict_get_middle; [ reflexivity | ].
      intros ->. apply Hnotin. change k with (fst (k, v1)). now apply in_map.
    + exists ((k, v') :: m2'). split.
      * constructor; [ | exact Hitems ].
        apply Hv; [ exact Hwfv | | exact Hm ].
        exact (wf_map_get _ _ _ Hwf2 Hg).
      * now apply Permutation_cons_app.
Qed.

Lemma py_eq_agree (a : value) :
  forall b, wf_value a -> wf_value b -> py_eq a b = true ->
            agree py_scalar_eq a b.
Proof.
  induction a as [ | x | x | x | l1 IH | m1 IH ] using value_ind_nested;
    intros b Hwfa Hwfb Heq.
  1-4: destruct b; try discriminate; now apply agree_scalar.
  - destruct b as [ | | | | l2 | ]; try discriminate.
    apply agree_list. apply wf_list_iff in Hwfa, Hwfb.
    revert l2 Hwfb Heq. induction IH as [ | x l1 Hx _ IHl ];
      intros [ | y l2 ] Hwfb Heq; try discriminate; [ constructor | ].
    rewrite py_eq_list_cons in Heq. apply andb_prop in Heq.
    destruct Heq as [Hxy Hrest].
    inversion Hwfa; subst. inversion Hwfb; subst.
    constructor; [ now apply Hx | now apply IHl ].
  - destruct b as [ | | | | | m2 ]; try discriminate.
    rewrite py_eq_dict in Heq. apply andb_prop in Heq. destruct Heq as [Hlen Hall].
    apply Nat.eqb_eq in Hlen. apply wf_map_iff in Hwfa. destruct Hwfa as [Hnd Hwf1].
    destruct (py_eq_items_agree m1 IH Hnd Hwf1 m2 Hwfb Hlen Hall)
      as (m2' & Hitems & Hperm).
    now apply (agree_map _ m1 m2 m2').
Qed.

(** ** The differ on a dictionary set against a list *)

Lemma generate_diff_report_mismatch (m : dict) (l : list value) path :
  generate_diff_report (JMap m) (JList l) path = [] /\
  generate_diff_report (JList l) (JMap m) path = [].
Proof. split; reflexivity. Qed.

(** C1 (the code departs from the specification).  Under a key common to
    both dictionaries, a dictionary on one side and a list on the other are
    never semantically equal, both pass the test
    [isinstance(_, (dict, list))], and the recursive call falls through both
    branches of [generate_diff_report]: the report for that key is empty,
    where the specification asks for a [Modified] entry at the path of the
    key. *)
Theorem C1_mapping_against_sequence_reports_nothing
  (key : string) (m : dict) (l : list value) (path : string) :
  json_objects_equal (JMap m) (JList l) = false /\
  json_objects_equal (JList l) (JMap m) = false /\
  generate_diff_report (JMap [(key, JMap m)]) (JMap [(key, JList l)]) path = [] /\
  generate_diff_report (JMap [(key, JList l)]) (JMap [(key, JMap m)]) path = [].
Proof.
  repeat split; try reflexivity.
  - cbn -[json_objects_equal normalize_json]. unfold dict_has. simpl dict_get.
    rewrite String.eqb_refl. reflexivity.
  - cbn -[json_objects_equal normalize_json]. unfold dict_has. simpl dict_get.
    rewrite String.eqb_refl. reflexivity.
Qed.

(** The same at a concrete pair of documents; a scalar against the list is
    reported, the dictionary against the list is not. *)
Example generate_diff_report_mismatch_example :
  generate_diff_report
    (JMap [("k", JMap [("a", JNum 1)]); ("s", JNum 1)])
    (JMap [("k", JList [JNum 1]); ("s", JList [JNum 1])]) ""
  = ["  Modified: s"; "    - Old: 1"; "    + New: [1]"].
Proof. vm_compute. reflexivity. Qed.

(** ** Semantic equality *)

Lemma agree_items_map_values R f (m : dict) :
  Forall (fun e => agree R (snd e) (f (snd e))) m ->
  agree_items R m (map_values f m).
Proof.
  induction 1 as [ | [k v] m Hv _ IH ]; simpl; constructor; assumption.
Qed.

Lemma normalize_json_reorders (a : value) : reorder_eq a (normalize_json a).
Proof.
  unfold reorder_eq.
  induction a as [ | x | x | x | l IH | m IH ] using value_ind_nested.
  1-4: now apply agree_scalar.
  - rewrite normalize_json_list. apply agree_list.
    induction IH; simpl; constructor; assumption.
  - rewrite normalize_json_dict.
    apply (agree_map _ m _ (map_values normalize_json m)).
    + now apply agree_items_map_values.
    + apply Permutation_map. symmetry. apply sorted_items_perm.
Qed.

Lemma normalize_json_sorted (a : value) : sorted_deep (normalize_json a).
Proof.
  induction a as [ | x | x | x | l IH | m IH ] using value_ind_nested.
  1-4: now apply sorted_scalar.
  - rewrite normalize_json_list. apply sorted_list.
    induction IH; simpl; constructor; assumption.
  - rewrite normalize_json_dict. apply sorted_map.
    + unfold keys_sorted. rewrite keys_map_values. apply sorted_items_sorted.
    + apply List.Forall_forall. intros e He.
      unfold map_values in He. apply in_map_iff in He.
      destruct He as (e0 & <- & He0). cbn [snd].
      rewrite List.Forall_forall in IH. apply IH.
      eapply Permutation_in; [ apply sorted_items_perm | exact He0 ].
Qed.

(** *** Normal forms *)

Lemma string_leb_trans (s1 s2 s3 : string) :
  String.leb s1 s2 = true -> String.leb s2 s3 = true -> String.leb s1 s3 = true.
Proof.
  unfold String.leb. revert s2 s3.
  induction s1 as [ | c1 s1 IH ]; intros [ | c2 s2 ] [ | c3 s3 ]; simpl;
    try reflexivity; try discriminate.
  unfold Ascii.compare.
  destruct (N.compare_spec (N_of_ascii c1) (N_of_ascii c2)) as [ E12 | L12 | G12 ],
           (N.compare_spec (N_of_ascii c2) (N_of_ascii c3)) as [ E23 | L23 | G23 ],
           (N.compare_spec (N_of_ascii c1) (N_of_ascii c3)) as [ E13 | L13 | G13 ];
    try reflexivity; try discriminate; try lia.
  apply IH.
Qed.

Lemma keys_sorted_head_le (e : string * value) (l : dict) :
  keys_sorted (e :: l) ->
  forall e', In e' l -> String.leb (fst e) (fst e') = true.
Proof.
  unfold keys_sorted, keys. simpl. intros Hs.
  apply Sorted_StronglySorted in Hs.
  - apply StronglySorted_inv in Hs. destruct Hs as [_ Hall].
    rewrite List.Forall_forall in Hall. intros e' He'. apply Hall.
    now apply in_map.
  - intros x y z. apply string_leb_trans.
Qed.

Lemma keys_sorted_tail (e : string * value) (l : dict) :
  keys_sorted (e :: l) -> keys_sorted l.
Proof. unfold keys_sorted, keys. simpl. intros Hs. now inversion Hs. Qed.

(** Sorted dictionaries with the same items are the same list. *)
Lemma keys_sorted_unique (l1 : dict) :
  forall l2, keys_sorted l1 -> keys_sorted l2 -> List.NoDup (keys l1) ->
             Permutation l1 l2 -> l1 = l2.
Proof.
  induction l1 as [ | x l1 IH ]; intros l2 Hs1 Hs2 Hnd Hp.
  - apply Permutation_nil in Hp. now subst.
  - destruct l2 as [ | y l2 ].
    { apply Permutation_sym, Permutation_nil in Hp. discriminate. }
    assert (Hxy : x = y).
    { assert (Hx : In x (y :: l2)) by (eapply Permutation_in; [ exact Hp | now left ]).
      assert (Hy : In y (x :: l1))
        by (eapply Permutation_in; [ symmetry; exact Hp | now left ]).
      destruct Hx as [ -> | Hx ]; [ reflexivity | ].
      destruct Hy as [ -> | Hy ]; [ reflexivity | ].
      exfalso.
      pose proof (keys_sorted_head_le _ _ Hs2 _ Hx) as Hyx.
      pose proof (keys_sorted_head_le _ _ Hs1 _ Hy) as Hxy.
      pose proof (String.leb_antisym _ _ Hxy Hyx) as Hk.
      inversion Hnd as [ | ? ? Hnotin _ ]; subst. apply Hnotin.
      rewrite Hk. now apply in_map. }
    subst y. f_equal. apply IH.
    + now apply keys_sorted_tail in Hs1.
    + now apply keys_sorted_tail in Hs2.
    + now inversion Hnd.
    + now apply Permutation_cons_inv in Hp.
Qed.

Lemma sorted_items_of_perm (m1 m2 : dict) :
  List.NoDup (keys m1) -> Permutation m1 m2 -> sorted_items m1 = sorted_items m2.
Proof.
  intros Hnd Hp. apply keys_sorted_unique.
  - apply sorted_items_sorted.
  - apply sorted_items_sorted.
  - eapply Permutation_NoDup; [ | exact Hnd ].
    apply Permutation_map. symmetry. apply sorted_items_perm.
  - rewrite sorted_items_perm, Hp. symmetry. apply sorted_items_perm.
Qed.

(** Values that agree up to the order of keys have the same normal form. *)
Lemma reorder_eq_normalize (a b : value) :
  reorder_eq a b -> wf_value a -> wf_value b ->
  normalize_json a = normalize_json b.
Proof.
  revert a b. apply (agree_ind_nested eq
    (fun a b => wf_value a -> wf_value b -> normalize_json a = normalize_json b)).
  - intros a b _ _ -> _ _. reflexivity.
  - intros l1 l2 Hf Hwf1 Hwf2. rewrite !normalize_json_list. f_equal.
    apply wf_list_iff in Hwf1, Hwf2.
    induction Hf as [ | x y l1 l2 Hxy _ IH ]; [ reflexivity | ].
    inversion Hwf1; subst. inversion Hwf2; subst. simpl.
    rewrite Hxy by assumption. f_equal. now apply IH.
  - intros m1 m2 m2' Hf Hp Hwf1 Hwf2.
    rewrite !normalize_json_dict, <- !sorted_items_map_values. f_equal.
    apply wf_map_iff in Hwf1, Hwf2.
    destruct Hwf1 as [Hnd1 Hall1]. destruct Hwf2 as [Hnd2 Hall2].
    assert (Hall2' : Forall (fun e => wf_value (snd e)) m2').
    { rewrite List.Forall_forall in *. intros e He. apply Hall2.
      eapply Permutation_in; eassumption. }
    assert (Hnd2' : List.NoDup (keys m2')).
    { eapply Permutation_NoDup; [ | exact Hnd2 ].
      apply Permutation_map. now symmetry. }
    assert (Heq : map_values normalize_json m1 = map_values normalize_json m2').
    { clear Hp Hnd1 Hnd2 Hnd2' Hall2.
      induction Hf as [ | [k x] [k' y] m1 m2' [Hk Hxy] _ IH ]; [ reflexivity | ].
      simpl in Hk. subst k'. inversion Hall1; subst. inversion Hall2'; subst.
      cbn [fst snd] in *. simpl. rewrite Hxy by assumption. f_equal.
      now apply IH. }
    rewrite Heq. apply sorted_items_of_perm.
    + now rewrite keys_map_values.
    + now apply Permutation_map.
Qed.

(** Values with the same normal form agree up to the order of keys. *)
Lemma normalize_eq_reorder (a : value) :
  forall b, normalize_json a = normalize_json b -> reorder_eq a b.
Proof.
  unfold reorder_eq.
  induction a as [ | x | x | x | l1 IH | m1 IH ] using value_ind_nested;
    intros b Heq.
  1-4: destruct b; try discriminate; now apply agree_scalar.
  - destruct b as [ | | | | l2 | ]; try discriminate.
    rewrite !normalize_json_list in Heq. injection Heq as Heq.
    apply agree_list. revert l2 Heq.
    induction IH as [ | x l1 Hx _ IHl ]; intros [ | y l2 ] Heq;
      try discriminate; [ constructor | ].
    simpl in Heq. injection Heq as Hxy Hrest.
    constructor; [ now apply Hx | now apply IHl ].
  - destruct b as [ | | | | | m2 ]; try discriminate.
    rewrite !normalize_json_dict in Heq. injection Heq as Heq.
    assert (Hp : Permutation (map_values normalize_json m1)
                             (map_values normalize_json m2)).
    { transitivity (map_values normalize_json (sorted_items m1)).
      - apply Permutation_map. symmetry. apply sorted_items_perm.
      - rewrite Heq. apply Permutation_map, sorted_items_perm. }
    unfold map_values in Hp. apply Permutation_map_inv in Hp.
    destruct Hp as (m2' & Hmap & Hp).
    apply (agree_map _ m1 m2 m2'); [ | now symmetry ].
    clear Hp Heq. revert m2' Hmap.
    induction IH as [ | [k x] m1 Hx _ IHm ]; intros [ | [k' y] m2' ] Hmap;
      try discriminate; [ constructor | ].
    simpl in Hmap. injection Hmap as -> Hxy Hrest.
    constructor; [ now apply Hx | now apply IHm ].
Qed.

(** C9 fails as it is stated: [True == 1] in Python, so a Boolean and the
    number 1 are semantically equal for the code although they differ by
    more than the order of keys, and although their normal forms differ. *)
Lemma C9_bool_equals_number :
  json_objects_equal (JMap [("a", JBool true)]) (JMap [("a", JNum 1)]) = true /\
  ~ reorder_eq (JMap [("a", JBool true)]) (JMap [("a", JNum 1)]) /\
  normalize_json (JMap [("a", JBool true)]) <> normalize_json (JMap [("a", JNum 1)]) /\
  json_objects_equal (JBool true) (JNum 1) = true /\
  ~ reorder_eq (JBool true) (JNum 1).
Proof.
  assert (Hscalar : ~ reorder_eq (JBool true) (JNum 1)).
  { intros Hr. inversion Hr; subst. discriminate. }
  repeat split; try reflexivity; [ | discriminate | exact Hscalar ].
  intros Hr. inversion Hr as [ | | m1 m2 m2' Hitems Hperm ]; subst;
    [ discriminate | ].
  inversion Hitems as [ | k x y m1' m2'' Hxy Hrest ]; subst.
  inversion Hrest; subst.
  apply Permutation_length_1_inv in Hperm. injection Hperm as <-.
  now apply Hscalar.
Qed.

(** C9 (amended).  For dictionaries with distinct keys, two values are
    semantically equal exactly when they agree up to the order of dictionary
    keys at every depth and up to Python's equality of scalars, which
    identifies [true] with 1 and [false] with 0; values that differ by the
    order of keys only are semantically equal.  Their normal forms are the
    same exactly when they agree up to the order of keys: it is the
    comparison of the normal forms with [==] that identifies more.
    Normalisation only reorders keys, so lists keep their order and scalars
    are unchanged, and it leaves every dictionary with its keys sorted. *)
Theorem C9_semantic_equality (a b : value) :
  wf_value a -> wf_value b ->
  (json_objects_equal a b = true <-> agree py_scalar_eq a b) /\
  (reorder_eq a b -> json_objects_equal a b = true) /\
  (normalize_json a = normalize_json b <-> reorder_eq a b) /\
  reorder_eq a (normalize_json a) /\
  sorted_deep (normalize_json a).
Proof.
  intros Hwfa Hwfb.
  assert (Hiff : json_objects_equal a b = true <-> agree py_scalar_eq a b).
  { rewrite json_objects_equal_py_eq by assumption. split.
    - now apply py_eq_agree.
    - intros Hag. now apply agree_py_eq. }
  split; [ exact Hiff | ]. split; [ | split; [ | split ] ].
  - intros Hr. apply Hiff. revert Hr. apply agree_weaken.
    intros x y Hx _ <-. now apply py_eq_scalar_refl.
  - split.
    + apply normalize_eq_reorder.
    + intros Hr. now apply reorder_eq_normalize.
  - apply normalize_json_reorders.
  - apply normalize_json_sorted.
Qed.

Lemma C9_semantic_equality_witness :
  json_objects_equal (JMap [("a", JNum 1); ("b", JNum 2)])
                     (JMap [("b", JNum 2); ("a", JNum 1)]) = true <->
  agree py_scalar_eq (JMap [("a", JNum 1); ("b", JNum 2)])
                     (JMap [("b", JNum 2); ("a", JNum 1)]).
Proof.
  apply (C9_semantic_equality (JMap [("a", JNum 1); ("b", JNum 2)])
                              (JMap [("b", JNum 2); ("a", JNum 1)])); solve_wf.
Defined.

(** The two examples of the normaliser's contract. *)
Example json_objects_equal_key_order :
  json_objects_equal (JMap [("a", JNum 1); ("b", JNum 2)])
                     (JMap [("b", JNum 2); ("a", JNum 1)]) = true /\
  json_objects_equal (JList [JNum 1; JNum 2]) (JList [JNum 2; JNum 1]) = false.
Proof. split; reflexivity. Qed.

(** ** Strings *)

Lemma append_nil_r (s : string) : s ++ "" = s.
Proof. induction s as [ | c s IH ]; simpl; [ reflexivity | now rewrite IH ]. Qed.

Lemma append_assoc (s t u : string) : (s ++ t) ++ u = s ++ (t ++ u).
Proof. induction s as [ | c s IH ]; simpl; [ reflexivity | now rewrite IH ]. Qed.

Lemma length_append (s t : string) :
  String.length (s ++ t) = (String.length s + String.length t)%nat.
Proof. induction s as [ | c s IH ]; simpl; [ reflexivity | now rewrite IH ]. Qed.

Lemma substring_0_0 (s : string) : substring 0 0 s = "".
Proof. now destruct s. Qed.

Lemma substring_prefix (pre suf : string) :
  substring 0 (String.length pre) (pre ++ suf) = pre.
Proof.
  induction pre as [ | c pre IH ]; simpl; [ apply substring_0_0 | now rewrite IH ].
Qed.

Lemma get_append (pre : string) c (rest : string) :
  String.get (String.length pre) (pre ++ String c rest) = Some c.
Proof. induction pre as [ | c' pre IH ]; simpl; [ reflexivity | exact IH ]. Qed.

Lemma get_append_next (pre : string) c (rest : string) :
  String.get (S (String.length pre)) (pre ++ String c rest) = String.get 0 rest.
Proof. induction pre as [ | c' pre IH ]; simpl; [ reflexivity | exact IH ]. Qed.

Lemma substring_is_prefix n (s : string) : is_prefix (substring 0 n s) s.
Proof.
  revert n. induction s as [ | c s IH ]; intros [ | n ]; simpl.
  - now exists "".
  - now exists "".
  - now exists (String c s).
  - destruct (IH n) as [u Hu]. exists u. simpl. now rewrite <- Hu.
Qed.

Lemma rstrip_is_prefix (s : string) : is_prefix (rstrip s) s.
Proof.
  induction s as [ | c s [u Hu] ]; simpl.
  - now exists "".
  - destruct (rstrip s) as [ | c' r ] eqn:E.
    + destruct (is_space c).
      * now exists (String c s).
      * exists s. reflexivity.
    + exists u. simpl. f_equal. exact Hu.
Qed.

Lemma is_prefix_refl (s : string) : is_prefix s s.
Proof. exists "". symmetry. apply append_nil_r. Qed.

Lemma is_prefix_trans (s t u : string) : is_prefix s t -> is_prefix t u -> is_prefix s u.
Proof.
  intros [x ->] [y ->]. exists (x ++ y). apply append_assoc.
Qed.

Lemma count_newlines_append (s t : string) :
  count_newlines (s ++ t) = (count_newlines s + count_newlines t)%nat.
Proof.
  induction s as [ | c s IH ]; simpl; [ reflexivity | ].
  destruct (Ascii.eqb c NEWLINE); simpl; now rewrite IH.
Qed.

Lemma is_prefix_no_newline (s t : string) :
  is_prefix s t -> count_newlines t = O -> count_newlines s = O.
Proof. intros [u ->]. rewrite count_newlines_append. lia. Qed.

(** ** Lines *)

Lemma split_on_nonempty sep (text : string) : split_on sep text <> [].
Proof.
  induction text as [ | c rest IH ]; simpl; [ discriminate | ].
  destruct (Ascii.eqb c sep); [ discriminate | ].
  destruct (split_on sep rest); [ contradiction | discriminate ].
Qed.

Lemma split_lines_no_newline (text : string) :
  Forall (fun line => count_newlines line = O) (split_lines text).
Proof.
  unfold split_lines. induction text as [ | c rest IH ]; simpl.
  - repeat constructor.
  - destruct (Ascii.eqb c NEWLINE) eqn:E.
    + constructor; [ reflexivity | exact IH ].
    + destruct (split_on NEWLINE rest) as [ | line lines ].
      * constructor; [ simpl; now rewrite E | constructor ].
      * inversion IH; subst. constructor; [ simpl; now rewrite E | assumption ].
Qed.

Lemma split_lines_append (a b : string) :
  split_lines (a ++ String NEWLINE b) = (split_lines a ++ split_lines b)%list.
Proof.
  unfold split_lines. induction a as [ | c a IH ]; simpl.
  - reflexivity.
  - destruct (Ascii.eqb c NEWLINE); simpl.
    + now rewrite IH.
    + rewrite IH. pose proof (split_on_nonempty NEWLINE a) as Hne.
      destruct (split_on NEWLINE a); [ contradiction | reflexivity ].
Qed.

Lemma split_lines_line (line : string) :
  count_newlines line = O -> split_lines line = [line].
Proof.
  unfold split_lines. induction line as [ | c line IH ]; simpl; [ reflexivity | ].
  destruct (Ascii.eqb c NEWLINE); [ discriminate | ].
  intros Hc. now rewrite IH.
Qed.

Lemma join_lines_cons (line : string) (lines : list string) :
  lines <> [] ->
  join_lines (line :: lines) = line ++ String NEWLINE (join_lines lines).
Proof. destruct lines; [ contradiction | reflexivity ]. Qed.

Lemma join_lines_app (l1 l2 : list string) :
  l1 <> [] -> l2 <> [] ->
  join_lines (l1 ++ l2) = join_lines l1 ++ String NEWLINE (join_lines l2).
Proof.
  intros H1 H2. induction l1 as [ | x l1 IH ]; [ contradiction | ].
  destruct l1 as [ | y l1 ].
  - simpl List.app. now rewrite join_lines_cons.
  - change ((x :: y :: l1) ++ l2)%list with (x :: ((y :: l1) ++ l2))%list.
    rewrite join_lines_cons by discriminate.
    rewrite IH by discriminate.
    rewrite (join_lines_cons x (y :: l1)) by discriminate.
    rewrite append_assoc. reflexivity.
Qed.

Lemma split_lines_join (lines : list string) :
  lines <> [] -> Forall (fun line => count_newlines line = O) lines ->
  split_lines (join_lines lines) = lines.
Proof.
  intros Hne Hall. induction Hall as [ | x lines Hx Hall IH ]; [ contradiction | ].
  destruct lines as [ | y lines ].
  - simpl. now apply split_lines_line.
  - rewrite join_lines_cons by discriminate.
    rewrite split_lines_append, IH by discriminate.
    now rewrite split_lines_line.
Qed.

(** ** The scan of a line against positions on the line *)

Lemma backslash_run_snoc (pre : string) c :
  backslash_run (pre ++ String c "") =
  if Ascii.eqb c BACKSLASH then S (backslash_run pre) else O.
Proof.
  induction pre as [ | c0 pre IH ]; simpl.
  - destruct (Ascii.eqb c BACKSLASH); reflexivity.
  - rewrite IH, length_append. simpl String.length.
    destruct (Ascii.eqb c BACKSLASH); simpl.
    + replace (String.length pre + 1)%nat with (S (String.length pre)) by lia.
      simpl Nat.eqb.
      destruct (Ascii.eqb c0 BACKSLASH && Nat.eqb (backslash_run pre) (String.length pre));
        reflexivity.
    + replace (String.length pre + 1)%nat with (S (String.length pre)) by lia.
      simpl. now rewrite andb_false_r.
Qed.

Lemma append_snoc (pre : string) c (rest : string) :
  (pre ++ String c "") ++ rest = pre ++ String c rest.
Proof. now rewrite append_assoc. Qed.

Lemma length_snoc (pre : string) c :
  String.length (pre ++ String c "") = S (String.length pre).
Proof. rewrite length_append. simpl. lia. Qed.

Section Positions.
Variables (pre : string) (c : ascii) (rest : string).
Let line := pre ++ String c rest.
Let i := String.length pre.

Lemma escaped_at_here : escaped_at line i = Nat.odd (backslash_run pre).
Proof. unfold escaped_at, line, i. now rewrite substring_prefix. Qed.

Lemma escaped_at_next :
  escaped_at line (S i) =
  if escaped_at line i then false else Ascii.eqb c BACKSLASH.
Proof.
  rewrite escaped_at_here. unfold escaped_at, line, i.
  rewrite <- (append_snoc pre c rest), <- (length_snoc pre c), substring_prefix,
    backslash_run_snoc.
  destruct (Ascii.eqb c BACKSLASH);
    [ | now destruct (Nat.odd (backslash_run pre)) ].
  rewrite Nat.odd_succ, <- Nat.negb_odd.
  now destruct (Nat.odd (backslash_run pre)).
Qed.

Lemma char_at_here x : char_at line i x = Ascii.eqb c x.
Proof. unfold char_at, line, i. now rewrite get_append. Qed.

Lemma char_at_next x :
  char_at line (S i) x =
  match rest with String next _ => Ascii.eqb next x | EmptyString => false end.
Proof. unfold char_at, line, i. rewrite get_append_next. now destruct rest. Qed.

Lemma in_string_at_next :
  in_string_at line (S i) = xorb (in_string_at line i) (quote_at line i).
Proof.
  unfold in_string_at. rewrite seq_S, List.filter_app, length_app. simpl.
  destruct (quote_at line i); simpl List.length.
  - rewrite Nat.add_1_r, Nat.odd_succ, <- Nat.negb_odd.
    now destruct (Nat.odd (List.length (List.filter (quote_at line) (seq 0 i)))).
  - rewrite Nat.add_0_r.
    now destruct (Nat.odd (List.length (List.filter (quote_at line) (seq 0 i)))).
Qed.

End Positions.

(** The loop keeps, at index [i], the flags that the positions before [i]
    determine, and stops at the first position where a comment starts. *)
Lemma scan_line_positions (suf pre : string) :
  scan_line (in_string_at (pre ++ suf) (String.length pre))
            (escaped_at (pre ++ suf) (String.length pre))
            (String.length pre) suf =
  List.find (comment_at (pre ++ suf)) (seq (String.length pre) (String.length suf)).
Proof.
  revert pre. induction suf as [ | c rest IH ]; intros pre; [ reflexivity | ].
  specialize (IH (pre ++ String c "")).
  rewrite append_snoc, length_snoc in IH.
  cbn [String.length seq List.find scan_line].
  rewrite <- IH. unfold comment_at.
  rewrite (in_string_at_next pre c rest), (escaped_at_next pre c rest),
    (char_at_next pre c rest).
  unfold quote_at. rewrite !(char_at_here pre c rest).
  destruct (escaped_at (pre ++ String c rest) (String.length pre)); simpl.
  { now rewrite andb_false_r, xorb_false_r. }
  destruct (Ascii.eqb c BACKSLASH) eqn:Eb.
  { apply Ascii.eqb_eq in Eb. subst c. simpl. now rewrite andb_false_r, xorb_false_r. }
  destruct (Ascii.eqb c DQUOTE) eqn:Eq.
  { apply Ascii.eqb_eq in Eq. subst c. simpl. rewrite andb_false_r. simpl.
    now rewrite xorb_true_r. }
  simpl. rewrite xorb_false_r.
  destruct (negb (in_string_at (pre ++ String c rest) (String.length pre)) &&
            Ascii.eqb c SLASH &&
            match rest with
            | String next _ => Ascii.eqb next SLASH
            | EmptyString => false
            end); reflexivity.
Qed.

Lemma scan_line_first_comment (line : string) :
  scan_line false false 0 line = first_comment line.
Proof.
  pose proof (scan_line_positions line "") as Hs.
  cbn [String.append String.length] in Hs.
  unfold escaped_at in Hs. rewrite substring_0_0 in Hs. exact Hs.
Qed.

Lemma strip_line_without_comment (line : string) :
  strip_line line = without_comment line.
Proof. unfold strip_line, without_comment. now rewrite scan_line_first_comment. Qed.

Lemma strip_line_is_prefix (line : string) : is_prefix (strip_line line) line.
Proof.
  unfold strip_line. destruct (scan_line false false 0 line).
  - eapply is_prefix_trans; [ apply rstrip_is_prefix | apply substring_is_prefix ].
  - apply is_prefix_refl.
Qed.

(** ** The comment stripper *)

Lemma strip_comments_lines (text : string) :
  split_lines (strip_comments text) = List.map strip_line (split_lines text).
Proof.
  unfold strip_comments. apply split_lines_join.
  - pose proof (split_on_nonempty NEWLINE text) as Hne. unfold split_lines.
    destruct (split_on NEWLINE text); [ contradiction | discriminate ].
  - apply List.Forall_map.
    eapply List.Forall_impl; [ | apply split_lines_no_newline ].
    intros line Hline. simpl. eapply is_prefix_no_newline; [ | exact Hline ].
    apply strip_line_is_prefix.
Qed.

Lemma strip_comments_append (a b : string) :
  strip_comments (a ++ String NEWLINE b) =
  strip_comments a ++ String NEWLINE (strip_comments b).
Proof.
  unfold strip_comments. rewrite split_lines_append, List.map_app.
  apply join_lines_app.
  - pose proof (split_on_nonempty NEWLINE a) as Hne. unfold split_lines.
    destruct (split_on NEWLINE a); [ contradiction | discriminate ].
  - pose proof (split_on_nonempty NEWLINE b) as Hne. unfold split_lines.
    destruct (split_on NEWLINE b); [ contradiction | discriminate ].
Qed.

(** C8 fails as it is stated.  The loop sets its escape flag at every
    backslash, inside a string literal or not, and skips the character that
    follows: in [x \// y] the two slashes stand outside any string literal,
    yet the first of them is skipped, no comment is found and the line is
    returned whole. *)
Lemma C8_escaped_slash_is_kept :
  in_string_at ("x " ++ String BACKSLASH "// y") 3 = false /\
  char_at ("x " ++ String BACKSLASH "// y") 3 SLASH = true /\
  char_at ("x " ++ String BACKSLASH "// y") 4 SLASH = true /\
  in_string_at ("x " ++ String BACKSLASH "// y") 4 = false /\
  strip_comments ("x " ++ String BACKSLASH "// y")
  = "x " ++ String BACKSLASH "// y".
Proof. vm_compute. repeat split; reflexivity. Qed.

(** C8.  The output has the lines of the input, one for one; each is the
    input line cut at the first [//] that stands outside a string literal
    with its first slash unescaped (white space before the comment goes with
    it), or the whole line when there is no such position, so that a [//]
    inside a string literal stays.  What counts as inside a string literal
    or escaped is decided by the characters before it on the same line only:
    a text is stripped line by line, whatever the lines before ended in.
    Every output line begins its input line, and the number of lines is
    unchanged. *)
Theorem C8_strip_comments (text : string) :
  split_lines (strip_comments text) =
    List.map without_comment (split_lines text) /\
  List.length (split_lines (strip_comments text)) =
    List.length (split_lines text) /\
  Forall2 is_prefix (split_lines (strip_comments text)) (split_lines text) /\
  (forall a b : string,
      strip_comments (a ++ String NEWLINE b) =
      strip_comments a ++ String NEWLINE (strip_comments b)) /\
  (forall line i,
      first_comment line = Some i ->
      escaped_at line i = false /\ in_string_at line i = false /\
      char_at line i SLASH = true /\ char_at line (S i) SLASH = true).
Proof.
  rewrite strip_comments_lines. repeat split.
  - apply List.map_ext. apply strip_line_without_comment.
  - apply length_map.
  - induction (split_lines text) as [ | line lines IH ]; simpl; constructor;
      [ apply strip_line_is_prefix | exact IH ].
  - apply strip_comments_append.
  - unfold first_comment in H. apply find_some in H. destruct H as [_ H].
    unfold comment_at in H. apply andb_prop in H. destruct H as [H _].
    apply andb_prop in H. destruct H as [H _]. apply andb_prop in H.
    destruct H as [H _]. now destruct (escaped_at line i).
  - unfold first_comment in H. apply find_some in H. destruct H as [_ H].
    unfold comment_at in H. apply andb_prop in H. destruct H as [H _].
    apply andb_prop in H. destruct H as [H _]. apply andb_prop in H.
    destruct H as [_ H]. now destruct (in_string_at line i).
  - unfold first_comment in H. apply find_some in H. destruct H as [_ H].
    unfold comment_at in H. apply andb_prop in H. destruct H as [H _].
    apply andb_prop in H. now destruct H.
  - unfold first_comment in H. apply find_some in H. destruct H as [_ H].
    unfold comment_at in H. apply andb_prop in H. now destruct H.
Qed.

(** The example of the contract: the URL keeps its slashes, the trailing
    comment goes. *)
Example strip_comments_url :
  strip_comments ("{" ++ quoted "a" ++ ": " ++ quoted "http://x" ++ "}  // note")
  = "{" ++ quoted "a" ++ ": " ++ quoted "http://x" ++ "}".
Proof. vm_compute. reflexivity. Qed.

(** The escape flag is kept outside string literals as well: a slash after
    a backslash does not start a comment; the next unescaped pair does, and
    the blank before it goes too. *)
Example strip_comments_escaped_slash :
  strip_comments ("a " ++ String BACKSLASH "// b // c")
  = "a " ++ String BACKSLASH "// b".
Proof. vm_compute. reflexivity. Qed.

(** An escaped quote does not close the literal; the state does not pass
    to the next line. *)
Example strip_comments_escaped_quote :
  strip_comments
    (String DQUOTE ("a" ++ String BACKSLASH (String DQUOTE ("//b" ++ String DQUOTE
       (" // c" ++ String NEWLINE (String DQUOTE ("open // kept" ++ String NEWLINE
       "x // gone")))))))
  = String DQUOTE ("a" ++ String BACKSLASH (String DQUOTE ("//b" ++ String DQUOTE
       (String NEWLINE (String DQUOTE ("open // kept" ++ String NEWLINE "x")))))).
Proof. vm_compute. reflexivity. Qed.

(** ** The resolver's monad *)

Lemma bind_ok {A B} (c : M A) (k : A -> M B) st b st' :
  bind c k st = (Ok b, st') ->
  exists a st1, c st = (Ok a, st1) /\ k a st1 = (Ok b, st').
Proof.
  unfold bind. destruct (c st) as [[ a | e | ] st1]; try discriminate.
  intros Hk. now exists a, st1.
Qed.

Lemma bind_of_ok {A B} (c : M A) (k : A -> M B) st a st1 :
  c st = (Ok a, st1) -> bind c k st = k a st1.
Proof. unfold bind. now intros ->. Qed.

Lemma ret_ok {A} (a b : A) st st' : ret a st = (Ok b, st') -> a = b /\ st = st'.
Proof. unfold ret. now intros [= -> ->]. Qed.

Section ResolverFacts.
Context `{Files}.
Variable base_dir : Path.

Abbreviation resolve := (resolve_imports base_dir).

(** *** The loops *)

Lemma resolve_list_ok (P : value -> Prop) (f : value -> M value) :
  (forall v st r st', f v st = (Ok r, st') -> P r) ->
  forall l st l' st',
    resolve_list f l st = (Ok l', st') -> Forall P l'.
Proof.
  intros Hf. induction l as [ | x l IH ]; simpl; intros st l' st' Hr.
  - apply ret_ok in Hr. destruct Hr as [<- _]. constructor.
  - apply bind_ok in Hr. destruct Hr as (x' & st1 & Hx & Hr).
    apply bind_ok in Hr. destruct Hr as (rest & st2 & Hrest & Hr).
    apply ret_ok in Hr. destruct Hr as [<- _].
    constructor; [ eapply Hf; eassumption | eapply IH; eassumption ].
Qed.

Lemma resolve_items_ok (P : value -> Prop) (f : value -> M value) :
  (forall v st r st', f v st = (Ok r, st') -> P r) ->
  forall d st d' st',
    resolve_items f d st = (Ok d', st') ->
    keys d' = keys d /\ Forall (fun e => P (snd e)) d'.
Proof.
  intros Hf. induction d as [ | [k x] d IH ]; simpl; intros st d' st' Hr.
  - apply ret_ok in Hr. destruct Hr as [<- _]. split; [ reflexivity | constructor ].
  - apply bind_ok in Hr. destruct Hr as (x' & st1 & Hx & Hr).
    apply bind_ok in Hr. destruct Hr as (rest & st2 & Hrest & Hr).
    apply ret_ok in Hr. destruct Hr as [<- _].
    destruct (IH _ _ _ Hrest) as [Hk Hall]. split.
    + simpl. now rewrite Hk.
    + constructor; [ simpl; eapply Hf; eassumption | exact Hall ].
Qed.

(** *** No [$import] is left *)

Lemma no_import_dict (m : dict) :
  no_import (JMap m) =
  negb (dict_has "$import" m) && forallb (fun e => no_import (snd e)) m.
Proof.
  simpl. f_equal. induction m as [ | [k x] m IH ]; simpl; [ reflexivity | ].
  now rewrite IH.
Qed.

Lemma no_import_list (l : list value) : no_import (JList l) = forallb no_import l.
Proof.
  simpl. induction l as [ | x l IH ]; simpl; [ reflexivity | now rewrite IH ].
Qed.

Lemma dict_has_set_ne (d : dict) k k' v :
  k <> k' -> dict_has k' (dict_set d k v) = dict_has k' d.
Proof. intros Hne. unfold dict_has. now rewrite dict_get_set_ne. Qed.

Lemma forallb_dict_set (P : value -> bool) (d : dict) k v :
  forallb (fun e => P (snd e)) d = true -> P v = true ->
  forallb (fun e => P (snd e)) (dict_set d k v) = true.
Proof.
  intros Hd Hv. induction d as [ | [k' v'] d IH ]; simpl in *.
  - now rewrite Hv.
  - apply andb_prop in Hd. destruct Hd as [Hv' Hd].
    destruct (String.eqb k k'); simpl.
    + now rewrite Hv, Hd.
    + now rewrite Hv', IH.
Qed.

Lemma no_import_dict_set (d : dict) k v :
  k <> "$import" -> no_import (JMap d) = true -> no_import v = true ->
  no_import (JMap (dict_set d k v)) = true.
Proof.
  rewrite !no_import_dict. intros Hne Hd Hv.
  apply andb_prop in Hd. destruct Hd as [Hhas Hall].
  rewrite dict_has_set_ne by assumption. rewrite Hhas. simpl.
  now apply forallb_dict_set.
Qed.

Lemma merge_overrides_no_import (f : value -> M value) :
  (forall v st r st', f v st = (Ok r, st') -> no_import r = true) ->
  forall items result st merged st',
    no_import (JMap result) = true ->
    merge_overrides f items result st = (Ok merged, st') ->
    no_import (JMap merged) = true.
Proof.
  intros Hf. induction items as [ | [k x] items IH ]; simpl;
    intros result st merged st' Hres Hm.
  - apply ret_ok in Hm. now destruct Hm as [<- _].
  - destruct (String.eqb k "$import") eqn:E.
    + eapply IH; eassumption.
    + apply bind_ok in Hm. destruct Hm as (x' & st1 & Hx & Hm).
      eapply IH; [ | exact Hm ].
      apply no_import_dict_set; [ now apply String.eqb_neq | exact Hres | ].
      eapply Hf; eassumption.
Qed.

Lemma resolve_imports_no_import (fuel : nat) :
  forall data current_file st r st',
    resolve fuel data current_file st = (Ok r, st') -> no_import r = true.
Proof.
  induction fuel as [ | n IH ]; intros data cur st r st' Hr; [ discriminate | ].
  destruct data as [ | b | z | s | l | d ]; simpl in Hr;
    try (apply ret_ok in Hr; destruct Hr as [<- _]; reflexivity).
  - apply bind_ok in Hr. destruct Hr as (l' & st1 & Hl & Hr).
    apply ret_ok in Hr. destruct Hr as [<- _].
    rewrite no_import_list. apply forallb_forall.
    apply List.Forall_forall.
    eapply (resolve_list_ok (fun r => no_import r = true)); [ | exact Hl ].
    intros v st0 r0 st0' Hv. eapply IH; exact Hv.
  - destruct (dict_get "$import" d) as [ import_path | ] eqn:Himp.
    + apply bind_ok in Hr. destruct Hr as ([tf key] & st1 & Hpath & Hr).
      apply bind_ok in Hr. destruct Hr as (tv & st2 & Htv & Hr).
      apply bind_ok in Hr. destruct Hr as (rt & st3 & Hrt & Hr).
      pose proof (IH _ _ _ _ _ Hrt) as Hnrt.
      destruct rt as [ | b | z | s | l | t ];
        try (destruct (Nat.eqb (List.length d) 1); [ | discriminate ];
             apply ret_ok in Hr; destruct Hr as [<- _]; exact Hnrt).
      apply bind_ok in Hr. destruct Hr as (merged & st4 & Hm & Hr).
      apply ret_ok in Hr. destruct Hr as [<- _].
      eapply merge_overrides_no_import; [ | exact Hnrt | exact Hm ].
      intros v st0 r0 st0' Hv. eapply IH; exact Hv.
    + apply bind_ok in Hr. destruct Hr as (d' & st1 & Hd & Hr).
      apply ret_ok in Hr. destruct Hr as [<- _].
      destruct (resolve_items_ok (fun r => no_import r = true) _
                  (fun v st0 r0 st0' Hv => IH _ _ _ _ _ Hv) _ _ _ _ Hd)
        as [Hk Hall].
      rewrite no_import_dict. apply andb_true_intro. split.
      * assert (Hhas : dict_has "$import" d' = dict_has "$import" d).
        { destruct (dict_has "$import" d') eqn:E1, (dict_has "$import" d) eqn:E2;
            try reflexivity.
          - apply dict_has_In in E1. rewrite Hk in E1. apply dict_has_In in E1.
            congruence.
          - apply dict_has_In in E2. rewrite <- Hk in E2. apply dict_has_In in E2.
            congruence. }
        rewrite Hhas. unfold dict_has. now rewrite Himp.
      * apply forallb_forall. now apply List.Forall_forall.
Qed.

End ResolverFacts.

(** ** More fuel does not change a result *)

Lemma bind_finished {A B} (c c' : M A) (k k' : A -> M B) st :
  fst (bind c k st) <> OutOfFuel ->
  (fst (c st) <> OutOfFuel -> c' st = c st) ->
  (forall a st1, c st = (Ok a, st1) -> fst (k a st1) <> OutOfFuel ->
                 k' a st1 = k a st1) ->
  bind c' k' st = bind c k st.
Proof.
  unfold bind. intros Hfin Hc Hk.
  destruct (c st) as [[ a | e | ] st1] eqn:E.
  - rewrite Hc by discriminate. now apply Hk.
  - now rewrite Hc by discriminate.
  - now contradiction Hfin.
Qed.

Section Fuel.
Context `{Files}.
Variable base_dir : Path.
Variables f g : value -> M value.
Hypothesis Hfg : forall v st, fst (f v st) <> OutOfFuel -> g v st = f v st.

Lemma resolve_list_finished (l : list value) :
  forall st, fst (resolve_list f l st) <> OutOfFuel ->
             resolve_list g l st = resolve_list f l st.
Proof.
  induction l as [ | x l IH ]; intros st Hfin; [ reflexivity | ].
  simpl in *. apply bind_finished; [ exact Hfin | apply Hfg | ].
  intros x' st1 _ Hfin1.
  apply bind_finished; [ exact Hfin1 | apply IH | reflexivity ].
Qed.

Lemma resolve_items_finished (d : dict) :
  forall st, fst (resolve_items f d st) <> OutOfFuel ->
             resolve_items g d st = resolve_items f d st.
Proof.
  induction d as [ | [k x] d IH ]; intros st Hfin; [ reflexivity | ].
  simpl in *. apply bind_finished; [ exact Hfin | apply Hfg | ].
  intros x' st1 _ Hfin1.
  apply bind_finished; [ exact Hfin1 | apply IH | reflexivity ].
Qed.

Lemma merge_overrides_finished (items : dict) :
  forall result st, fst (merge_overrides f items result st) <> OutOfFuel ->
                    merge_overrides g items result st =
                    merge_overrides f items result st.
Proof.
  induction items as [ | [k x] items IH ]; intros result st Hfin; [ reflexivity | ].
  simpl in *. destruct (String.eqb k "$import"); [ now apply IH | ].
  apply bind_finished; [ exact Hfin | apply Hfg | ].
  intros x' st1 _ Hfin1. now apply IH.
Qed.

End Fuel.

(** A run that ends, with a value or with an exception, ends the same way
    with one more unit of fuel, hence with any larger fuel. *)
Lemma resolve_imports_fuel_step `{Files} (base_dir : Path) (fuel : nat) :
  forall data current_file st,
    fst (resolve_imports base_dir fuel data current_file st) <> OutOfFuel ->
    resolve_imports base_dir (S fuel) data current_file st =
    resolve_imports base_dir fuel data current_file st.
Proof.
  induction fuel as [ | n IH ]; intros data cur st Hfin;
    [ now contradiction Hfin | ].
  destruct data as [ | b | z | s | l | d ]; try reflexivity.
  - change (bind (resolve_list (fun v => resolve_imports base_dir (S n) v cur) l)
                 (fun l' => ret (JList l')) st =
            bind (resolve_list (fun v => resolve_imports base_dir n v cur) l)
                 (fun l' => ret (JList l')) st).
    apply bind_finished; [ exact Hfin | | reflexivity ].
    apply resolve_list_finished. intros v st0. apply IH.
  - cbn [resolve_imports] in *.
    destruct (dict_get "$import" d) as [ import_path | ].
    + apply bind_finished; [ exact Hfin | reflexivity | ].
      intros [tf key] st1 _ Hfin1.
      apply bind_finished; [ exact Hfin1 | reflexivity | ].
      intros tv st2 _ Hfin2.
      apply bind_finished; [ exact Hfin2 | apply IH | ].
      intros rt st3 _ Hfin3.
      destruct rt; try reflexivity.
      apply bind_finished; [ exact Hfin3 | | reflexivity ].
      apply merge_overrides_finished. intros v st0. apply IH.
    + apply bind_finished; [ exact Hfin | | reflexivity ].
      apply resolve_items_finished. intros v st0. apply IH.
Qed.

Lemma resolve_imports_fuel_mono `{Files} (base_dir : Path) (fuel extra : nat)
  (data : value) (current_file : Path) (st : template_cache) :
  fst (resolve_imports base_dir fuel data current_file st) <> OutOfFuel ->
  resolve_imports base_dir (fuel + extra) data current_file st =
  resolve_imports base_dir fuel data current_file st.
Proof.
  intros Hfin. induction extra as [ | k IH ].
  - now rewrite Nat.add_0_r.
  - rewrite Nat.add_succ_r, resolve_imports_fuel_step; [ exact IH | ].
    now rewrite IH.
Qed.

(** ** Transitive resolution *)

(** C4.  Whatever the resolver returns, at any fuel and from any state of
    the cache, holds no dictionary with a [$import] key, at any depth:
    imports found in templates and in overrides have been expanded too. *)
Theorem C4_no_import_survives `{Files} (base_dir : Path) (fuel : nat)
  (data : value) (current_file : Path) (st : template_cache) (r : value) :
  fst (resolve_imports base_dir fuel data current_file st) = Ok r ->
  no_import r = true.
Proof.
  destruct (resolve_imports base_dir fuel data current_file st) as [res st'] eqn:E.
  simpl. intros ->. eapply resolve_imports_no_import. exact E.
Qed.

Lemma C4_no_import_survives_witness :
  fst (@resolve_imports ex_fs ex_base_dir 6 ex_device ex_device_file empty)
    = Ok ex_device_resolved /\
  no_import ex_device_resolved = true.
Proof.
  split; [ vm_compute; reflexivity | ].
  apply (@C4_no_import_survives ex_fs ex_base_dir 6 ex_device ex_device_file empty).
  vm_compute. reflexivity.
Defined.


(** ** Merging overrides onto a template *)

Lemma dict_get_update (o : dict) :
  List.NoDup (keys o) ->
  forall t k,
    dict_get k (dict_update t o) =
    match dict_get k o with Some v => Some v | None => dict_get k t end.
Proof.
  induction o as [ | [k0 v0] o IH ]; intros Hnd t k; [ reflexivity | ].
  inversion Hnd as [ | ? ? Hnotin Hnd' ]; subst.
  change (dict_update t ((k0, v0) :: o)) with (dict_update (dict_set t k0 v0) o).
  rewrite IH by assumption. simpl.
  destruct (String.eqb k k0) eqn:E.
  - apply String.eqb_eq in E. subst k0.
    apply dict_get_None in Hnotin. rewrite Hnotin. apply dict_get_set_eq.
  - apply String.eqb_neq in E.
    rewrite dict_get_set_ne by congruence. reflexivity.
Qed.

Lemma keys_overrides_NoDup (d : dict) :
  List.NoDup (keys d) -> List.NoDup (keys (overrides d)).
Proof.
  unfold keys, overrides. induction d as [ | [k v] d IH ]; simpl; intros Hnd.
  - constructor.
  - inversion Hnd as [ | ? ? Hnotin Hnd' ]; subst.
    destruct (negb (String.eqb k "$import")); simpl; [ | now apply IH ].
    constructor; [ | now apply IH ].
    intros Hin. apply Hnotin. apply in_map_iff in Hin.
    destruct Hin as (e & He & Hin). apply filter_In in Hin.
    apply in_map_iff. exists e. tauto.
Qed.

Section Merge.
Context `{Files}.
Variable base_dir : Path.

(** The merge loop resolves the overrides in order and assigns each as soon
    as it is resolved; the outcome is that of resolving them all first. *)
Lemma merge_overrides_update (f : value -> M value) (items : dict) :
  forall result st,
    merge_overrides f items result st =
    match resolve_items f (overrides items) st with
    | (Ok o, st') => (Ok (dict_update result o), st')
    | (Raise e, st') => (Raise e, st')
    | (OutOfFuel, st') => (OutOfFuel, st')
    end.
Proof.
  induction items as [ | [k x] items IH ]; intros result st; [ reflexivity | ].
  simpl. destruct (String.eqb k "$import"); simpl; [ apply IH | ].
  unfold bind at 1 2. destruct (f x st) as [[ x' | e | ] st1]; try reflexivity.
  rewrite IH. unfold bind.
  destruct (resolve_items f (overrides items) st1) as [[ o | e | ] st2];
    reflexivity.
Qed.

Lemma resolve_imports_import_frame (fuel : nat) (d : dict) (current_file : Path)
  (import_path : value) (template_file : Path) (template_key : string) :
  dict_get "$import" d = Some import_path ->
  resolve_import_path base_dir import_path current_file
    = Ok (template_file, template_key) ->
  resolve_imports base_dir (S fuel) (JMap d) current_file =
  (let* template_value := get_template_value template_file template_key in
   let* resolved_template :=
       resolve_imports base_dir fuel template_value template_file in
   match resolved_template with
   | JMap template_d =>
       let* merged :=
           merge_overrides
             (fun v => resolve_imports base_dir fuel v current_file)
             d template_d in
       ret (JMap merged)
   | _ =>
       if Nat.eqb (List.length d) 1 then ret resolved_template
       else raise ValueError_cannot_merge
   end).
Proof.
  intros Himp Hpath. simpl. rewrite Himp, Hpath. reflexivity.
Qed.

End Merge.

(** C5.  When the value looked up in the template resolves to a dictionary
    [t], the importing node resolves to [t] updated with the overrides of
    the node, each resolved against the importing file: a key of the node
    carries the node's resolved value, whether or not the template has it,
    and every other key of the template keeps the template's value.  One
    unit of fuel above that of the parts is enough, and more changes
    nothing. *)
Theorem C5_import_merge `{Files} (base_dir : Path) (fuel : nat) (d : dict)
  (current_file : Path) (st : template_cache) (import_path : value)
  (template_file : Path) (template_key : string)
  (template_value : value) (st1 : template_cache)
  (t : dict) (st2 : template_cache) (o : dict) (st3 : template_cache) :
  List.NoDup (keys d) ->
  dict_get "$import" d = Some import_path ->
  resolve_import_path base_dir import_path current_file
    = Ok (template_file, template_key) ->
  get_template_value template_file template_key st = (Ok template_value, st1) ->
  resolve_imports base_dir fuel template_value template_file st1
    = (Ok (JMap t), st2) ->
  resolve_items (fun v => resolve_imports base_dir fuel v current_file)
                (overrides d) st2 = (Ok o, st3) ->
  (forall extra,
      resolve_imports base_dir (S fuel + extra) (JMap d) current_file st
      = (Ok (JMap (dict_update t o)), st3)) /\
  keys o = keys (overrides d) /\
  (forall k v, dict_get k o = Some v -> dict_get k (dict_update t o) = Some v) /\
  (forall k, dict_get k o = None -> dict_get k (dict_update t o) = dict_get k t).
Proof.
  intros Hnd Himp Hpath Htv Hrt Ho.
  assert (Hkeys : keys o = keys (overrides d)).
  { eapply (resolve_items_ok (fun _ => True)); [ | exact Ho ]. trivial. }
  assert (Hndo : List.NoDup (keys o)).
  { rewrite Hkeys. now apply keys_overrides_NoDup. }
  assert (Hbase : resolve_imports base_dir (S fuel) (JMap d) current_file st
                  = (Ok (JMap (dict_update t o)), st3)).
  { rewrite (resolve_imports_import_frame base_dir fuel d current_file
               import_path template_file template_key Himp Hpath).
    rewrite (bind_of_ok _ _ _ _ _ Htv), (bind_of_ok _ _ _ _ _ Hrt).
    unfold bind. rewrite merge_overrides_update, Ho. reflexivity. }
  repeat split.
  - intros extra. rewrite resolve_imports_fuel_mono; [ exact Hbase | ].
    rewrite Hbase. discriminate.
  - exact Hkeys.
  - intros k v Hk. rewrite dict_get_update by assumption. now rewrite Hk.
  - intros k Hk. rewrite dict_get_update by assumption. now rewrite Hk.
Qed.

(** The example of the contract: template [{a: 1, b: 2}] imported with the
    sibling [b = 99]. *)
Lemma C5_import_merge_witness :
  fst (@resolve_imports ex_fs ex_base_dir (3 + 0)
         (JMap [("$import", JStr "~/templates/master.json#base"); ("b", JNum 99)])
         ex_device_file empty)
  = Ok (JMap [("a", JNum 1); ("b", JNum 99)]).
Proof.
  pose (st1 := insert "cfg/templates/master.json" ex_master
                 (empty : template_cache)).
  destruct (@C5_import_merge ex_fs ex_base_dir 2
              [("$import", JStr "~/templates/master.json#base"); ("b", JNum 99)]
              ex_device_file empty (JStr "~/templates/master.json#base")
              ex_master_file "base" (JMap [("a", JNum 1); ("b", JNum 2)]) st1
              [("a", JNum 1); ("b", JNum 2)] st1 [("b", JNum 99)] st1)
    as [Hres _].
  - unfold keys. simpl. repeat constructor; simpl; intuition discriminate.
  - reflexivity.
  - reflexivity.
  - vm_compute. reflexivity.
  - vm_compute. reflexivity.
  - vm_compute. reflexivity.
  - rewrite (Hres 0%nat). reflexivity.
Defined.

(** ** Templates that do not resolve to a dictionary *)

(** C6.  When the value looked up in the template resolves to something
    other than a dictionary, a node whose only key is [$import] resolves to
    that value as it is, and a node with any further key raises the
    [ValueError] "Cannot merge non-dict template value with other keys":
    no value is returned.  One unit of fuel above that of the template is
    enough, and more changes nothing. *)
Theorem C6_non_mapping_template `{Files} (base_dir : Path) (fuel : nat)
  (d : dict) (current_file : Path) (st : template_cache) (import_path : value)
  (template_file : Path) (template_key : string)
  (template_value : value) (st1 : template_cache)
  (resolved_template : value) (st2 : template_cache) :
  dict_get "$import" d = Some import_path ->
  resolve_import_path base_dir import_path current_file
    = Ok (template_file, template_key) ->
  get_template_value template_file template_key st = (Ok template_value, st1) ->
  resolve_imports base_dir fuel template_value template_file st1
    = (Ok resolved_template, st2) ->
  is_dict resolved_template = false ->
  (keys d = ["$import"] ->
   forall extra,
     resolve_imports base_dir (S fuel + extra) (JMap d) current_file st
     = (Ok resolved_template, st2)) /\
  (keys d <> ["$import"] ->
   forall extra,
     resolve_imports base_dir (S fuel + extra) (JMap d) current_file st
     = (Raise ValueError_cannot_merge, st2)).
Proof.
  intros Himp Hpath Htv Hrt Hnd.
  pose proof (resolve_imports_import_frame base_dir fuel d current_file
                import_path template_file template_key Himp Hpath) as Hframe.
  split; intros Hkeys extra.
  - assert (Hlen : Nat.eqb (List.length d) 1 = true).
    { unfold keys in Hkeys. rewrite <- (length_map fst), Hkeys. reflexivity. }
    assert (Hbase : resolve_imports base_dir (S fuel) (JMap d) current_file st
                    = (Ok resolved_template, st2)).
    { rewrite Hframe, (bind_of_ok _ _ _ _ _ Htv), (bind_of_ok _ _ _ _ _ Hrt).
      rewrite Hlen. now destruct resolved_template. }
    rewrite resolve_imports_fuel_mono; [ exact Hbase | ].
    rewrite Hbase. discriminate.
  - assert (Hlen : Nat.eqb (List.length d) 1 = false).
    { apply Nat.eqb_neq. intros Hlen. apply Hkeys.
      destruct d as [ | [k v] [ | e d ] ]; try discriminate.
      cbn [dict_get] in Himp.
      destruct (String.eqb "$import" k) eqn:E; [ | discriminate ].
      apply String.eqb_eq in E. now subst k. }
    assert (Hbase : resolve_imports base_dir (S fuel) (JMap d) current_file st
                    = (Raise ValueError_cannot_merge, st2)).
    { rewrite Hframe, (bind_of_ok _ _ _ _ _ Htv), (bind_of_ok _ _ _ _ _ Hrt).
      rewrite Hlen. now destruct resolved_template. }
    rewrite resolve_imports_fuel_mono; [ exact Hbase | ].
    rewrite Hbase. discriminate.
Qed.

Lemma C6_non_mapping_template_witness :
  fst (@resolve_imports ex_fs ex_base_dir (3 + 0)
         (JMap [("$import", JStr "templates/local.json#text")])
         ex_device_file empty) = Ok (JStr "hello") /\
  fst (@resolve_imports ex_fs ex_base_dir (3 + 0)
         (JMap [("$import", JStr "templates/local.json#text"); ("x", JNum 1)])
         ex_device_file empty) = Raise ValueError_cannot_merge.
Proof.
  pose (st1 := insert "cfg/0x027a/templates/local.json" ex_local
                 (empty : template_cache)).
  split.
  - destruct (@C6_non_mapping_template ex_fs ex_base_dir 2
                [("$import", JStr "templates/local.json#text")]
                ex_device_file empty (JStr "templates/local.json#text")
                ex_local_file "text" (JStr "hello") st1 (JStr "hello") st1)
      as [Hone _];
      [ reflexivity | reflexivity | vm_compute; reflexivity
      | vm_compute; reflexivity | reflexivity | ].
    rewrite (Hone eq_refl 0%nat); reflexivity.
  - destruct (@C6_non_mapping_template ex_fs ex_base_dir 2
                [("$import", JStr "templates/local.json#text"); ("x", JNum 1)]
                ex_device_file empty (JStr "templates/local.json#text")
                ex_local_file "text" (JStr "hello") st1 (JStr "hello") st1)
      as [_ Hmore];
      [ reflexivity | reflexivity | vm_compute; reflexivity
      | vm_compute; reflexivity | reflexivity | ].
    rewrite (Hmore ltac:(discriminate) 0%nat); reflexivity.
Defined.

(** ** The current file of each frame *)

Lemma split_hash_append (p key : string) :
  split_hash p = None -> split_hash (p ++ String HASH key) = Some (p, key).
Proof.
  induction p as [ | c p IH ]; simpl; [ reflexivity | ].
  destruct (Ascii.eqb c HASH); [ intros Hs; discriminate Hs | ].
  destruct (split_hash p) as [ [a b] | ]; [ intros Hs; discriminate Hs | ].
  intros _. now rewrite IH.
Qed.

Lemma drop2_home (p : string) : drop2 ("~/" ++ p) = p.
Proof.
  unfold drop2. simpl. rewrite Nat.sub_0_r.
  rewrite <- (append_nil_r p) at 2. apply substring_prefix.
Qed.

Section Frames.
Context `{Files}.
Variable base_dir : Path.

Lemma resolve_import_path_empty (key : string) (current_file : Path) :
  resolve_import_path base_dir (JStr (String HASH key)) current_file
  = Ok (current_file, key).
Proof. reflexivity. Qed.

Lemma resolve_import_path_relative (p key : string) (current_file : Path) :
  p <> "" -> String.prefix "~/" p = false -> split_hash p = None ->
  resolve_import_path base_dir (JStr (p ++ String HASH key)) current_file
  = Ok (path_join (path_parent current_file) p, key).
Proof.
  intros Hne Hhome Hhash. unfold resolve_import_path.
  rewrite split_hash_append by assumption.
  apply String.eqb_neq in Hne. now rewrite Hne, Hhome.
Qed.

Lemma resolve_import_path_home (p key : string) (current_file : Path) :
  split_hash p = None ->
  resolve_import_path base_dir (JStr ("~/" ++ p ++ String HASH key)) current_file
  = Ok (path_join base_dir p, key).
Proof.
  intros Hhash. unfold resolve_import_path.
  rewrite <- append_assoc.
  rewrite split_hash_append by (simpl; now rewrite Hhash).
  rewrite drop2_home. now destruct p.
Qed.

Lemma get_template_value_of_file (file : Path) (fd : dict) (k : string)
  (x : value) (st : template_cache) :
  load_json_file file = Ok (JMap fd) ->
  cache_agrees st file (JMap fd) ->
  dict_get k fd = Some x ->
  exists st', get_template_value file k st = (Ok x, st') /\
              lookup (path_str file) st' = Some (JMap fd).
Proof.
  intros Hload [Hnone | Hsome] Hk; unfold get_template_value, bind, get_cache.
  - rewrite Hnone. unfold lift, put_cache, ret. rewrite Hload, Hk.
    eexists. split; [ reflexivity | ]. apply lookup_insert_eq.
  - rewrite Hsome. unfold ret. rewrite Hk. eexists. split; [ reflexivity | exact Hsome ].
Qed.

Lemma self_chain_entry (fd : dict) ks k v :
  self_chain fd ks k v -> exists x, dict_get k fd = Some x.
Proof. destruct ks; simpl; [ eauto | intros [Hk _]; eauto ]. Qed.

(** Inside [file], an entry that leads to a scalar through empty-path
    references resolves to that scalar, every link read from [file]. *)
Lemma self_chain_resolves (file : Path) (fd : dict) (v : value) :
  load_json_file file = Ok (JMap fd) ->
  is_container v = false ->
  forall ks k x st,
    lookup (path_str file) st = Some (JMap fd) ->
    self_chain fd ks k v ->
    dict_get k fd = Some x ->
    resolve_imports base_dir (S (List.length ks)) x file st = (Ok v, st).
Proof.
  intros Hload Hv. induction ks as [ | k' ks IH ]; intros k x st Hst Hchain Hx.
  - simpl in Hchain. rewrite Hchain in Hx. injection Hx as <-.
    now destruct v.
  - destruct Hchain as [Hk Hchain]. rewrite Hk in Hx. injection Hx as <-.
    destruct (self_chain_entry _ _ _ _ Hchain) as [x' Hx'].
    change (List.length (k' :: ks)) with (S (List.length ks)).
    rewrite (resolve_imports_import_frame base_dir (S (List.length ks))
               [("$import", JStr (String HASH k'))] file
               (JStr (String HASH k')) file k' eq_refl
               (resolve_import_path_empty k' file)).
    destruct (get_template_value_of_file file fd k' x' st Hload
                (or_intror Hst) Hx') as (st' & Hget & _).
    assert (Hst' : st' = st).
    { revert Hget. unfold get_template_value, bind, get_cache. rewrite Hst.
      unfold ret. rewrite Hx'. now intros [= <-]. }
    subst st'. rewrite (bind_of_ok _ _ _ _ _ Hget).
    rewrite (bind_of_ok _ _ _ _ _ (IH k' x' st Hst Hchain Hx')).
    now destruct v.
Qed.

Lemma import_of_self_chain (file : Path) (fd : dict) (v : value)
  (ks : list string) (k : string) (ref : value) (current_file : Path)
  (st : template_cache) :
  load_json_file file = Ok (JMap fd) ->
  cache_agrees st file (JMap fd) ->
  self_chain fd ks k v ->
  is_container v = false ->
  resolve_import_path base_dir ref current_file = Ok (file, k) ->
  fst (resolve_imports base_dir (S (S (List.length ks)))
         (JMap [("$import", ref)]) current_file st) = Ok v.
Proof.
  intros Hload Hst Hchain Hv Hpath.
  destruct (self_chain_entry _ _ _ _ Hchain) as [x Hx].
  destruct (get_template_value_of_file file fd k x st Hload Hst Hx)
    as (st' & Hget & Hst').
  rewrite (resolve_imports_import_frame base_dir (S (List.length ks))
             [("$import", ref)] current_file ref file k).
  - rewrite (bind_of_ok _ _ _ _ _ Hget).
    rewrite (bind_of_ok _ _ _ _ _
               (self_chain_resolves file fd v Hload Hv ks k x st' Hst' Hchain Hx)).
    now destruct v.
  - simpl. reflexivity.
  - exact Hpath.
Qed.

End Frames.

(** An override is resolved against the importing file: in [ex_device] the
    override [y] of [p3] is the reference [#text], read from the device file
    although the template of [p3] lives in the master file. *)
Example override_resolves_in_importing_file :
  fst (@resolve_imports ex_fs ex_base_dir 4
         (JMap [("$import", JStr "~/templates/master.json#nested");
                ("y", JMap [("$import", JStr "#text")])])
         ex_device_file empty)
  = Ok (JMap [("deep", JBool true); ("x", JNum 1); ("y", JStr "device")]).
Proof. vm_compute. reflexivity. Qed.

(** ** The reconciler *)

Lemma py_add_one_int (v : value) (n : Z) :
  int_value v = Some n -> py_add_one v = Ok (JNum (n + 1)).
Proof. destruct v; simpl; intros [= <-]; reflexivity. Qed.

Lemma py_add_one_ok (v w : value) :
  py_add_one v = Ok w -> exists n, int_value v = Some n /\ w = JNum (n + 1).
Proof. destruct v; simpl; intros [= <-]; eauto. Qed.

Section ReconcilerFacts.
Context `{Files}.
Variables base_dir indigo_dir : Path.


Lemma process_device_existing fuel manufacturer_id device_filename md now
  resolved content existing_data :
  resolve_device_config base_dir fuel manufacturer_id device_filename
    = Ok resolved ->
  path_exists (output_path_of indigo_dir manufacturer_id device_filename) = true ->
  read_text (output_path_of indigo_dir manufacturer_id device_filename)
    = Ok content ->
  json_loads content = Ok existing_data ->
  process_device base_dir indigo_dir fuel manufacturer_id device_filename md now
  = reconcile (output_path_of indigo_dir manufacturer_id device_filename)
              resolved (Some existing_data) md now.
Proof.
  intros Hres Hex Hread Hloads. unfold process_device.
  now rewrite Hres, Hex, Hread, Hloads.
Qed.

(** A run that writes went through the resolver and through [reconcile]. *)
Lemma process_device_written fuel manufacturer_id device_filename md now
  p doc text :
  process_device base_dir indigo_dir fuel manufacturer_id device_filename md now
    = Written p doc text ->
  exists resolved existing,
    resolve_device_config base_dir fuel manufacturer_id device_filename
      = Ok resolved /\
    reconcile (output_path_of indigo_dir manufacturer_id device_filename)
              resolved existing md now = Written p doc text /\
    (existing = None ->
     path_exists (output_path_of indigo_dir manufacturer_id device_filename)
       = false) /\
    (forall existing_data, existing = Some existing_data ->
       path_exists (output_path_of indigo_dir manufacturer_id device_filename)
         = true /\
       exists content,
         read_text (output_path_of indigo_dir manufacturer_id device_filename)
           = Ok content /\
         json_loads content = Ok existing_data).
Proof.
  unfold process_device.
  destruct (resolve_device_config base_dir fuel manufacturer_id device_filename)
    as [ resolved | e | ]; [ | destruct (caught e); discriminate | discriminate ].
  destruct (path_exists (output_path_of indigo_dir manufacturer_id device_filename))
    eqn:Hex.
  - destruct (read_text _) as [ content | e | ] eqn:Hread;
      [ | destruct (caught e); discriminate | discriminate ].
    destruct (json_loads content) as [ existing_data | e | ] eqn:Hloads;
      [ | destruct (caught e); discriminate | discriminate ].
    intros Hrec. exists resolved, (Some existing_data).
    split; [ reflexivity | ]. split; [ exact Hrec | ].
    split; [ discriminate | ].
    intros existing_data' [= <-]. split; [ reflexivity | now exists content ].
  - intros Hrec. exists resolved, None.
    split; [ reflexivity | ]. split; [ exact Hrec | ].
    split; [ reflexivity | discriminate ].
Qed.


Lemma reconcile_equal p (rc ed : dict) md now :
  json_objects_equal (JMap ed) (JMap (temp_resolved rc ed now)) = true ->
  reconcile p (JMap rc) (Some (JMap ed)) md now = Unchanged.
Proof. intros Heq. simpl. now rewrite Heq. Qed.

Lemma reconcile_changed p (rc ed : dict) md now (n : Z) :
  json_objects_equal (JMap ed) (JMap (temp_resolved rc ed now)) = false ->
  int_value (existing_version ed) = Some n ->
  reconcile p (JMap rc) (Some (JMap ed)) md now =
  match md with
  | Interactive false => Cancelled
  | _ => Written p (artifact rc (n + 1) now)
                 (dumps_indent 0 (artifact rc (n + 1) now) ++ String NEWLINE "")
  end.
Proof.
  intros Hne Hint. simpl. rewrite Hne.
  unfold bump_and_save. fold (existing_version ed).
  rewrite (py_add_one_int _ _ Hint).
  destruct md as [ | [ | ] ]; reflexivity.
Qed.

(** What [reconcile] writes, when it writes. *)
Lemma reconcile_written p resolved existing md now p' doc text :
  reconcile p resolved existing md now = Written p' doc text ->
  exists rc version,
    resolved = JMap rc /\ p' = p /\ doc = artifact rc version now /\
    text = dumps_indent 0 doc ++ String NEWLINE "" /\
    (existing = None -> version = 1) /\
    (forall existing_data, existing = Some existing_data ->
       exists ed, existing_data = JMap ed /\
                  json_objects_equal (JMap ed) (JMap (temp_resolved rc ed now))
                    = false /\
                  md <> Interactive false /\
                  int_value (existing_version ed) = Some (version - 1)).
Proof.
  destruct existing as [ existing_data | ].
  - destruct existing_data as [ | | | | | ed ]; try discriminate.
    destruct resolved as [ | | | | | rc ]; try discriminate.
    simpl. destruct (json_objects_equal _ _) eqn:Heq; [ discriminate | ].
    assert (Hbump : bump_and_save p (JMap rc) (dict_get_default "vers" (JNum 1) ed)
                      now = Written p' doc text ->
                    exists n, int_value (existing_version ed) = Some n /\
                              p' = p /\ doc = artifact rc (n + 1) now /\
                              text = dumps_indent 0 doc ++ String NEWLINE "").
    { unfold bump_and_save. fold (existing_version ed).
      destruct (py_add_one (existing_version ed)) as [ w | e | ] eqn:Hadd;
        try discriminate.
      apply py_add_one_ok in Hadd. destruct Hadd as (n & Hint & ->).
      simpl. intros [= <- <- <-]. exists n. repeat split. exact Hint. }
    intros Hw.
    assert (Hmd : md <> Interactive false /\
                  bump_and_save p (JMap rc) (dict_get_default "vers" (JNum 1) ed)
                    now = Written p' doc text).
    { destruct md as [ | [ | ] ]; try discriminate; split; congruence. }
    destruct Hmd as [Hmd Hw']. destruct (Hbump Hw') as (n & Hint & -> & -> & ->).
    exists rc, (n + 1). repeat split; try discriminate.
    intros existing_data [= <-]. exists ed. repeat split; try assumption.
    now replace (n + 1 - 1) with n by lia.
  - destruct resolved as [ | | | | | rc ]; try discriminate.
    simpl. intros [= <- <- <-]. exists rc, 1. repeat split; discriminate.
Qed.

End ReconcilerFacts.





(** The three cases at the example tree: no artifact, an artifact with the
    same content, an artifact with other content. *)
Example process_device_cases :
  stored_version
    match @process_device ex_fs ex_base_dir ex_indigo_dir 6 "0x027a" "dev.json"
            Silent ex_timestamp_now with
    | Written _ doc _ => doc
    | _ => JNull
    end = Some (JNum 1) /\
  @process_device (ex_fs_with ex_artifact_same) ex_base_dir ex_indigo_dir 6
    "0x027a" "dev.json" Silent ex_timestamp_now = Unchanged /\
  @process_device (ex_fs_with ex_artifact_old) ex_base_dir ex_indigo_dir 6
    "0x027a" "dev.json" (Interactive false) ex_timestamp_now = Cancelled.
Proof. repeat split; vm_compute; reflexivity. Qed.

(** ** The written document *)




(** The text of a small document: two spaces per level, a final line feed. *)
Example dumps_indent_example :
  dumps_indent 0 (JMap [("a", JList [JNum 1]); ("vers", JNum 2)])
  ++ String NEWLINE ""
  = "{" ++ String NEWLINE
     ("  " ++ quoted "a" ++ ": [" ++ String NEWLINE
     ("    1" ++ String NEWLINE
     ("  ]," ++ String NEWLINE
     ("  " ++ quoted "vers" ++ ": 2" ++ String NEWLINE
     ("}" ++ String NEWLINE ""))))).
Proof. vm_compute. reflexivity. Qed.

(** ** A previous artifact without version *)

Lemma item_matches_key (m2 : dict) (e : string * value) :
  item_matches m2 e = true -> In (fst e) (keys m2).
Proof.
  unfold item_matches. destruct (dict_get (fst e) m2) as [ v | ] eqn:E;
    [ intros _ | discriminate ].
  apply dict_has_In. unfold dict_has. now rewrite E.
Qed.

(** Dictionaries that compare equal have the same keys. *)
Lemma py_eq_dict_keys (m1 m2 : dict) :
  py_eq (JMap m1) (JMap m2) = true -> List.NoDup (keys m1) ->
  forall k, In k (keys m2) -> In k (keys m1).
Proof.
  rewrite py_eq_dict. intros Heq Hnd. apply andb_prop in Heq.
  destruct Heq as [Hlen Hall]. apply Nat.eqb_eq in Hlen.
  apply NoDup_length_incl; [ exact Hnd | | ].
  - unfold keys. rewrite !length_map. lia.
  - intros k Hin. unfold keys in Hin. apply in_map_iff in Hin.
    destruct Hin as (e & <- & He). apply item_matches_key.
    rewrite forallb_forall in Hall. now apply Hall.
Qed.

Lemma keys_normalize_json (m : dict) :
  exists m', normalize_json (JMap m) = JMap m' /\ Permutation (keys m') (keys m).
Proof.
  exists (map_values normalize_json (sorted_items m)). split.
  - apply normalize_json_dict.
  - rewrite keys_map_values. unfold keys. apply Permutation_map.
    apply sorted_items_perm.
Qed.

(** A key that only one of two dictionaries has makes them unequal. *)
Lemma json_objects_equal_missing_key (m1 m2 : dict) (k : string) :
  List.NoDup (keys m1) -> ~ In k (keys m1) -> In k (keys m2) ->
  json_objects_equal (JMap m1) (JMap m2) = false.
Proof.
  intros Hnd Hnot Hin. unfold json_objects_equal.
  destruct (keys_normalize_json m1) as (n1 & -> & Hp1).
  destruct (keys_normalize_json m2) as (n2 & -> & Hp2).
  destruct (py_eq (JMap n1) (JMap n2)) eqn:Heq; [ | reflexivity ].
  exfalso. apply Hnot. eapply Permutation_in; [ exact Hp1 | ].
  eapply py_eq_dict_keys; [ exact Heq | | ].
  - eapply Permutation_NoDup; [ symmetry; exact Hp1 | exact Hnd ].
  - eapply Permutation_in; [ symmetry; exact Hp2 | exact Hin ].
Qed.

Lemma temp_resolved_has_vers (rc ed : dict) (now : string) :
  In "vers" (keys (temp_resolved rc ed now)).
Proof.
  apply dict_has_In. unfold dict_has, temp_resolved.
  rewrite dict_get_set_ne by discriminate. now rewrite dict_get_set_eq.
Qed.

(** C10 fails as it is stated: a previous artifact without [vers] whose
    content is the new document, the same [last_update] included, is not
    reported as unchanged, although it would equal the comparison copy if it
    carried the version 1 it is counted as; the run rewrites it as
    version 2. *)
Lemma C10_versionless_artifact_is_rewritten :
  stored_version ex_artifact_legacy = None /\
  json_objects_equal ex_artifact_legacy
    (JMap (dict_set ex_resolved_dict "last_update" (JStr ex_timestamp_old)))
    = true /\
  json_objects_equal
    (JMap (dict_set (dict_set ex_resolved_dict "last_update"
                              (JStr ex_timestamp_old)) "vers" (JNum 1)))
    (JMap (temp_resolved ex_resolved_dict
             (dict_set ex_resolved_dict "last_update" (JStr ex_timestamp_old))
             ex_timestamp_now))
    = true /\
  @process_device (ex_fs_with ex_artifact_legacy) ex_base_dir ex_indigo_dir 6
    "0x027a" "dev.json" Silent ex_timestamp_now
  = @Written (ex_fs_with ex_artifact_legacy) ex_artifact_file
      (artifact ex_resolved_dict 2 ex_timestamp_now)
      (dumps_indent 0 (artifact ex_resolved_dict 2 ex_timestamp_now)
       ++ String NEWLINE "").
Proof. repeat split; vm_compute; reflexivity. Qed.

(** C10 (amended).  When the previous artifact has no key [vers], its
    version counts as 1 for the increment only: the comparison copy of the
    new document always carries [vers], so it is never semantically equal to
    the artifact, the run never reports it unchanged, and it writes version
    2, unattended or once the prompt is confirmed; declined, it writes
    nothing. *)
Theorem C10_missing_version `{Files} (base_dir indigo_dir : Path) (fuel : nat)
  (manufacturer_id device_filename : string) (md : mode) (now : string)
  (rc ed : dict) (content : string) :
  let out := output_path_of indigo_dir manufacturer_id device_filename in
  resolve_device_config base_dir fuel manufacturer_id device_filename
    = Ok (JMap rc) ->
  path_exists out = true -> read_text out = Ok content ->
  json_loads content = Ok (JMap ed) ->
  List.NoDup (keys ed) ->
  dict_get "vers" ed = None ->
  json_objects_equal (JMap ed) (JMap (temp_resolved rc ed now)) = false /\
  process_device base_dir indigo_dir fuel manufacturer_id device_filename md now
  = match md with
    | Interactive false => Cancelled
    | _ => Written out (artifact rc 2 now)
                   (dumps_indent 0 (artifact rc 2 now) ++ String NEWLINE "")
    end.
Proof.
  intros out Hres Hex Hread Hloads Hnd Hvers.
  assert (Hne : json_objects_equal (JMap ed) (JMap (temp_resolved rc ed now))
                = false).
  { apply (json_objects_equal_missing_key ed _ "vers").
    - exact Hnd.
    - now apply dict_get_None.
    - apply temp_resolved_has_vers. }
  split; [ exact Hne | ].
  erewrite process_device_existing by eassumption.
  apply (reconcile_changed _ _ _ _ _ 1 Hne).
  unfold existing_version, dict_get_default. now rewrite Hvers.
Qed.

Lemma C10_missing_version_witness :
  @process_device (ex_fs_with ex_artifact_legacy) ex_base_dir ex_indigo_dir 6
    "0x027a" "dev.json" (Interactive true) ex_timestamp_now
  = @Written (ex_fs_with ex_artifact_legacy) ex_artifact_file
      (artifact ex_resolved_dict 2 ex_timestamp_now)
      (dumps_indent 0 (artifact ex_resolved_dict 2 ex_timestamp_now)
       ++ String NEWLINE "").
Proof.
  apply (@C10_missing_version (ex_fs_with ex_artifact_legacy) ex_base_dir
           ex_indigo_dir 6 "0x027a" "dev.json" (Interactive true)
           ex_timestamp_now ex_resolved_dict
           (dict_set ex_resolved_dict "last_update" (JStr ex_timestamp_old))
           (dumps ex_artifact_legacy)).
  - vm_compute. reflexivity.
  - vm_compute. reflexivity.
  - vm_compute. reflexivity.
  - vm_compute. reflexivity.
  - vm_compute. repeat constructor; simpl; intuition discriminate.
  - vm_compute. reflexivity.
Defined.

(** * Further properties *)

(** ** Item assignment keeps the keys distinct *)

Lemma wf_dict_set (d : dict) (k : string) (v : value) :
  wf_value (JMap d) -> wf_value v -> wf_value (JMap (dict_set d k v)).
Proof.
  rewrite !wf_map_iff. intros [Hnd Hall] Hv. split.
  - rewrite keys_dict_set. destruct (dict_has k d) eqn:Hhas; [ exact Hnd | ].
    apply List.NoDup_app; [ exact Hnd | repeat constructor; intros [] | ].
    intros k' Hk' [ <- | [] ].
    apply dict_has_In in Hk'. congruence.
  - clear Hnd. induction d as [ | [k' v'] d IH ]; simpl.
    + constructor; [ exact Hv | constructor ].
    + inversion Hall; subst.
      destruct (String.eqb k k'); constructor; simpl; auto.
Qed.

(** ** Further properties of [JsonDiffer] *)

Lemma sorted_items_fixed (l : dict) : keys_sorted l -> sorted_items l = l.
Proof.
  induction l as [|e l IH]; intros Hs; [reflexivity|].
  simpl. rewrite (IH (keys_sorted_tail _ _ Hs)).
  destruct l as [|e' l]; [reflexivity|].
  simpl. rewrite (keys_sorted_head_le _ _ Hs e' (or_introl eq_refl)). reflexivity.
Qed.

Lemma map_values_compose f g (d : dict) :
  map_values f (map_values g d) = map_values (fun v => f (g v)) d.
Proof.
  unfold map_values. rewrite List.map_map. reflexivity.
Qed.

Lemma map_values_ext_on f g (d : dict) :
  (forall e, In e d -> f (snd e) = g (snd e)) -> map_values f d = map_values g d.
Proof.
  intros Hfg. unfold map_values. apply List.map_ext_in.
  intros e He. rewrite (Hfg e He). reflexivity.
Qed.

(** X1: normalising twice is normalising once. *)
Theorem normalize_json_idempotent (a : value) :
  normalize_json (normalize_json a) = normalize_json a.
Proof.
  induction a as [| | | |l IH|m IH] using value_ind_nested; try reflexivity.
  - rewrite !normalize_json_list. f_equal. rewrite List.map_map.
    apply List.map_ext_in. intros x Hx.
    rewrite List.Forall_forall in IH. exact (IH x Hx).
  - rewrite normalize_json_dict. rewrite normalize_json_dict.
    rewrite sorted_items_map_values.
    rewrite (sorted_items_fixed (sorted_items m) (sorted_items_sorted m)).
    rewrite map_values_compose. f_equal.
    apply map_values_ext_on. intros e He.
    rewrite List.Forall_forall in IH. apply IH.
    apply (Permutation_in e (sorted_items_perm m)). exact He.
Qed.

Lemma agree_all_Forall2 R (l1 l2 : list value) :
  agree_all R l1 l2 -> Forall2 (agree R) l1 l2.
Proof. induction 1; constructor; assumption. Qed.

Lemma agree_items_Forall2 R (m1 m2 : dict) :
  agree_items R m1 m2 ->
  Forall2 (fun e1 e2 => fst e1 = fst e2 /\ agree R (snd e1) (snd e2)) m1 m2.
Proof. induction 1; constructor; [ split; [ reflexivity | assumption ] | assumption ]. Qed.

Lemma agree_refl (R : value -> value -> Prop) :
  (forall a, is_container a = false -> R a a) -> forall a, agree R a a.
Proof.
  intros HR a.
  induction a as [| | | |l IH|m IH] using value_ind_nested;
    try (apply agree_scalar; [ reflexivity | reflexivity | apply HR; reflexivity ]).
  - apply agree_list. apply agree_all_of_Forall2.
    induction IH; constructor; assumption.
  - apply (agree_map R m m m); [ | reflexivity ].
    apply agree_items_of_Forall2.
    induction IH; constructor; [ split; [ reflexivity | assumption ] | assumption ].
Qed.

Lemma Forall2_swap {A B} (P : A -> B -> Prop) (l1 : list A) (l2 : list B) :
  Forall2 P l1 l2 -> Forall2 (fun y x => P x y) l2 l1.
Proof. induction 1; constructor; assumption. Qed.

Lemma Forall2_compose {A B C} (Q : B -> C -> Prop) (S : A -> C -> Prop) :
  forall l1 l2 l3,
    Forall2 (fun x y => forall z, Q y z -> S x z) l1 l2 -> Forall2 Q l2 l3 ->
    Forall2 S l1 l3.
Proof.
  intros l1 l2 l3 H12. revert l3.
  induction H12 as [ | x y l1 l2 Hxy _ IH ]; intros l3 H23; inversion H23; subst.
  - constructor.
  - constructor; [ apply Hxy; assumption | apply IH; assumption ].
Qed.

Lemma agree_sym (R : value -> value -> Prop) :
  (forall a b, is_container a = false -> is_container b = false ->
               R a b -> R b a) ->
  forall a b, agree R a b -> agree R b a.
Proof.
  intros HR.
  apply (agree_ind_nested R (fun a b => agree R b a)).
  - intros a b Ha Hb Hab. apply agree_scalar; auto.
  - intros l1 l2 H12. apply agree_list. apply agree_all_of_Forall2.
    apply Forall2_swap in H12. exact H12.
  - intros m1 m2 m2' H12 Hperm.
    apply Forall2_swap in H12.
    destruct (Permutation_Forall2 Hperm H12) as [m1' [Hp1 Hf]].
    apply (agree_map R m2 m1 m1'); [ | symmetry; exact Hp1 ].
    apply agree_items_of_Forall2.
    clear -Hf. induction Hf as [ | e2 e1 l2 l1 [Hk Ha] _ IH ]; constructor;
      [ split; [ symmetry; exact Hk | exact Ha ] | exact IH ].
Qed.

Lemma agree_trans (R : value -> value -> Prop) :
  (forall a b c, is_container a = false -> is_container b = false ->
                 is_container c = false -> R a b -> R b c -> R a c) ->
  forall a b, agree R a b -> forall c, agree R b c -> agree R a c.
Proof.
  intros HR.
  apply (agree_ind_nested R (fun a b => forall c, agree R b c -> agree R a c)).
  - intros a b Ha Hb Hab c Hbc.
    inversion Hbc; subst; try discriminate.
    apply agree_scalar; eauto.
  - intros l1 l2 H12 c Hbc. inversion Hbc; subst; try discriminate.
    apply agree_list. apply agree_all_of_Forall2.
    match goal with Hall : agree_all R l2 _ |- _ =>
      apply agree_all_Forall2 in Hall;
      exact (Forall2_compose _ _ _ _ _ H12 Hall) end.
  - intros m1 m2 m2' H12 Hperm c Hbc. inversion Hbc; subst; try discriminate.
    match goal with Hit : agree_items R m2 ?m3', Hp3 : Permutation ?m3' ?m3 |- _ =>
      apply agree_items_Forall2 in Hit;
      destruct (Permutation_Forall2 (Permutation_sym Hperm) Hit) as [m3'' [Hp Hf]];
      apply (agree_map R m1 m3 m3'');
      [ | transitivity m3'; [ symmetry; exact Hp | exact Hp3 ] ]
    end.
    apply agree_items_of_Forall2.
    clear -H12 Hf. revert m3'' Hf.
    induction H12 as [ | e1 e2 l1 l2 [Hk HP] _ IH ]; intros m3'' Hf;
      inversion Hf as [ | e2' e3 l2' l3 [Hk' Ha] Hrest ]; subst; constructor.
    + split; [ congruence | apply HP; exact Ha ].
    + apply IH. exact Hrest.
Qed.

Lemma py_scalar_eq_sym (a b : value) :
  is_container a = false -> is_container b = false ->
  py_scalar_eq a b -> py_scalar_eq b a.
Proof.
  unfold py_scalar_eq.
  destruct a, b; simpl; intros Ha Hb Hab; try discriminate; try reflexivity;
    repeat match goal with
           | H : Bool.eqb _ _ = true |- _ => apply Bool.eqb_prop in H
           | H : Z.eqb _ _ = true |- _ => apply Z.eqb_eq in H
           | H : String.eqb _ _ = true |- _ => apply String.eqb_eq in H
           end; subst;
    solve_eqb.
Qed.

Lemma py_scalar_eq_trans (a b c : value) :
  is_container a = false -> is_container b = false -> is_container c = false ->
  py_scalar_eq a b -> py_scalar_eq b c -> py_scalar_eq a c.
Proof.
  unfold py_scalar_eq.
  destruct a, b; simpl; intros Ha Hb Hc Hab; try discriminate;
    destruct c; simpl in *; intros Hbc; try discriminate; try reflexivity;
    repeat match goal with
           | H : Bool.eqb _ _ = true |- _ => apply Bool.eqb_prop in H
           | H : Z.eqb _ _ = true |- _ => apply Z.eqb_eq in H
           | H : String.eqb _ _ = true |- _ => apply String.eqb_eq in H
           end; subst;
    try solve_eqb.
  all: match goal with
       | H : Z.b2z ?x = Z.b2z ?y |- _ =>
           destruct x, y; simpl in H; try reflexivity; discriminate H
       end.
Qed.

Lemma json_objects_equal_agree (a b : value) :
  wf_value a -> wf_value b ->
  json_objects_equal a b = true <-> agree py_scalar_eq a b.
Proof.
  intros Ha Hb. rewrite (json_objects_equal_py_eq a b Hb). split.
  - apply py_eq_agree; assumption.
  - intros Hab. apply agree_py_eq; assumption.
Qed.

Lemma json_objects_equal_refl (a : value) :
  wf_value a -> json_objects_equal a a = true.
Proof.
  intros Ha. apply json_objects_equal_agree; [ assumption | assumption | ].
  apply agree_refl. intros x Hx. apply py_eq_scalar_refl. exact Hx.
Qed.

(** X2: on decoded JSON, [json_objects_equal] is an equivalence relation. *)
Theorem json_objects_equal_equivalence (a b c : value) :
  wf_value a -> wf_value b -> wf_value c ->
  json_objects_equal a a = true /\
  json_objects_equal a b = json_objects_equal b a /\
  (json_objects_equal a b = true -> json_objects_equal b c = true ->
   json_objects_equal a c = true).
Proof.
  intros Ha Hb Hc. split; [ apply json_objects_equal_refl; exact Ha | ]. split.
  - assert (Hsym : forall x y, wf_value x -> wf_value y ->
                     json_objects_equal x y = true -> json_objects_equal y x = true).
    { intros x y Hx Hy Hxy. apply json_objects_equal_agree; try assumption.
      apply (agree_sym _ py_scalar_eq_sym).
      apply json_objects_equal_agree; assumption. }
    destruct (json_objects_equal a b) eqn:Hab.
    + symmetry. apply Hsym; assumption.
    + destruct (json_objects_equal b a) eqn:Hba; [ | reflexivity ].
      rewrite (Hsym b a Hb Ha Hba) in Hab. discriminate Hab.
  - intros Hab Hbc. apply json_objects_equal_agree; try assumption.
    apply (agree_trans _ py_scalar_eq_trans a b).
    + apply json_objects_equal_agree; assumption.
    + apply json_objects_equal_agree; assumption.
Qed.

Lemma json_objects_equal_equivalence_witness :
  json_objects_equal (JMap [("a", JBool true); ("b", JNull)])
                     (JMap [("b", JNull); ("a", JNum 1)])
  = json_objects_equal (JMap [("b", JNull); ("a", JNum 1)])
                       (JMap [("a", JBool true); ("b", JNull)]).
Proof.
  apply (json_objects_equal_equivalence
           (JMap [("a", JBool true); ("b", JNull)])
           (JMap [("b", JNull); ("a", JNum 1)]) JNull);
    [ solve_wf | solve_wf | exact I ].
Defined.

(** *** The report *)

Lemma generate_diff_report_dict (old_d new_d : dict) (path : string) :
  generate_diff_report (JMap old_d) (JMap new_d) path =
  List.app
    (flat_map (fun e : string * value =>
                 if negb (dict_has (fst e) new_d)
                 then ["- Removed key: " ++ join_path path (fst e)] else []) old_d)
    (List.app
       (flat_map (fun e : string * value =>
                    if negb (dict_has (fst e) old_d)
                    then ["+ Added key: " ++ join_path path (fst e)] else []) new_d)
       (flat_map (modified_lines new_d path) old_d)).
Proof.
  simpl. f_equal. f_equal. unfold modified_lines.
  induction old_d as [ | [k v] l IH ]; simpl; [ reflexivity | ].
  rewrite IH. reflexivity.
Qed.

Lemma flat_map_nil {A B} (f : A -> list B) (l : list A) :
  (forall x, In x l -> f x = []) -> flat_map f l = [].
Proof.
  induction l as [ | x l IH ]; intros Hf; simpl; [ reflexivity | ].
  rewrite (Hf x (or_introl eq_refl)). simpl. apply IH.
  intros y Hy. apply Hf. right. exact Hy.
Qed.

Lemma py_eq_list_length (l1 l2 : list value) :
  py_eq (JList l1) (JList l2) = true -> List.length l1 = List.length l2.
Proof.
  revert l2. induction l1 as [ | x l1 IH ]; intros [ | y l2 ] Heq;
    try reflexivity; try discriminate.
  rewrite py_eq_list_cons in Heq. apply andb_true_iff in Heq as [_ Heq].
  simpl. f_equal. apply IH. exact Heq.
Qed.

(** X3: values that compare equal have an empty report. *)
Theorem generate_diff_report_equal (old_obj new_obj : value) (path : string) :
  wf_value old_obj -> wf_value new_obj ->
  json_objects_equal old_obj new_obj = true ->
  generate_diff_report old_obj new_obj path = [].
Proof.
  intros Hold Hnew Heq.
  destruct old_obj as [ | | | | old_l | old_d ], new_obj as [ | | | | new_l | new_d ];
    try reflexivity.
  - (* lists *)
    simpl. change (py_eq (JList (List.map normalize_json old_l))
                         (JList (List.map normalize_json new_l)))
      with (json_objects_equal (JList old_l) (JList new_l)).
    rewrite Heq. simpl.
    rewrite (json_objects_equal_py_eq _ _ Hnew) in Heq.
    apply py_eq_list_length in Heq. rewrite Heq, Nat.eqb_refl. reflexivity.
  - (* dictionaries *)
    rewrite generate_diff_report_dict.
    rewrite (json_objects_equal_py_eq _ _ Hnew) in Heq.
    pose proof Heq as Hkeys. rewrite py_eq_dict in Heq.
    apply andb_true_iff in Heq as [_ Hitems].
    rewrite forallb_forall in Hitems.
    apply wf_map_iff in Hold as [Hnd _].
    rewrite !flat_map_nil; [ reflexivity | | | ].
    + intros e He. unfold modified_lines.
      specialize (Hitems e He). unfold item_matches in Hitems.
      destruct (dict_get (fst e) new_d) as [ new_v | ] eqn:Hg; [ | reflexivity ].
      rewrite (json_objects_equal_py_eq _ _ (wf_map_get _ _ _ Hnew Hg)).
      rewrite Hitems. reflexivity.
    + intros e He.
      assert (Hin : In (fst e) (keys old_d)).
      { apply (py_eq_dict_keys _ _ Hkeys Hnd). unfold keys. apply in_map. exact He. }
      apply dict_has_In in Hin. rewrite Hin. reflexivity.
    + intros e He. specialize (Hitems e He). apply item_matches_key in Hitems.
      apply dict_has_In in Hitems. rewrite Hitems. reflexivity.
Qed.

Lemma generate_diff_report_equal_witness :
  generate_diff_report (JMap [("a", JNum 1); ("b", JList [JNull])])
                       (JMap [("b", JList [JNull]); ("a", JBool true)]) "" = [].
Proof.
  apply generate_diff_report_equal; [ solve_wf | solve_wf | reflexivity ].
Defined.

Lemma kinds_agree_dict (m1 m2 : dict) :
  kinds_agree (JMap m1) (JMap m2) =
  forallb (fun e => match dict_get (fst e) m2 with
                    | Some v' => kinds_agree (snd e) v'
                    | None => true
                    end) m1.
Proof.
  simpl. induction m1 as [ | [k v] m1 IH ]; simpl; [ reflexivity | ].
  rewrite IH. reflexivity.
Qed.

Lemma forallb_false_exists {A} (f : A -> bool) (l : list A) :
  forallb f l = false -> exists x, In x l /\ f x = false.
Proof.
  induction l as [ | x l IH ]; simpl; intros Hf; [ discriminate Hf | ].
  destruct (f x) eqn:Hx.
  - destruct (IH Hf) as [y [Hy Hfy]]. exists y. split; [ right; exact Hy | exact Hfy ].
  - exists x. split; [ left; reflexivity | exact Hx ].
Qed.

Lemma flat_map_not_nil {A B} (f : A -> list B) (l : list A) (x : A) :
  In x l -> f x <> [] -> flat_map f l <> [].
Proof.
  intros Hx Hfx Hnil. apply Hfx.
  rewrite flat_map_concat_map in Hnil.
  assert (Hall : Forall (fun r => r = []) (List.map f l)).
  { clear -Hnil. induction (List.map f l) as [ | r rs IH ]; [ constructor | ].
    simpl in Hnil. apply app_eq_nil in Hnil as [Hr Hrs].
    constructor; [ exact Hr | exact (IH Hrs) ]. }
  rewrite List.Forall_forall in Hall. apply Hall. apply in_map. exact Hx.
Qed.

Lemma same_keys_length (m1 m2 : dict) :
  List.NoDup (keys m1) -> List.NoDup (keys m2) ->
  (forall e, In e m1 -> dict_has (fst e) m2 = true) ->
  (forall e, In e m2 -> dict_has (fst e) m1 = true) ->
  List.length m1 = List.length m2.
Proof.
  intros H1 H2 H12 H21.
  assert (Hlen : forall m, List.length m = List.length (keys m)).
  { intros m. unfold keys. rewrite List.length_map. reflexivity. }
  rewrite (Hlen m1), (Hlen m2).
  apply Nat.le_antisymm; apply NoDup_incl_length; try assumption.
  - intros k Hk. unfold keys in Hk. apply in_map_iff in Hk as [e [<- He]].
    apply dict_has_In. exact (H12 e He).
  - intros k Hk. unfold keys in Hk. apply in_map_iff in Hk as [e [<- He]].
    apply dict_has_In. exact (H21 e He).
Qed.

(** X4: when no dictionary stands against a list, two containers that
    compare unequal have a report that is not empty. *)
Theorem generate_diff_report_complete (old_obj : value) :
  forall (new_obj : value) (path : string),
    wf_value old_obj -> wf_value new_obj ->
    is_container old_obj = true -> is_container new_obj = true ->
    kinds_agree old_obj new_obj = true ->
    json_objects_equal old_obj new_obj = false ->
    generate_diff_report old_obj new_obj path <> [].
Proof.
  induction old_obj as [ | | | | old_l IH | old_d IH ] using value_ind_nested;
    intros new_obj path Hold Hnew Hc1 Hc2 Hkinds Hne; try discriminate Hc1.
  - (* lists *)
    destruct new_obj as [ | | | | new_l | new_d ]; try discriminate Hc2;
      [ | discriminate Hkinds ].
    cbn [generate_diff_report]. rewrite Hne. simpl.
    destruct (negb (List.length old_l =? List.length new_l)%nat); discriminate.
  - (* dictionaries *)
    destruct new_obj as [ | | | | new_l | new_d ]; try discriminate Hc2;
      [ discriminate Hkinds | ].
    rewrite generate_diff_report_dict.
    destruct (forallb (fun e : string * value => dict_has (fst e) new_d) old_d)
      eqn:Hremoved.
    2:{ apply forallb_false_exists in Hremoved as [e [He Hhas]].
        intros Hnil. apply app_eq_nil in Hnil as [Hnil _]. revert Hnil.
        apply (flat_map_not_nil _ _ e He). rewrite Hhas. discriminate. }
    destruct (forallb (fun e : string * value => dict_has (fst e) old_d) new_d)
      eqn:Hadded.
    2:{ apply forallb_false_exists in Hadded as [e [He Hhas]].
        intros Hnil. apply app_eq_nil in Hnil as [_ Hnil].
        apply app_eq_nil in Hnil as [Hnil _]. revert Hnil.
        apply (flat_map_not_nil _ _ e He). rewrite Hhas. discriminate. }
    rewrite forallb_forall in Hremoved, Hadded.
    pose proof Hold as Hold'. pose proof Hnew as Hnew'.
    apply wf_map_iff in Hold' as [Hnd1 Hwf1]. apply wf_map_iff in Hnew' as [Hnd2 _].
    rewrite (json_objects_equal_py_eq _ _ Hnew), py_eq_dict in Hne.
    rewrite (same_keys_length old_d new_d Hnd1 Hnd2 Hremoved Hadded) in Hne.
    rewrite Nat.eqb_refl in Hne. simpl in Hne.
    apply forallb_false_exists in Hne as [e [He Hmatch]].
    intros Hnil. apply app_eq_nil in Hnil as [_ Hnil].
    apply app_eq_nil in Hnil as [_ Hnil]. revert Hnil.
    apply (flat_map_not_nil _ _ e He).
    unfold modified_lines. unfold item_matches in Hmatch.
    specialize (Hremoved e He). unfold dict_has in Hremoved.
    destruct (dict_get (fst e) new_d) as [ new_v | ] eqn:Hg; [ | discriminate Hremoved ].
    assert (Hwfn : wf_value new_v) by exact (wf_map_get _ _ _ Hnew Hg).
    rewrite (json_objects_equal_py_eq _ _ Hwfn), Hmatch. simpl.
    destruct (is_container (snd e) && is_container new_v) eqn:Hboth;
      [ | discriminate ].
    apply andb_true_iff in Hboth as [Hce Hcn].
    rewrite List.Forall_forall in IH, Hwf1.
    apply (IH e He); try assumption.
    + apply Hwf1. exact He.
    + rewrite kinds_agree_dict, forallb_forall in Hkinds.
      specialize (Hkinds e He). rewrite Hg in Hkinds. exact Hkinds.
    + rewrite (json_objects_equal_py_eq _ _ Hwfn). exact Hmatch.
Qed.

Lemma generate_diff_report_complete_witness :
  generate_diff_report
    (JMap [("a", JMap [("x", JList [JNum 1])]); ("b", JNum 2)])
    (JMap [("b", JNum 2); ("a", JMap [("x", JList [JNum 1; JNum 2])])]) ""
  <> [].
Proof.
  apply generate_diff_report_complete;
    [ solve_wf | solve_wf | reflexivity | reflexivity | reflexivity | reflexivity ].
Defined.

(** ** Further properties of the comment stripper *)

(** A comment found at or after the end of a prefix is not found in the
    prefix. *)
Lemma scan_line_prefix (pre suf : string) :
  forall in_string escaped i,
    match scan_line in_string escaped i (pre ++ suf) with
    | Some n => (i + String.length pre <= n)%nat
    | None => True
    end ->
    scan_line in_string escaped i pre = None.
Proof.
  induction pre as [ | c pre IH ]; intros in_string escaped i Hscan; [ reflexivity | ].
  simpl in Hscan |- *.
  assert (Hnext : forall s e,
             match scan_line s e (S i) (pre ++ suf) with
             | Some n => (i + S (String.length pre) <= n)%nat
             | None => True
             end -> scan_line s e (S i) pre = None).
  { intros s e Hs. apply IH. destruct (scan_line s e (S i) (pre ++ suf)); [ lia | exact I ]. }
  destruct escaped; [ apply Hnext; exact Hscan | ].
  destruct (Ascii.eqb c BACKSLASH); [ apply Hnext; exact Hscan | ].
  destruct (Ascii.eqb c DQUOTE); [ apply Hnext; exact Hscan | ].
  destruct (negb in_string && Ascii.eqb c SLASH) eqn:Htest; simpl in Hscan |- *;
    [ | apply Hnext; exact Hscan ].
  destruct pre as [ | next pre' ]; [ reflexivity | ].
  cbn [String.append] in Hscan.
  destruct (Ascii.eqb next SLASH); [ cbn [String.length] in Hscan; lia | ].
  apply Hnext. exact Hscan.
Qed.

Lemma length_substring_le (n : nat) (s : string) :
  (String.length (substring 0 n s) <= n)%nat.
Proof.
  revert s. induction n as [ | n IH ]; intros [ | c s ]; simpl; try lia.
  specialize (IH s). lia.
Qed.

Lemma is_prefix_length (s t : string) :
  is_prefix s t -> (String.length s <= String.length t)%nat.
Proof. intros [u ->]. rewrite length_append. lia. Qed.

Lemma first_comment_bound (line : string) (i : nat) :
  first_comment line = Some i -> (i < String.length line)%nat.
Proof.
  unfold first_comment. intros Hfind. apply find_some in Hfind as [Hin _].
  apply in_seq in Hin. lia.
Qed.

Lemma strip_line_length (line : string) (i : nat) :
  first_comment line = Some i -> (String.length (strip_line line) <= i)%nat.
Proof.
  intros Hfirst. unfold strip_line. rewrite scan_line_first_comment, Hfirst.
  pose proof (is_prefix_length _ _ (rstrip_is_prefix (substring 0 i line))).
  pose proof (length_substring_le i line). lia.
Qed.

(** What [strip_comments] keeps of a line has no comment. *)
Lemma strip_line_clean (line : string) : first_comment (strip_line line) = None.
Proof.
  rewrite <- scan_line_first_comment.
  destruct (strip_line_is_prefix line) as [u Hu].
  apply (scan_line_prefix (strip_line line) u).
  rewrite <- Hu, scan_line_first_comment.
  destruct (first_comment line) as [ i | ] eqn:Hfirst; [ | exact I ].
  pose proof (strip_line_length line i Hfirst). lia.
Qed.

Lemma strip_line_fixed (line : string) :
  strip_line line = line <-> first_comment line = None.
Proof.
  split.
  - intros Hfix. rewrite <- Hfix. apply strip_line_clean.
  - intros Hnone. unfold strip_line. rewrite scan_line_first_comment, Hnone.
    reflexivity.
Qed.

Lemma join_lines_split (text : string) : join_lines (split_lines text) = text.
Proof.
  unfold join_lines, split_lines.
  induction text as [ | c rest IH ]; [ reflexivity | ].
  simpl. destruct (Ascii.eqb c NEWLINE) eqn:Hc.
  - apply Ascii.eqb_eq in Hc. subst c.
    pose proof (split_on_nonempty NEWLINE rest) as Hne.
    destruct (split_on NEWLINE rest) as [ | piece pieces ]; [ contradiction | ].
    simpl in IH |- *. rewrite IH. reflexivity.
  - pose proof (split_on_nonempty NEWLINE rest) as Hne.
    destruct (split_on NEWLINE rest) as [ | piece pieces ]; [ contradiction | ].
    destruct pieces as [ | piece' pieces ]; simpl in IH |- *; rewrite <- IH; reflexivity.
Qed.

Lemma map_fixed {A} (f : A -> A) (l : list A) :
  List.map f l = l <-> Forall (fun x => f x = x) l.
Proof.
  induction l as [ | x l IH ]; simpl.
  - split; [ constructor | reflexivity ].
  - split.
    + intros Heq. injection Heq as Hx Hl. constructor; [ exact Hx | apply IH; exact Hl ].
    + intros Hall. inversion Hall; subst. f_equal; [ assumption | apply IH; assumption ].
Qed.

Lemma strip_comments_clean (text : string) :
  Forall (fun line => first_comment line = None)
         (split_lines (strip_comments text)).
Proof.
  rewrite strip_comments_lines. apply List.Forall_map.
  apply List.Forall_forall. intros line _. apply strip_line_clean.
Qed.

Lemma strip_comments_fixed (text : string) :
  Forall (fun line => first_comment line = None) (split_lines text) ->
  strip_comments text = text.
Proof.
  intros Hclean. unfold strip_comments.
  assert (Hfix : List.map strip_line (split_lines text) = split_lines text).
  { apply map_fixed. eapply List.Forall_impl; [ | exact Hclean ].
    intros line Hline. apply strip_line_fixed. exact Hline. }
  rewrite Hfix. apply join_lines_split.
Qed.

(** X5: stripping is idempotent: no line of the output has a comment, and a
    second pass changes nothing. *)
Theorem strip_comments_idempotent (text : string) :
  Forall (fun line => first_comment line = None)
         (split_lines (strip_comments text)) /\
  strip_comments (strip_comments text) = strip_comments text.
Proof.
  split; [ apply strip_comments_clean | ].
  apply strip_comments_fixed. apply strip_comments_clean.
Qed.

(** X6: the texts [strip_comments] returns unchanged are those without a
    comment in any line. *)
Theorem strip_comments_unchanged (text : string) :
  strip_comments text = text <->
  Forall (fun line => first_comment line = None) (split_lines text).
Proof.
  split.
  - intros Hfix. rewrite <- Hfix. apply strip_comments_clean.
  - apply strip_comments_fixed.
Qed.

(** ** Comments around serialised JSON *)

Lemma scans_clean_app (a b : string) :
  scans_clean a -> scans_clean b -> scans_clean (a ++ b).
Proof.
  intros Ha Hb i rest.
  rewrite append_assoc, Ha, Hb, length_append, Nat.add_assoc. reflexivity.
Qed.

Lemma scans_inside_app (a b : string) :
  scans_inside a -> scans_inside b -> scans_inside (a ++ b).
Proof.
  intros Ha Hb i rest.
  rewrite append_assoc, Ha, Hb, length_append, Nat.add_assoc. reflexivity.
Qed.

Lemma plain_text_app (a b : string) :
  plain_text (a ++ b) = plain_text a && plain_text b.
Proof.
  induction a as [ | c a IH ]; simpl; [ reflexivity | ].
  rewrite IH, !andb_assoc. reflexivity.
Qed.

Lemma plain_text_clean (t : string) : plain_text t = true -> scans_clean t.
Proof.
  induction t as [ | c t IH ]; intros Hp i rest.
  - simpl. rewrite Nat.add_0_r. reflexivity.
  - simpl in Hp. repeat (apply andb_true_iff in Hp as [Hp ?]).
    cbn [String.append scan_line String.length].
    apply negb_true_iff in Hp. rewrite Hp.
    match goal with H : negb (Ascii.eqb c DQUOTE) = true |- _ =>
      apply negb_true_iff in H; rewrite H end.
    match goal with H : negb (Ascii.eqb c SLASH) = true |- _ =>
      apply negb_true_iff in H; rewrite H end.
    simpl. rewrite (IH ltac:(assumption)). f_equal. lia.
Qed.

Lemma plain_text_no_newline (t : string) :
  plain_text t = true -> count_newlines t = O.
Proof.
  induction t as [ | c t IH ]; intros Hp; [ reflexivity | ].
  simpl in Hp. repeat (apply andb_true_iff in Hp as [Hp ?]).
  simpl.
  match goal with H : negb (Ascii.eqb c NEWLINE) = true |- _ =>
    apply negb_true_iff in H; rewrite H end.
  apply IH. assumption.
Qed.

Lemma escape_char_inside (c : ascii) : scans_inside (escape_char c).
Proof.
  intros i rest.
  destruct c as [[] [] [] [] [] [] [] []];
    match goal with |- context [ escape_char ?c ] =>
      let e := eval vm_compute in (escape_char c) in
      change (escape_char c) with e
    end;
    rewrite Nat.add_comm; reflexivity.
Qed.

Lemma escape_char_no_newline (c : ascii) : count_newlines (escape_char c) = O.
Proof. destruct c as [[] [] [] [] [] [] [] []]; vm_compute; reflexivity. Qed.

Lemma escape_string_inside (s : string) : scans_inside (escape_string s).
Proof.
  induction s as [ | c s IH ]; simpl.
  - intros i rest. simpl. rewrite Nat.add_0_r. reflexivity.
  - apply scans_inside_app; [ apply escape_char_inside | exact IH ].
Qed.

Lemma escape_string_no_newline (s : string) : count_newlines (escape_string s) = O.
Proof.
  induction s as [ | c s IH ]; simpl; [ reflexivity | ].
  rewrite count_newlines_append, escape_char_no_newline, IH. reflexivity.
Qed.

Lemma encode_string_clean (s : string) : scans_clean (encode_string s).
Proof.
  intros i rest. unfold encode_string.
  cbn [String.append scan_line String.length]. simpl negb.
  change (Ascii.eqb DQUOTE BACKSLASH) with false.
  change (Ascii.eqb DQUOTE DQUOTE) with true. cbv iota.
  rewrite append_assoc, escape_string_inside.
  cbn [String.append scan_line]. 
  change (Ascii.eqb DQUOTE BACKSLASH) with false.
  change (Ascii.eqb DQUOTE DQUOTE) with true. cbv iota. simpl negb.
  rewrite length_append. simpl String.length. f_equal. lia.
Qed.

Lemma encode_string_no_newline (s : string) : count_newlines (encode_string s) = O.
Proof.
  unfold encode_string. simpl.
  rewrite count_newlines_append, escape_string_no_newline. reflexivity.
Qed.

Lemma plain_text_uint (d : Decimal.uint) :
  plain_text (NilEmpty.string_of_uint d) = true.
Proof. induction d; simpl; try reflexivity; exact IHd. Qed.

Lemma plain_text_str_of_Z (n : Z) : plain_text (str_of_Z n) = true.
Proof.
  unfold str_of_Z, NilZero.string_of_int, NilZero.string_of_uint.
  destruct (Z.to_int n) as [ d | d ]; destruct d; try reflexivity;
    try apply (plain_text_uint (_ d)); simpl; apply plain_text_uint.
Qed.

(** Serialised JSON is one line on which nothing reads as a comment. *)
Lemma dumps_tame (v : value) :
  scans_clean (dumps v) /\ count_newlines (dumps v) = O.
Proof.
  assert (Hplain : forall t, plain_text t = true ->
                     scans_clean t /\ count_newlines t = O).
  { intros t Ht. split; [ apply plain_text_clean | apply plain_text_no_newline ];
      exact Ht. }
  assert (Happ : forall a b,
             scans_clean a /\ count_newlines a = O ->
             scans_clean b /\ count_newlines b = O ->
             scans_clean (a ++ b) /\ count_newlines (a ++ b) = O).
  { intros a b [Ha Hna] [Hb Hnb]. split; [ apply scans_clean_app; assumption | ].
    rewrite count_newlines_append, Hna, Hnb. reflexivity. }
  assert (Hstr : forall s, scans_clean (encode_string s) /\
                           count_newlines (encode_string s) = O).
  { intros s. split; [ apply encode_string_clean | apply encode_string_no_newline ]. }
  induction v as [ | b | z | s | l IH | m IH ] using value_ind_nested.
  - apply Hplain. reflexivity.
  - destruct b; apply Hplain; reflexivity.
  - apply Hplain. apply plain_text_str_of_Z.
  - apply Hstr.
  - destruct IH as [ | x xs Hx Hxs ]; [ apply Hplain; reflexivity | ].
    cbn [dumps].
    apply (Happ "["); [ apply Hplain; reflexivity | ].
    apply Happ; [ exact Hx | ].
    induction Hxs as [ | y ys Hy _ IHys ].
    + apply Hplain. reflexivity.
    + rewrite !append_assoc.
      apply (Happ ", "); [ apply Hplain; reflexivity | ].
      apply Happ; [ exact Hy | exact IHys ].
  - destruct IH as [ | [k x] xs Hx Hxs ]; [ apply Hplain; reflexivity | ].
    cbn [dumps]. simpl in Hx.
    apply (Happ "{"); [ apply Hplain; reflexivity | ].
    apply Happ; [ apply Hstr | ].
    apply (Happ ": "); [ apply Hplain; reflexivity | ].
    apply Happ; [ exact Hx | ].
    induction Hxs as [ | [k' y] ys Hy _ IHys ].
    + apply Hplain. reflexivity.
    + rewrite !append_assoc. simpl in Hy.
      apply (Happ ", "); [ apply Hplain; reflexivity | ].
      apply Happ; [ apply Hstr | ].
      apply (Happ ": "); [ apply Hplain; reflexivity | ].
      apply Happ; [ exact Hy | exact IHys ].
Qed.

Lemma strip_comments_one_line (line : string) :
  count_newlines line = O -> strip_comments line = strip_line line.
Proof.
  intros Hline. unfold strip_comments. rewrite (split_lines_line line Hline).
  reflexivity.
Qed.

Lemma scans_clean_first_comment (line : string) :
  scans_clean line -> first_comment line = None.
Proof.
  intros Hclean. rewrite <- scan_line_first_comment.
  rewrite <- (append_nil_r line) at 1. rewrite Hclean. reflexivity.
Qed.

(** The lines of two texts put end to end: the last line of the first text
    and the first line of the second become one line. *)
Lemma split_lines_app (a b : string) :
  split_lines (a ++ b) =
  List.app (List.removelast (split_lines a))
           ((List.last (split_lines a) "" ++ List.hd "" (split_lines b))
            :: List.tl (split_lines b)).
Proof.
  unfold split_lines. induction a as [ | c a IH ].
  - simpl. pose proof (split_on_nonempty NEWLINE b) as Hne.
    destruct (split_on NEWLINE b); [ contradiction | reflexivity ].
  - pose proof (split_on_nonempty NEWLINE a) as Hne.
    cbn [String.append split_on]. rewrite IH.
    destruct (split_on NEWLINE a) as [ | p ps ]; [ contradiction | ].
    destruct (Ascii.eqb c NEWLINE).
    + destruct ps; reflexivity.
    + destruct ps as [ | p' ps ]; reflexivity.
Qed.

Lemma Forall_removelast {A} (P : A -> Prop) (l : list A) :
  Forall P l -> Forall P (List.removelast l).
Proof.
  induction 1 as [ | x l Hx Hl IH ]; [ constructor | ].
  simpl. destruct l; [ constructor | constructor; assumption ].
Qed.

Lemma Forall_last {A} (P : A -> Prop) (l : list A) (d : A) :
  Forall P l -> l <> [] -> P (List.last l d).
Proof.
  induction 1 as [ | x l Hx Hl IH ]; intros Hne; [ contradiction | ].
  simpl. destruct l; [ exact Hx | apply IH; discriminate ].
Qed.

Lemma lines_clean_app (a b : string) :
  lines_clean a -> lines_clean b -> lines_clean (a ++ b).
Proof.
  unfold lines_clean. intros Ha Hb. rewrite split_lines_app.
  pose proof (split_on_nonempty NEWLINE a) as Hna.
  pose proof (split_on_nonempty NEWLINE b) as Hnb.
  fold (split_lines a) in Hna. fold (split_lines b) in Hnb.
  apply Forall_app. split; [ apply Forall_removelast; exact Ha | ].
  destruct (split_lines b) as [ | q qs ]; [ contradiction | ].
  inversion Hb; subst. constructor; [ | assumption ].
  apply scans_clean_app; [ apply Forall_last; assumption | assumption ].
Qed.

Lemma lines_clean_one (t : string) :
  scans_clean t -> count_newlines t = O -> lines_clean t.
Proof.
  intros Hclean Hline. unfold lines_clean. rewrite (split_lines_line t Hline).
  constructor; [ exact Hclean | constructor ].
Qed.

Lemma plain_text_spaces (n : nat) : plain_text (spaces n) = true.
Proof. induction n as [ | n IH ]; [ reflexivity | exact IH ]. Qed.

Lemma lines_clean_newline_indent (level : nat) : lines_clean (newline_indent level).
Proof.
  unfold newline_indent, lines_clean, split_lines.
  cbn [split_on]. change (Ascii.eqb NEWLINE NEWLINE) with true. cbv iota.
  constructor.
  - intros i rest. simpl. rewrite Nat.add_0_r. reflexivity.
  - fold (split_lines (spaces (2 * level))). apply lines_clean_one.
    + apply plain_text_clean. apply plain_text_spaces.
    + apply plain_text_no_newline. apply plain_text_spaces.
Qed.

(** Indented JSON has no line on which something reads as a comment. *)
Lemma dumps_indent_clean (v : value) :
  forall level, lines_clean (dumps_indent level v).
Proof.
  assert (Hplain : forall t, plain_text t = true -> lines_clean t).
  { intros t Ht. apply lines_clean_one;
      [ apply plain_text_clean | apply plain_text_no_newline ]; exact Ht. }
  assert (Hstr : forall s, lines_clean (encode_string s)).
  { intros s. apply lines_clean_one;
      [ apply encode_string_clean | apply encode_string_no_newline ]. }
  induction v as [ | b | z | s | l IH | m IH ] using value_ind_nested;
    intros level.
  - apply Hplain. reflexivity.
  - destruct b; apply Hplain; reflexivity.
  - apply Hplain. apply plain_text_str_of_Z.
  - apply Hstr.
  - destruct IH as [ | x xs Hx Hxs ]; [ apply Hplain; reflexivity | ].
    cbn [dumps_indent].
    apply (lines_clean_app "["); [ apply Hplain; reflexivity | ].
    apply lines_clean_app; [ apply lines_clean_newline_indent | ].
    apply lines_clean_app; [ apply Hx | ].
    induction Hxs as [ | y ys Hy _ IHys ].
    + apply (lines_clean_app ""); [ apply Hplain; reflexivity | ].
      apply lines_clean_app;
        [ apply lines_clean_newline_indent | apply Hplain; reflexivity ].
    + rewrite !append_assoc.
      apply (lines_clean_app ","); [ apply Hplain; reflexivity | ].
      apply lines_clean_app; [ apply lines_clean_newline_indent | ].
      apply lines_clean_app; [ apply Hy | exact IHys ].
  - destruct IH as [ | [k x] xs Hx Hxs ]; [ apply Hplain; reflexivity | ].
    cbn [dumps_indent]. simpl in Hx.
    apply (lines_clean_app "{"); [ apply Hplain; reflexivity | ].
    apply lines_clean_app; [ apply lines_clean_newline_indent | ].
    apply lines_clean_app; [ apply Hstr | ].
    apply (lines_clean_app ": "); [ apply Hplain; reflexivity | ].
    apply lines_clean_app; [ apply Hx | ].
    induction Hxs as [ | [k' y] ys Hy _ IHys ].
    + apply (lines_clean_app ""); [ apply Hplain; reflexivity | ].
      apply lines_clean_app;
        [ apply lines_clean_newline_indent | apply Hplain; reflexivity ].
    + rewrite !append_assoc. simpl in Hy.
      apply (lines_clean_app ","); [ apply Hplain; reflexivity | ].
      apply lines_clean_app; [ apply lines_clean_newline_indent | ].
      apply lines_clean_app; [ apply Hstr | ].
      apply (lines_clean_app ": "); [ apply Hplain; reflexivity | ].
      apply lines_clean_app; [ apply Hy | exact IHys ].
Qed.

Lemma strip_comments_lines_clean (t : string) :
  lines_clean t -> strip_comments t = t.
Proof.
  intros Hclean. apply strip_comments_fixed.
  eapply List.Forall_impl; [ | exact Hclean ].
  intros line Hline. apply scans_clean_first_comment. exact Hline.
Qed.

(** X7: JSON text as [json.dumps] writes it, on one line or indented, goes
    through [strip_comments] unchanged, and so does the text of an artifact:
    a [//] inside a string literal is never taken for a comment. *)
Theorem strip_comments_dumps (v : value) :
  strip_comments (dumps v) = dumps v /\
  (forall level, strip_comments (dumps_indent level v) = dumps_indent level v) /\
  strip_comments (dumps_indent 0 v ++ String NEWLINE "")
  = dumps_indent 0 v ++ String NEWLINE "".
Proof.
  split; [ | split ].
  - destruct (dumps_tame v) as [Hclean Hline].
    apply strip_comments_lines_clean. apply lines_clean_one; assumption.
  - intros level. apply strip_comments_lines_clean. apply dumps_indent_clean.
  - apply strip_comments_lines_clean.
    apply lines_clean_app; [ apply dumps_indent_clean | ].
    apply (lines_clean_newline_indent 0).
Qed.

Lemma is_space_not_special (c : ascii) :
  is_space c = true ->
  Ascii.eqb c BACKSLASH = false /\ Ascii.eqb c DQUOTE = false /\
  Ascii.eqb c SLASH = false.
Proof.
  destruct c as [[] [] [] [] [] [] [] []]; vm_compute; intros Hs;
    try discriminate Hs; repeat split.
Qed.

Lemma all_space_clean (ws : string) : all_space ws = true -> scans_clean ws.
Proof.
  induction ws as [ | c ws IH ]; intros Hs i rest.
  - simpl. rewrite Nat.add_0_r. reflexivity.
  - simpl in Hs. apply andb_true_iff in Hs as [Hc Hs].
    destruct (is_space_not_special c Hc) as (Hb & Hq & Hsl).
    cbn [String.append scan_line String.length]. rewrite Hb, Hq, Hsl. simpl.
    rewrite (IH Hs). f_equal. lia.
Qed.

Lemma rstrip_all_space (ws : string) : all_space ws = true -> rstrip ws = "".
Proof.
  induction ws as [ | c ws IH ]; intros Hs; [ reflexivity | ].
  simpl in Hs. apply andb_true_iff in Hs as [Hc Hs].
  simpl. rewrite (IH Hs), Hc. reflexivity.
Qed.

Lemma rstrip_app_space (t ws : string) :
  all_space ws = true -> rstrip (t ++ ws) = rstrip t.
Proof.
  intros Hs. induction t as [ | c t IH ]; simpl.
  - apply rstrip_all_space. exact Hs.
  - rewrite IH. reflexivity.
Qed.

Lemma ends_solid_rstrip (t : string) : ends_solid t = true -> rstrip t = t.
Proof.
  induction t as [ | c t IH ]; intros Hs; [ discriminate Hs | ].
  destruct t as [ | c' t ].
  - simpl in Hs |- *. apply negb_true_iff in Hs. rewrite Hs. reflexivity.
  - change (ends_solid (String c (String c' t))) with (ends_solid (String c' t)) in Hs.
    change (rstrip (String c (String c' t)))
      with (match rstrip (String c' t) with
            | EmptyString => if is_space c then EmptyString else String c EmptyString
            | r => String c r
            end).
    rewrite (IH Hs). reflexivity.
Qed.

Lemma ends_solid_app (a b : string) :
  ends_solid b = true -> ends_solid (a ++ b) = true.
Proof.
  intros Hb. induction a as [ | c a IH ]; [ exact Hb | ].
  simpl. destruct (a ++ b) as [ | c' t ] eqn:E; [ discriminate IH | exact IH ].
Qed.

Lemma ends_solid_uint (d : Decimal.uint) :
  d <> Decimal.Nil -> ends_solid (NilEmpty.string_of_uint d) = true.
Proof.
  induction d; intros Hne; [ contradiction | .. ];
    simpl; destruct d; try reflexivity; apply IHd; discriminate.
Qed.

Lemma ends_solid_str_of_Z (n : Z) : ends_solid (str_of_Z n) = true.
Proof.
  assert (Hu : forall d, ends_solid (NilZero.string_of_uint d) = true).
  { intros d. unfold NilZero.string_of_uint.
    destruct d; try reflexivity; apply ends_solid_uint; discriminate. }
  unfold str_of_Z, NilZero.string_of_int.
  destruct (Z.to_int n) as [ d | d ]; [ apply Hu | ].
  apply (ends_solid_app "-"). apply Hu.
Qed.

Lemma ends_solid_dumps (v : value) : ends_solid (dumps v) = true.
Proof.
  destruct v as [ | [ | ] | z | s | [ | x xs ] | [ | [k x] xs ] ];
    try reflexivity.
  - apply ends_solid_str_of_Z.
  - unfold dumps, encode_string.
    apply (ends_solid_app (String DQUOTE (escape_string s)) (String DQUOTE "")).
    reflexivity.
  - cbn [dumps]. repeat (apply ends_solid_app). reflexivity.
  - cbn [dumps]. repeat (apply ends_solid_app). reflexivity.
Qed.

(** X8: a comment written after serialised JSON is removed together with
    the white space before it, and the JSON text is recovered as it was. *)
Theorem strip_comments_trailing_comment (v : value) (ws comment : string) :
  all_space ws = true -> count_newlines ws = O -> count_newlines comment = O ->
  strip_comments (dumps v ++ ws ++ "//" ++ comment) = dumps v.
Proof.
  intros Hws Hnw Hnc.
  destruct (dumps_tame v) as [Hclean Hline].
  rewrite strip_comments_one_line.
  2:{ rewrite !count_newlines_append, Hline, Hnw, Hnc. reflexivity. }
  unfold strip_line.
  rewrite Hclean, (all_space_clean ws Hws).
  cbn [String.append scan_line]. simpl.
  rewrite <- append_assoc, <- length_append, substring_prefix.
  rewrite (rstrip_app_space _ _ Hws).
  apply ends_solid_rstrip. apply ends_solid_dumps.
Qed.

Lemma strip_comments_trailing_comment_witness :
  strip_comments
    (dumps (JMap [("url", JStr "http://x/y"); ("n", JList [JNum (-12); JNull])])
     ++ "  " ++ "//" ++ " see http://x // twice")
  = dumps (JMap [("url", JStr "http://x/y"); ("n", JList [JNum (-12); JNull])]).
Proof.
  apply strip_comments_trailing_comment; reflexivity.
Defined.

(** ** Further properties of the resolver *)

(** *** The import path *)

Lemma contains_hash_cons (c : ascii) (s : string) :
  contains "#" (String c s) = Ascii.eqb c HASH || contains "#" s.
Proof.
  cbn [contains String.prefix]. f_equal.
  destruct (ascii_dec "#" c) as [ <- | Hne ].
  - destruct s; reflexivity.
  - symmetry. apply Ascii.eqb_neq. intros ->. apply Hne. reflexivity.
Qed.

Lemma split_hash_none (s : string) :
  split_hash s = None <-> contains "#" s = false.
Proof.
  induction s as [ | c s IH ]; [ split; reflexivity | ].
  rewrite contains_hash_cons. simpl.
  destruct (Ascii.eqb c HASH); simpl; [ split; discriminate | ].
  rewrite <- IH. destruct (split_hash s) as [ [p k] | ]; split;
    try discriminate; reflexivity.
Qed.

Lemma split_hash_some (s p k : string) :
  split_hash s = Some (p, k) ->
  s = p ++ String HASH k /\ contains "#" p = false.
Proof.
  revert p. induction s as [ | c s IH ]; intros p Hs; [ discriminate Hs | ].
  simpl in Hs. destruct (Ascii.eqb c HASH) eqn:Hc.
  - injection Hs as <- <-. apply Ascii.eqb_eq in Hc. subst c.
    split; reflexivity.
  - destruct (split_hash s) as [ [p' k'] | ]; [ | discriminate Hs ].
    injection Hs as <- <-. destruct (IH p' eq_refl) as [-> Hp].
    split; [ reflexivity | ]. rewrite contains_hash_cons, Hc. exact Hp.
Qed.

(** X9: an import string without ['#'] is refused with the [ValueError] of
    [resolve_import_path]; any other string is cut at its first ['#'], the
    key being all that follows. *)
Theorem resolve_import_path_string `{Files} (base_dir : Path) (s : string)
  (current_file : Path) :
  (contains "#" s = false ->
   resolve_import_path base_dir (JStr s) current_file
   = Raise (ValueError_no_hash (JStr s))) /\
  (contains "#" s = true ->
   exists path_part key_part,
     s = path_part ++ String HASH key_part /\
     contains "#" path_part = false /\
     resolve_import_path base_dir (JStr s) current_file
     = Ok (if String.eqb path_part "" then current_file
           else if String.prefix "~/" path_part
                then path_join base_dir (drop2 path_part)
                else path_join (path_parent current_file) path_part,
           key_part)).
Proof.
  split; intros Hc.
  - apply split_hash_none in Hc. simpl. rewrite Hc. reflexivity.
  - destruct (split_hash s) as [ [p k] | ] eqn:Hs.
    + destruct (split_hash_some s p k Hs) as [Heq Hp].
      exists p, k. split; [ exact Heq | ]. split; [ exact Hp | ].
      simpl. rewrite Hs. reflexivity.
    + apply split_hash_none in Hs. congruence.
Qed.

Lemma resolve_import_path_string_witness :
  @resolve_import_path ex_fs ex_base_dir (JStr "templates/master.json") ex_device_file
  = Raise (ValueError_no_hash (JStr "templates/master.json")).
Proof.
  apply (@resolve_import_path_string ex_fs ex_base_dir "templates/master.json"
           ex_device_file).
  reflexivity.
Defined.

(** *** Documents without import *)

Lemma frames_dict (m : dict) (e : string * value) :
  In e m -> (S (frames (snd e)) <= frames (JMap m))%nat.
Proof.
  intros He. simpl. apply le_n_S.
  induction m as [ | [k x] m IH ]; [ contradiction | ].
  destruct He as [ <- | He ]; simpl; [ lia | ].
  specialize (IH He). lia.
Qed.

Lemma frames_list (l : list value) (x : value) :
  In x l -> (S (frames x) <= frames (JList l))%nat.
Proof.
  intros Hx. simpl. apply le_n_S.
  induction l as [ | y l IH ]; [ contradiction | ].
  destruct Hx as [ <- | Hx ]; [ lia | ].
  specialize (IH Hx). lia.
Qed.

Lemma resolve_items_id (f : value -> M value) (d : dict) :
  (forall e, In e d -> forall st, f (snd e) st = (Ok (snd e), st)) ->
  forall st, resolve_items f d st = (Ok d, st).
Proof.
  induction d as [ | [k v] d IH ]; intros Hf st; [ reflexivity | ].
  simpl. rewrite (bind_of_ok _ _ _ _ _ (Hf (k, v) (or_introl eq_refl) st)).
  rewrite (bind_of_ok _ _ _ _ _ (IH (fun e He => Hf e (or_intror He)) st)).
  reflexivity.
Qed.

Lemma resolve_list_id (f : value -> M value) (l : list value) :
  (forall x, In x l -> forall st, f x st = (Ok x, st)) ->
  forall st, resolve_list f l st = (Ok l, st).
Proof.
  induction l as [ | x l IH ]; intros Hf st; [ reflexivity | ].
  simpl. rewrite (bind_of_ok _ _ _ _ _ (Hf x (or_introl eq_refl) st)).
  rewrite (bind_of_ok _ _ _ _ _ (IH (fun y Hy => Hf y (or_intror Hy)) st)).
  reflexivity.
Qed.

Lemma resolve_imports_id `{Files} (base_dir : Path) (fuel : nat) :
  forall data current_file st,
    no_import data = true -> (frames data <= fuel)%nat ->
    resolve_imports base_dir fuel data current_file st = (Ok data, st).
Proof.
  induction fuel as [ | n IH ]; intros data cur st Hno Hfr.
  - destruct data; simpl in Hfr; lia.
  - destruct data as [ | b | z | s | l | d ]; try reflexivity.
    + cbn [resolve_imports]. rewrite no_import_list, forallb_forall in Hno.
      rewrite (bind_of_ok _ _ st l st); [ reflexivity | ].
      apply resolve_list_id. intros x Hx st0. apply IH; [ exact (Hno x Hx) | ].
      pose proof (frames_list l x Hx). lia.
    + cbn [resolve_imports]. rewrite no_import_dict in Hno.
      apply andb_true_iff in Hno as [Hhas Hno].
      unfold dict_has in Hhas.
      destruct (dict_get "$import" d); [ discriminate Hhas | ].
      rewrite forallb_forall in Hno.
      rewrite (bind_of_ok _ _ st d st); [ reflexivity | ].
      apply resolve_items_id. intros e He st0. apply IH; [ exact (Hno e He) | ].
      pose proof (frames_dict d e He). lia.
Qed.

(** X10: a document that has no [$import] is returned as it is, whatever the
    current file, and the cache is left as it was. *)
Theorem resolve_imports_without_import `{Files} (base_dir : Path) (data : value)
  (current_file : Path) (st : template_cache) (extra : nat) :
  no_import data = true ->
  resolve_imports base_dir (frames data + extra) data current_file st
  = (Ok data, st).
Proof.
  intros Hno. apply resolve_imports_id; [ exact Hno | lia ].
Qed.

Lemma resolve_imports_without_import_witness :
  @resolve_imports ex_fs ex_base_dir (frames ex_device_resolved + 0)
    ex_device_resolved ex_device_file empty
  = (Ok ex_device_resolved, empty).
Proof.
  apply (@resolve_imports_without_import ex_fs). reflexivity.
Defined.

(** X11: resolving is idempotent: what a resolution returned is returned
    unchanged by a second resolution, from any file and any cache. *)
Theorem resolve_imports_idempotent `{Files} (base_dir : Path) (fuel : nat)
  (data : value) (current_file : Path) (st : template_cache) (r : value) :
  fst (resolve_imports base_dir fuel data current_file st) = Ok r ->
  forall (extra : nat) (current_file' : Path) (st' : template_cache),
    resolve_imports base_dir (frames r + extra) r current_file' st' = (Ok r, st').
Proof.
  intros Hr extra cur' st'.
  destruct (resolve_imports base_dir fuel data current_file st) as [r0 st0] eqn:E.
  simpl in Hr. subst r0.
  apply resolve_imports_id; [ | lia ].
  exact (resolve_imports_no_import base_dir fuel _ _ _ _ _ E).
Qed.

Lemma resolve_imports_idempotent_witness :
  @resolve_imports ex_fs ex_base_dir (frames ex_device_resolved + 0)
    ex_device_resolved ex_master_file empty
  = (Ok ex_device_resolved, empty).
Proof.
  apply (@resolve_imports_idempotent ex_fs ex_base_dir 6 ex_device ex_device_file
           empty ex_device_resolved).
  vm_compute. reflexivity.
Defined.

(** *** Shape *)





(** *** Failing imports *)

(** X13: an import fails as its template does: a template file that cannot
    be loaded raises what the load raised, and a key the template dictionary
    lacks raises the [KeyError] that names the key and the file. *)
Theorem import_failure `{Files} (base_dir : Path) (fuel : nat) (d : dict)
  (current_file : Path) (st : template_cache) (import_path : value)
  (template_file : Path) (template_key : string) :
  dict_get "$import" d = Some import_path ->
  resolve_import_path base_dir import_path current_file
    = Ok (template_file, template_key) ->
  (forall e,
      lookup (path_str template_file) st = None ->
      load_json_file template_file = Raise e ->
      resolve_imports base_dir (S fuel) (JMap d) current_file st = (Raise e, st)) /\
  (forall fd,
      load_json_file template_file = Ok (JMap fd) ->
      cache_agrees st template_file (JMap fd) ->
      dict_get template_key fd = None ->
      fst (resolve_imports base_dir (S fuel) (JMap d) current_file st)
      = Raise (KeyError_not_found template_key (path_str template_file))).
Proof.
  intros Himp Hpath.
  rewrite (resolve_imports_import_frame base_dir fuel d current_file import_path
             template_file template_key Himp Hpath).
  split.
  - intros e Hnone Hload.
    unfold bind at 1. unfold get_template_value, bind, get_cache.
    rewrite Hnone. unfold lift. rewrite Hload. reflexivity.
  - intros fd Hload Hst Hkey.
    unfold bind at 1. unfold get_template_value, bind, get_cache.
    destruct Hst as [Hnone | Hsome].
    + rewrite Hnone. unfold lift, put_cache, ret. rewrite Hload, Hkey. reflexivity.
    + rewrite Hsome. unfold ret. rewrite Hkey. reflexivity.
Qed.

Lemma import_failure_witness :
  fst (@resolve_imports ex_fs ex_base_dir 1
         (JMap [("$import", JStr "templates/local.json#missing")])
         ex_device_file empty)
  = Raise (KeyError_not_found "missing" "cfg/0x027a/templates/local.json").
Proof.
  destruct (@import_failure ex_fs ex_base_dir 0
              [("$import", JStr "templates/local.json#missing")]
              ex_device_file empty (JStr "templates/local.json#missing")
              ex_local_file "missing" eq_refl eq_refl) as [_ Hkey].
  apply (Hkey [("label", JMap [("$import", JStr "#text")]); ("text", JStr "hello")]).
  - vm_compute. reflexivity.
  - left. reflexivity.
  - reflexivity.
Defined.

(** *** An entry that imports itself *)

Lemma self_import_diverges `{Files} (base_dir : Path) (file : Path) (fd : dict)
  (k : string) :
  dict_get k fd = Some (JMap [("$import", JStr (String HASH k))]) ->
  forall fuel st,
    lookup (path_str file) st = Some (JMap fd) ->
    resolve_imports base_dir fuel (JMap [("$import", JStr (String HASH k))]) file st
    = (OutOfFuel, st).
Proof.
  intros Hk. induction fuel as [ | n IH ]; intros st Hst; [ reflexivity | ].
  rewrite (resolve_imports_import_frame base_dir n
             [("$import", JStr (String HASH k))] file
             (JStr (String HASH k)) file k eq_refl
             (resolve_import_path_empty base_dir k file)).
  assert (Hget : get_template_value file k st
                 = (Ok (JMap [("$import", JStr (String HASH k))]), st)).
  { unfold get_template_value, bind, get_cache. rewrite Hst. unfold ret.
    rewrite Hk. reflexivity. }
  rewrite (bind_of_ok _ _ _ _ _ Hget).
  unfold bind. rewrite (IH st Hst). reflexivity.
Qed.

(** X14: the resolver does not detect cycles: an import of a template entry
    that imports itself gets no answer, whatever the depth allowed. *)
Theorem import_of_self_import_diverges `{Files} (base_dir : Path) (fuel : nat)
  (d : dict) (current_file : Path) (st : template_cache) (import_path : value)
  (template_file : Path) (template_key : string) (fd : dict) :
  dict_get "$import" d = Some import_path ->
  resolve_import_path base_dir import_path current_file
    = Ok (template_file, template_key) ->
  load_json_file template_file = Ok (JMap fd) ->
  cache_agrees st template_file (JMap fd) ->
  dict_get template_key fd
    = Some (JMap [("$import", JStr (String HASH template_key))]) ->
  fst (resolve_imports base_dir fuel (JMap d) current_file st) = OutOfFuel.
Proof.
  intros Himp Hpath Hload Hst Hk.
  destruct fuel as [ | n ]; [ reflexivity | ].
  rewrite (resolve_imports_import_frame base_dir n d current_file import_path
             template_file template_key Himp Hpath).
  destruct (get_template_value_of_file template_file fd template_key _ st
              Hload Hst Hk) as (st1 & Hget & Hst1).
  rewrite (bind_of_ok _ _ _ _ _ Hget).
  unfold bind.
  rewrite (self_import_diverges base_dir template_file fd template_key Hk n st1 Hst1).
  reflexivity.
Qed.

Lemma import_of_self_import_diverges_witness :
  fst (@resolve_imports ex_cycle_fs ex_base_dir 1000
         (JMap [("$import", JStr "~/templates/cycle.json#loop"); ("x", JNum 1)])
         ex_device_file empty) = OutOfFuel.
Proof.
  apply (@import_of_self_import_diverges ex_cycle_fs ex_base_dir 1000
           [("$import", JStr "~/templates/cycle.json#loop"); ("x", JNum 1)]
           ex_device_file empty (JStr "~/templates/cycle.json#loop")
           ex_cycle_file "loop"
           [("loop", JMap [("$import", JStr "#loop")]); ("leaf", JNum 1)]).
  - reflexivity.
  - reflexivity.
  - vm_compute. reflexivity.
  - left. reflexivity.
  - reflexivity.
Defined.

(** *** The order of the merged keys *)

Lemma keys_dict_update (o : dict) :
  List.NoDup (keys o) ->
  forall t,
    keys (dict_update t o) =
    (keys t ++ List.filter (fun k => negb (dict_has k t)) (keys o))%list.
Proof.
  unfold dict_update.
  induction o as [ | [k v] o IH ]; intros Hnd t; simpl.
  - rewrite app_nil_r. reflexivity.
  - inversion Hnd as [ | k0 ks Hk Hnd' ]; subst.
    rewrite (IH Hnd'). rewrite keys_dict_set.
    destruct (dict_has k t) eqn:Hkt; simpl.
    + f_equal. apply List.filter_ext_in. intros k' Hk'.
      destruct (String.eqb_spec k k') as [ -> | Hne ]; [ contradiction | ].
      rewrite (dict_has_set_ne t k k' v Hne). reflexivity.
    + rewrite <- List.app_assoc. simpl. f_equal. f_equal.
      apply List.filter_ext_in. intros k' Hk'.
      destruct (String.eqb_spec k k') as [ -> | Hne ]; [ contradiction | ].
      rewrite (dict_has_set_ne t k k' v Hne). reflexivity.
Qed.

(** X15: the merge keeps the template's keys first, in the template's order,
    and appends the keys only the importing dictionary has, in its order. *)
Theorem merge_overrides_key_order (f : value -> M value) (d template_d : dict)
  (st : template_cache) (merged : dict) (st' : template_cache) :
  List.NoDup (keys d) ->
  merge_overrides f d template_d st = (Ok merged, st') ->
  keys merged =
  (keys template_d ++
   List.filter (fun k => negb (dict_has k template_d)) (keys (overrides d)))%list.
Proof.
  intros Hnd Hm. rewrite merge_overrides_update in Hm.
  destruct (resolve_items f (overrides d) st) as [[ o | e | ] st1] eqn:Ho;
    try discriminate Hm.
  injection Hm as <- <-.
  destruct (resolve_items_ok (fun _ => True) f (fun _ _ _ _ _ => I) _ _ _ _ Ho)
    as [Hkeys _].
  rewrite keys_dict_update, Hkeys; [ reflexivity | ].
  rewrite Hkeys. apply keys_overrides_NoDup. exact Hnd.
Qed.

Lemma merge_overrides_key_order_witness :
  keys [("a", JNum 1); ("b", JNum 99); ("c", JNull)] =
  (keys [("a", JNum 1); ("b", JNum 2)] ++
   List.filter (fun k => negb (dict_has k [("a", JNum 1); ("b", JNum 2)]))
     (keys (overrides [("c", JNull); ("$import", JStr "#base"); ("b", JNum 99)])))%list.
Proof.
  apply (merge_overrides_key_order ret
           [("c", JNull); ("$import", JStr "#base"); ("b", JNum 99)]
           [("a", JNum 1); ("b", JNum 2)] empty
           [("a", JNum 1); ("b", JNum 99); ("c", JNull)] empty).
  - solve_wf.
  - reflexivity.
Defined.

(** *** Import values that cannot be resolved *)

Lemma resolve_import_path_importable `{Files} (base_dir : Path)
  (import_path : value) (current_file : Path) :
  importable import_path = false ->
  exists e, resolve_import_path base_dir import_path current_file = Raise e.
Proof.
  intros Himp. destruct import_path as [ | b | z | s | l | d ]; simpl in *;
    try (eexists; reflexivity).
  - apply split_hash_none in Himp. rewrite Himp. eexists; reflexivity.
  - destruct (existsb _ l); eexists; reflexivity.
  - destruct (dict_has "#" d); eexists; reflexivity.
Qed.

(** X16: an [$import] whose value is not a string with a ['#'] is never
    skipped: the resolution of its dictionary raises, before any file is
    read. *)
Theorem import_not_importable `{Files} (base_dir : Path) (fuel : nat) (d : dict)
  (current_file : Path) (st : template_cache) (import_path : value) :
  dict_get "$import" d = Some import_path ->
  importable import_path = false ->
  exists e,
    resolve_imports base_dir (S fuel) (JMap d) current_file st = (Raise e, st) /\
    resolve_import_path base_dir import_path current_file = Raise e.
Proof.
  intros Hd Himp.
  destruct (resolve_import_path_importable base_dir import_path current_file Himp)
    as [e He].
  exists e. split; [ | exact He ].
  cbn [resolve_imports]. rewrite Hd. unfold bind, lift. rewrite He. reflexivity.
Qed.

Lemma import_not_importable_witness :
  exists e,
    @resolve_imports ex_fs ex_base_dir 1
      (JMap [("$import", JList [JStr "templates/local.json#text"]); ("x", JNum 1)])
      ex_device_file empty = (Raise e, empty) /\
    @resolve_import_path ex_fs ex_base_dir
      (JList [JStr "templates/local.json#text"]) ex_device_file = Raise e.
Proof.
  apply (@import_not_importable ex_fs ex_base_dir 0
           [("$import", JList [JStr "templates/local.json#text"]); ("x", JNum 1)]
           ex_device_file empty (JList [JStr "templates/local.json#text"]));
    reflexivity.
Defined.

(** *** Distinct keys *)

Section WellFormed.
Context `{Files}.
Variable base_dir : Path.
Hypothesis Hloads : loads_wf.

Lemma keeps_wf_ret {A} (P : A -> Prop) (a : A) : P a -> keeps_wf P (ret a).
Proof. intros Ha st Hst. split; [ exact Hst | ]. intros b [= <-]. exact Ha. Qed.

Lemma keeps_wf_raise {A} (P : A -> Prop) (e : exn) : keeps_wf P (raise e).
Proof. intros st Hst. split; [ exact Hst | ]. intros b Hb. discriminate Hb. Qed.

Lemma keeps_wf_out_of_fuel {A} (P : A -> Prop) : keeps_wf P out_of_fuel.
Proof. intros st Hst. split; [ exact Hst | ]. intros b Hb. discriminate Hb. Qed.

Lemma keeps_wf_bind {A B} (P : A -> Prop) (Q : B -> Prop) (c : M A)
  (k : A -> M B) :
  keeps_wf P c -> (forall a, P a -> keeps_wf Q (k a)) -> keeps_wf Q (bind c k).
Proof.
  intros Hc Hk st Hst. unfold bind.
  destruct (Hc st Hst) as [Hst1 Ha].
  destruct (c st) as [[ a | e | ] st1]; simpl in *.
  - apply (Hk a (Ha a eq_refl) st1 Hst1).
  - split; [ exact Hst1 | intros b Hb; discriminate Hb ].
  - split; [ exact Hst1 | intros b Hb; discriminate Hb ].
Qed.

Lemma load_json_file_wf (file : Path) (data : value) :
  load_json_file file = Ok data -> wf_value data.
Proof.
  unfold load_json_file. destruct (read_text file) as [ content | e | ];
    try discriminate. apply Hloads.
Qed.

Lemma wf_list_member (l : list value) (x : value) :
  wf_value (JList l) -> In x l -> wf_value x.
Proof.
  intros Hl Hx. apply wf_list_iff in Hl. rewrite List.Forall_forall in Hl.
  exact (Hl x Hx).
Qed.

Lemma keeps_wf_get_template_value (template_file : Path) (key : string) :
  keeps_wf wf_value (get_template_value template_file key).
Proof.
  intros st Hst. unfold get_template_value, bind, get_cache.
  assert (Hfinal : forall data st',
             wf_value data -> cache_wf st' ->
             let c := match data with
                      | JMap d =>
                          match dict_get key d with
                          | Some v => ret v
                          | None => raise (KeyError_not_found key
                                             (path_str template_file))
                          end
                      | JList l =>
                          if existsb (fun x => py_eq (JStr key) x) l
                          then raise TypeError
                          else raise (KeyError_not_found key
                                        (path_str template_file))
                      | JStr s =>
                          if contains key s then raise TypeError
                          else raise (KeyError_not_found key
                                        (path_str template_file))
                      | _ => raise TypeError
                      end in
             cache_wf (snd (c st')) /\ forall a, fst (c st') = Ok a -> wf_value a).
  { intros data st' Hdata Hst'. cbn zeta.
    destruct data as [ | b | z | s | l | d ];
      try (split; [ exact Hst' | intros a Ha; discriminate Ha ]).
    - destruct (contains key s); split; try exact Hst'; intros a Ha; discriminate Ha.
    - destruct (existsb _ l); split; try exact Hst'; intros a Ha; discriminate Ha.
    - destruct (dict_get key d) as [ v | ] eqn:Hk.
      + split; [ exact Hst' | ]. intros a [= <-]. exact (wf_map_get _ _ _ Hdata Hk).
      + split; [ exact Hst' | intros a Ha; discriminate Ha ]. }
  destruct (lookup (path_str template_file) st) as [ data | ] eqn:Hl.
  - unfold ret at 1. apply Hfinal; [ exact (Hst _ _ Hl) | exact Hst ].
  - unfold lift.
    destruct (load_json_file template_file) as [ data | e | ] eqn:Hload;
      try (split; [ exact Hst | intros a Ha; discriminate Ha ]).
    unfold put_cache, ret at 1.
    pose proof (load_json_file_wf _ _ Hload) as Hdata.
    apply Hfinal; [ exact Hdata | ].
    intros name data' Hn.
    destruct (decide (path_str template_file = name)) as [ <- | Hne ].
    + rewrite lookup_insert_eq in Hn. injection Hn as <-. exact Hdata.
    + rewrite lookup_insert_ne in Hn by exact Hne. exact (Hst _ _ Hn).
Qed.

Lemma keeps_wf_resolve_list (f : value -> M value) (l : list value) :
  (forall v, In v l -> keeps_wf wf_value (f v)) ->
  keeps_wf (fun l' => wf_value (JList l')) (resolve_list f l).
Proof.
  induction l as [ | x l IH ]; intros Hf; simpl.
  - apply keeps_wf_ret. exact I.
  - apply (keeps_wf_bind wf_value); [ apply Hf; left; reflexivity | intros x' Hx' ].
    apply (keeps_wf_bind (fun l' => wf_value (JList l')));
      [ apply IH; intros v Hv; apply Hf; right; exact Hv | intros rest Hrest ].
    apply keeps_wf_ret. split; assumption.
Qed.

Lemma keeps_wf_resolve_items (f : value -> M value) (d : dict) :
  (forall e, In e d -> keeps_wf wf_value (f (snd e))) ->
  keeps_wf (fun d' => keys d' = keys d /\ Forall (fun e => wf_value (snd e)) d')
           (resolve_items f d).
Proof.
  induction d as [ | [k v] d IH ]; intros Hf; simpl.
  - apply keeps_wf_ret. split; [ reflexivity | constructor ].
  - apply (keeps_wf_bind wf_value);
      [ apply (Hf (k, v)); left; reflexivity | intros v' Hv' ].
    apply (keeps_wf_bind
             (fun d' => keys d' = keys d /\ Forall (fun e => wf_value (snd e)) d'));
      [ apply IH; intros e He; apply Hf; right; exact He | intros rest [Hk Hrest] ].
    apply keeps_wf_ret. split; [ simpl; f_equal; exact Hk | ].
    constructor; assumption.
Qed.

Lemma keeps_wf_merge_overrides (f : value -> M value) (items : dict) :
  (forall e, In e items -> keeps_wf wf_value (f (snd e))) ->
  forall result, wf_value (JMap result) ->
    keeps_wf (fun merged => wf_value (JMap merged))
             (merge_overrides f items result).
Proof.
  induction items as [ | [k v] items IH ]; intros Hf result Hres; simpl.
  - apply keeps_wf_ret. exact Hres.
  - assert (Hrest : forall e, In e items -> keeps_wf wf_value (f (snd e)))
      by (intros e He; apply Hf; right; exact He).
    destruct (String.eqb k "$import"); [ apply IH; assumption | ].
    apply (keeps_wf_bind wf_value);
      [ apply (Hf (k, v)); left; reflexivity | intros v' Hv' ].
    apply IH; [ exact Hrest | ]. apply wf_dict_set; assumption.
Qed.

Lemma keeps_wf_resolve_imports (fuel : nat) :
  forall data current_file,
    wf_value data ->
    keeps_wf wf_value (resolve_imports base_dir fuel data current_file).
Proof.
  induction fuel as [ | n IH ]; intros data cur Hdata.
  - apply keeps_wf_out_of_fuel.
  - destruct data as [ | b | z | s | l | d ]; cbn [resolve_imports];
      try (apply keeps_wf_ret; exact I).
    + apply (keeps_wf_bind (fun l' => wf_value (JList l')));
        [ | intros l' Hl'; apply keeps_wf_ret; exact Hl' ].
      apply keeps_wf_resolve_list. intros v Hv. apply IH.
      exact (wf_list_member l v Hdata Hv).
    + pose proof Hdata as Hd. apply wf_map_iff in Hd as [Hnd Hall].
      rewrite List.Forall_forall in Hall.
      destruct (dict_get "$import" d) as [ import_path | ].
      * apply (keeps_wf_bind (fun _ => True)).
        { intros st Hst. split; [ exact Hst | intros a _; exact I ]. }
        intros [template_file template_key] _.
        apply (keeps_wf_bind wf_value);
          [ apply keeps_wf_get_template_value | intros template_value Htv ].
        apply (keeps_wf_bind wf_value); [ apply IH; exact Htv | intros rt Hrt ].
        destruct rt as [ | b | z | s | l | t ];
          try (destruct (Nat.eqb (List.length d) 1);
               [ apply keeps_wf_ret; exact Hrt | apply keeps_wf_raise ]).
        apply (keeps_wf_bind (fun merged => wf_value (JMap merged)));
          [ | intros merged Hm; apply keeps_wf_ret; exact Hm ].
        apply keeps_wf_merge_overrides; [ | exact Hrt ].
        intros e He. apply IH. exact (Hall e He).
      * apply (keeps_wf_bind
                 (fun d' => keys d' = keys d /\
                            Forall (fun e => wf_value (snd e)) d')).
        -- apply keeps_wf_resolve_items. intros e He. apply IH. exact (Hall e He).
        -- intros d' [Hk Hd']. apply keeps_wf_ret. apply wf_map_iff.
           split; [ rewrite Hk; exact Hnd | exact Hd' ].
Qed.

End WellFormed.

(** X17: the resolved configuration is a well formed document: as long as
    [json.loads] gives dictionaries with distinct keys, so does
    [resolve_device_config], at every depth, whatever is merged. *)
Theorem resolve_device_config_wf `{Files} (base_dir : Path) (fuel : nat)
  (manufacturer_id device_filename : string) (resolved : value) :
  loads_wf ->
  resolve_device_config base_dir fuel manufacturer_id device_filename
    = Ok resolved ->
  wf_value resolved.
Proof.
  intros Hloads Hres. unfold resolve_device_config in Hres.
  destruct (negb (path_exists _)); [ discriminate Hres | ].
  destruct (load_json_file _) as [ device_config | e | ] eqn:Hload;
    try discriminate Hres.
  pose proof (load_json_file_wf Hloads _ _ Hload) as Hwf.
  destruct (keeps_wf_resolve_imports base_dir Hloads fuel device_config
              (path_join (path_join base_dir manufacturer_id) device_filename)
              Hwf empty) as [_ Hok].
  - intros name data Hl. rewrite lookup_empty in Hl. discriminate Hl.
  - apply Hok. exact Hres.
Qed.

Lemma resolve_device_config_wf_witness : wf_value ex_device_resolved.
Proof.
  apply (@resolve_device_config_wf ex_fs ex_base_dir 6 "0x027a" "dev.json").
  - intros text data Hl.
    change (match List.find (fun v => String.eqb (dumps v) text) ex_docs with
            | Some v => Ok v
            | None => Raise JSONDecodeError
            end = Ok data) in Hl.
    destruct (List.find (fun v => String.eqb (dumps v) text) ex_docs) as [ v | ]
      eqn:Hfind; [ | discriminate Hl ].
    injection Hl as <-. apply find_some in Hfind as [Hin _].
    destruct Hin as [ <- | [ <- | [ <- | [ <- | [] ] ] ] ]; solve_wf.
  - vm_compute. reflexivity.
Defined.

(** *** The template cache *)

Section CacheFacts.
Context `{Files}.
Variable base_dir : Path.
Hypothesis Hname : load_by_name.

Lemma cache_consistent_empty : cache_consistent empty.
Proof. intros file data Hl. rewrite lookup_empty in Hl. discriminate Hl. Qed.

Lemma cache_consistent_insert (st : template_cache) (file : Path) (data : value) :
  cache_consistent st -> load_json_file file = Ok data ->
  cache_consistent (insert (path_str file) data st).
Proof.
  intros Hst Hload file' data' Hl.
  destruct (decide (path_str file = path_str file')) as [ Heq | Hne ].
  - rewrite <- Heq, lookup_insert_eq in Hl. injection Hl as <-.
    rewrite <- (Hname file file' Heq). exact Hload.
  - rewrite lookup_insert_ne in Hl by exact Hne. exact (Hst file' data' Hl).
Qed.

Lemma cache_independent_ret {A} (a : A) : cache_independent (ret a).
Proof. intros st1 st2 H1 H2. simpl. repeat split; [ assumption | reflexivity ]. Qed.

Lemma cache_independent_raise {A} (e : exn) : cache_independent (@raise A e).
Proof. intros st1 st2 H1 H2. simpl. repeat split; [ assumption | reflexivity ]. Qed.

Lemma cache_independent_lift {A} (r : result A) : cache_independent (lift r).
Proof. intros st1 st2 H1 H2. simpl. repeat split; [ assumption | reflexivity ]. Qed.

Lemma cache_independent_out_of_fuel {A} : cache_independent (@out_of_fuel A).
Proof. intros st1 st2 H1 H2. simpl. repeat split; [ assumption | reflexivity ]. Qed.

Lemma cache_independent_bind {A B} (c : M A) (k : A -> M B) :
  cache_independent c -> (forall a, cache_independent (k a)) ->
  cache_independent (bind c k).
Proof.
  intros Hc Hk st1 st2 H1 H2. unfold bind.
  destruct (Hc st1 st2 H1 H2) as (Hfst & Hc1 & Hsub1).
  destruct (Hc st2 st1 H2 H1) as (_ & Hc2 & _).
  destruct (c st1) as [r1 s1], (c st2) as [r2 s2]. simpl in *. subst r2.
  destruct r1 as [ a | e | ]; simpl;
    [ | repeat split; assumption | repeat split; assumption ].
  destruct (Hk a s1 s2 Hc1 Hc2) as (Hfst' & Hk1 & Hsub').
  split; [ exact Hfst' | ]. split; [ exact Hk1 | ].
  etrans; [ exact Hsub1 | exact Hsub' ].
Qed.

(** What [get_template_value] answers, read from the file. *)
Lemma get_template_value_consistent (template_file : Path) (key : string)
  (st : template_cache) :
  cache_consistent st ->
  fst (get_template_value template_file key st) =
    match load_json_file template_file with
    | Ok data => fst (match data with
                      | JMap d =>
                          match dict_get key d with
                          | Some v => ret v
                          | None => raise (KeyError_not_found key
                                             (path_str template_file))
                          end
                      | JList l =>
                          if existsb (fun x => py_eq (JStr key) x) l
                          then raise TypeError
                          else raise (KeyError_not_found key
                                        (path_str template_file))
                      | JStr s =>
                          if contains key s then raise TypeError
                          else raise (KeyError_not_found key
                                        (path_str template_file))
                      | _ => raise TypeError
                      end st)
    | Raise e => Raise e
    | OutOfFuel => OutOfFuel
    end /\
  cache_consistent (snd (get_template_value template_file key st)) /\
  subseteq st (snd (get_template_value template_file key st)).
Proof.
  intros Hst. unfold get_template_value, bind, get_cache.
  destruct (lookup (path_str template_file) st) as [ data | ] eqn:Hl.
  - rewrite (Hst template_file data Hl). unfold ret at 1.
    destruct data as [ | b | z | s | l | d ]; simpl;
      try match goal with |- context [ if ?c then _ else _ ] => destruct c end;
      try destruct (dict_get key d);
      simpl; repeat split; try reflexivity; try assumption.
  - unfold lift. destruct (load_json_file template_file) as [ data | e | ] eqn:Hload;
      [ | simpl; repeat split; try reflexivity; assumption
        | simpl; repeat split; try reflexivity; assumption ].
    assert (Hins : cache_consistent (insert (path_str template_file) data st))
      by (apply cache_consistent_insert; assumption).
    assert (Hsub : subseteq st (insert (path_str template_file) data st))
      by (apply insert_subseteq; exact Hl).
    destruct data as [ | b | z | s | l | d ]; simpl;
      try match goal with |- context [ if ?c then _ else _ ] => destruct c end;
      try destruct (dict_get key d);
      simpl; repeat split; try reflexivity; try assumption.
Qed.

Lemma cache_independent_get_template_value (template_file : Path) (key : string) :
  cache_independent (get_template_value template_file key).
Proof.
  intros st1 st2 H1 H2.
  destruct (get_template_value_consistent template_file key st1 H1) as (E1 & C1 & S1).
  destruct (get_template_value_consistent template_file key st2 H2) as (E2 & _ & _).
  split; [ | split; assumption ].
  rewrite E1, E2.
  destruct (load_json_file template_file) as [ data | e | ]; try reflexivity.
  destruct data as [ | b | z | s | l | d ]; simpl;
    try match goal with |- context [ if ?c then _ else _ ] => destruct c end;
    try destruct (dict_get key d); reflexivity.
Qed.

Lemma cache_independent_resolve_list (f : value -> M value) (l : list value) :
  (forall v, cache_independent (f v)) -> cache_independent (resolve_list f l).
Proof.
  intros Hf. induction l as [ | x l IH ]; simpl.
  - apply cache_independent_ret.
  - apply cache_independent_bind; [ apply Hf | intros x' ].
    apply cache_independent_bind; [ exact IH | intros rest ].
    apply cache_independent_ret.
Qed.

Lemma cache_independent_resolve_items (f : value -> M value) (d : dict) :
  (forall v, cache_independent (f v)) -> cache_independent (resolve_items f d).
Proof.
  intros Hf. induction d as [ | [k v] d IH ]; simpl.
  - apply cache_independent_ret.
  - apply cache_independent_bind; [ apply Hf | intros v' ].
    apply cache_independent_bind; [ exact IH | intros rest ].
    apply cache_independent_ret.
Qed.

Lemma cache_independent_merge_overrides (f : value -> M value) (items : dict) :
  (forall v, cache_independent (f v)) ->
  forall result, cache_independent (merge_overrides f items result).
Proof.
  intros Hf. induction items as [ | [k v] items IH ]; intros result; simpl.
  - apply cache_independent_ret.
  - destruct (String.eqb k "$import"); [ apply IH | ].
    apply cache_independent_bind; [ apply Hf | intros v' ]. apply IH.
Qed.

Lemma cache_independent_resolve_imports (fuel : nat) :
  forall data current_file,
    cache_independent (resolve_imports base_dir fuel data current_file).
Proof.
  induction fuel as [ | n IH ]; intros data cur.
  - apply cache_independent_out_of_fuel.
  - destruct data as [ | b | z | s | l | d ]; cbn [resolve_imports];
      try apply cache_independent_ret.
    + apply cache_independent_bind; [ | intros l'; apply cache_independent_ret ].
      apply cache_independent_resolve_list. intros v. apply IH.
    + destruct (dict_get "$import" d) as [ import_path | ].
      * apply cache_independent_bind; [ apply cache_independent_lift | ].
        intros [template_file template_key].
        apply cache_independent_bind;
          [ apply cache_independent_get_template_value | intros template_value ].
        apply cache_independent_bind; [ apply IH | intros resolved_template ].
        destruct resolved_template as [ | b | z | s | l | t ];
          try (destruct (Nat.eqb (List.length d) 1);
               [ apply cache_independent_ret | apply cache_independent_raise ]).
        apply cache_independent_bind; [ | intros m; apply cache_independent_ret ].
        apply cache_independent_merge_overrides. intros v. apply IH.
      * apply cache_independent_bind; [ | intros d'; apply cache_independent_ret ].
        apply cache_independent_resolve_items. intros v. apply IH.
Qed.

End CacheFacts.

(** X18: the cache is transparent.  Started from a cache whose entries are
    what their files hold, a resolution answers as it does from the empty
    cache of a new resolver; the cache it leaves has the same property and
    has lost no entry. *)
Theorem template_cache_transparent `{Files} (base_dir : Path) (fuel : nat)
  (data : value) (current_file : Path) (st : template_cache) :
  load_by_name -> cache_consistent st ->
  fst (resolve_imports base_dir fuel data current_file st)
  = fst (resolve_imports base_dir fuel data current_file empty) /\
  cache_consistent (snd (resolve_imports base_dir fuel data current_file st)) /\
  subseteq st (snd (resolve_imports base_dir fuel data current_file st)).
Proof.
  intros Hname Hst.
  exact (cache_independent_resolve_imports base_dir Hname fuel data current_file
           st empty Hst cache_consistent_empty).
Qed.

Lemma template_cache_transparent_witness :
  fst (@resolve_imports ex_flat_fs "cfg" 6 ex_device "cfg/0x027a/dev.json"
         (insert "cfg/templates/master.json" ex_master empty))
  = fst (@resolve_imports ex_flat_fs "cfg" 6 ex_device "cfg/0x027a/dev.json" empty).
Proof.
  apply (@template_cache_transparent ex_flat_fs "cfg" 6 ex_device
           "cfg/0x027a/dev.json"
           (insert "cfg/templates/master.json" ex_master empty)).
  - intros file file' Heq. simpl in Heq. rewrite Heq. reflexivity.
  - intros file data Hl.
    destruct (decide (file = "cfg/templates/master.json")) as [ -> | Hne ].
    + rewrite lookup_insert_eq in Hl. injection Hl as <-. vm_compute. reflexivity.
    + simpl in Hl. rewrite lookup_insert_ne in Hl by congruence.
      rewrite lookup_empty in Hl. discriminate Hl.
Defined.

(** ** The current file of each frame *)

Section Refinement.
Context `{Files}.
Variable base_dir : Path.
Hypothesis Hname : load_by_name.

Lemma refines_ret {A} (a : A) : refines (ret a) (Some a).
Proof. intros st Hst. split; [ reflexivity | exact Hst ]. Qed.

Lemma refines_fails {A} (r : result A) :
  to_option r = None -> refines (lift r) None.
Proof. intros Hr st Hst. split; [ exact Hr | exact Hst ]. Qed.

Lemma refines_bind {A B} (c : M A) (k : A -> M B) (o : option A)
  (o' : option B) :
  refines c o ->
  (forall a, o = Some a -> refines (k a) o') ->
  (o = None -> o' = None) ->
  refines (bind c k) o'.
Proof.
  intros Hc Hk Hnone st Hst. unfold bind.
  destruct (Hc st Hst) as [Ho Hst1].
  destruct (c st) as [[ a | e | ] st1]; simpl in Ho, Hst1.
  - apply (Hk a (eq_sym Ho) st1 Hst1).
  - split; [ simpl; symmetry; apply Hnone; symmetry; exact Ho | exact Hst1 ].
  - split; [ simpl; symmetry; apply Hnone; symmetry; exact Ho | exact Hst1 ].
Qed.

(** The path the code computes is the one the reference names. *)
Lemma resolve_import_path_locate (reference : value) (current_file : Path) :
  to_option (resolve_import_path base_dir reference current_file)
  = locate base_dir current_file reference.
Proof.
  destruct reference as [ | b | z | s | l | d ]; simpl; try reflexivity.
  - destruct (split_hash s) as [ [path key] | ]; reflexivity.
  - destruct (existsb _ l); reflexivity.
  - destruct (dict_has "#" d); reflexivity.
Qed.

Lemma refines_get_template_value (template_file : Path) (key : string) :
  refines (get_template_value template_file key)
          (template_value_of template_file key).
Proof.
  intros st Hst.
  destruct (get_template_value_consistent Hname template_file key st Hst)
    as (Hfst & Hcons & _).
  split; [ | exact Hcons ].
  rewrite Hfst. unfold template_value_of.
  destruct (load_json_file template_file) as [ data | e | ]; try reflexivity.
  destruct data as [ | b | z | s | l | d ]; simpl;
    try match goal with |- context [ if ?c then _ else _ ] => destruct c end;
    try destruct (dict_get key d); reflexivity.
Qed.

Lemma refines_resolve_list (f : value -> M value) (g : value -> option value)
  (l : list value) :
  (forall v, refines (f v) (g v)) ->
  refines (resolve_list f l) (located_list g l).
Proof.
  intros Hfg. induction l as [ | x l IH ]; simpl.
  - apply refines_ret.
  - apply (refines_bind _ _ (g x)); [ apply Hfg | | intros ->; reflexivity ].
    intros x' ->.
    apply (refines_bind _ _ (located_list g l));
      [ exact IH | | intros ->; reflexivity ].
    intros rest ->. apply refines_ret.
Qed.

Lemma refines_resolve_items (f : value -> M value) (g : value -> option value)
  (d : dict) :
  (forall v, refines (f v) (g v)) ->
  refines (resolve_items f d) (located_items g d).
Proof.
  intros Hfg. induction d as [ | [k x] d IH ]; simpl.
  - apply refines_ret.
  - apply (refines_bind _ _ (g x)); [ apply Hfg | | intros ->; reflexivity ].
    intros x' ->.
    apply (refines_bind _ _ (located_items g d));
      [ exact IH | | intros ->; reflexivity ].
    intros rest ->. apply refines_ret.
Qed.

(** The loop that resolves and assigns the sibling keys one by one lays the
    resolved siblings over the template. *)
Lemma refines_merge_overrides (f : value -> M value) (g : value -> option value)
  (items result : dict) :
  (forall v, refines (f v) (g v)) ->
  refines (merge_overrides f items result)
          (match located_items g (overrides items) with
           | Some o => Some (dict_update result o)
           | None => None
           end).
Proof.
  intros Hfg st Hst. rewrite merge_overrides_update.
  destruct (refines_resolve_items f g (overrides items) Hfg st Hst) as [Ho Hst1].
  destruct (resolve_items f (overrides items) st) as [[ o | e | ] st1];
    simpl in Ho, Hst1; rewrite <- Ho; split; try reflexivity; exact Hst1.
Qed.

Lemma refines_resolve_imports (fuel : nat) :
  forall data current_file,
    refines (resolve_imports base_dir fuel data current_file)
            (resolve_located base_dir fuel current_file data).
Proof.
  induction fuel as [ | n IH ]; intros data cur.
  - intros st Hst. split; [ reflexivity | exact Hst ].
  - destruct data as [ | b | z | s | l | d ];
      cbn [resolve_imports resolve_located]; try apply refines_ret.
    + apply (refines_bind _ _ (located_list (resolve_located base_dir n cur) l));
        [ | | intros ->; reflexivity ].
      * apply refines_resolve_list. intros v. apply IH.
      * intros l' ->. apply refines_ret.
    + destruct (dict_get "$import" d) as [ reference | ].
      * apply (refines_bind _ _ (locate base_dir cur reference));
          [ | | intros ->; reflexivity ].
        { intros st Hst. split; [ apply resolve_import_path_locate | exact Hst ]. }
        intros [target key] ->.
        apply (refines_bind _ _ (template_value_of target key));
          [ apply refines_get_template_value | | intros ->; reflexivity ].
        intros template_value ->.
        apply (refines_bind _ _ (resolve_located base_dir n target template_value));
          [ apply IH | | intros ->; reflexivity ].
        intros resolved_template ->.
        destruct resolved_template as [ | b | z | s | l | template_d ];
          try (destruct (Nat.eqb (List.length d) 1);
               [ apply refines_ret
               | intros st Hst; split; [ reflexivity | exact Hst ] ]).
        apply (refines_bind _ _
                 (match located_items (resolve_located base_dir n cur)
                                      (overrides d) with
                  | Some o => Some (dict_update template_d o)
                  | None => None
                  end)).
        -- apply refines_merge_overrides. intros v. apply IH.
        -- intros merged Hm.
           destruct (located_items (resolve_located base_dir n cur) (overrides d))
             as [ o | ]; [ | discriminate Hm ].
           injection Hm as <-. apply refines_ret.
        -- intros Hm.
           destruct (located_items (resolve_located base_dir n cur) (overrides d));
             [ discriminate Hm | reflexivity ].
      * apply (refines_bind _ _ (located_items (resolve_located base_dir n cur) d));
          [ | | intros ->; reflexivity ].
        -- apply refines_resolve_items. intros v. apply IH.
        -- intros d' ->. apply refines_ret.
Qed.

End Refinement.

Lemma to_option_ok {A} (r : result A) (a : A) : to_option r = Some a <-> r = Ok a.
Proof.
  destruct r; simpl; split; intros Hr; try discriminate Hr;
    injection Hr as <-; reflexivity.
Qed.

(** C7.  The current file is tracked per frame.  [resolve_located] is the
    resolution as the specification words it, with no cache: the value a
    reference names is resolved with the target file as its current file, so
    that a reference inside a template is read relative to the template's
    own file (an empty path is that file, a relative path starts at its
    directory), and the sibling keys of the importing node are resolved with
    the importing file and laid over the resolved template.  The resolver,
    with its cache and its loop of assignments, returns a value exactly when
    [resolve_located] gives it, at every depth, for every document and from
    every cache whose entries are what their files hold.  In particular an
    entry of a file [file] that reaches a scalar through empty-path
    references, however many, resolves to that scalar read from [file],
    whichever file the chain was entered from, with fuel for the length of
    the chain or more. *)
Theorem C7_current_file_per_frame `{Files} (base_dir : Path) :
  (load_by_name ->
   forall fuel data current_file st r,
     cache_consistent st ->
     (fst (resolve_imports base_dir fuel data current_file st) = Ok r <->
      resolve_located base_dir fuel current_file data = Some r)) /\
  (forall file fd v ks k ref current_file st,
      load_json_file file = Ok (JMap fd) ->
      cache_agrees st file (JMap fd) ->
      self_chain fd ks k v ->
      is_container v = false ->
      resolve_import_path base_dir ref current_file = Ok (file, k) ->
      forall extra,
        fst (resolve_imports base_dir (S (S (List.length ks)) + extra)
               (JMap [("$import", ref)]) current_file st) = Ok v).
Proof.
  split.
  - intros Hname fuel data current_file st r Hst.
    destruct (refines_resolve_imports base_dir Hname fuel data current_file st Hst)
      as [Href _].
    rewrite <- Href. symmetry. apply to_option_ok.
  - intros file fd v ks k ref current_file st Hload Hst Hchain Hv Hpath extra.
    pose proof (import_of_self_chain base_dir file fd v ks k ref current_file st
                  Hload Hst Hchain Hv Hpath) as Hbase.
    rewrite resolve_imports_fuel_mono; [ exact Hbase | ].
    rewrite Hbase. discriminate.
Qed.

(** In the first tree the reference [#text] inside the local template reads
    the template's [text], the reference [#inner] inside the master template
    the master's [inner], and the override [#text] of [p3] the device's
    [text].  In the second the template [a.json], reached by a relative
    path, names [sub/b.json] from its own directory, and each of the three
    references [#own] reads the file it is written in. *)
Lemma C7_current_file_per_frame_witness :
  fst (@resolve_imports ex_flat_fs "cfg" 6 ex_device "cfg/0x027a/dev.json" empty)
  = Ok ex_device_resolved /\
  fst (@resolve_imports ex_nested_fs "cfg" 6 ex_nested_device "cfg/devs/dev.json"
         empty)
  = Ok ex_nested_resolved.
Proof.
  split.
  - destruct (@C7_current_file_per_frame ex_flat_fs "cfg") as [Hrefines _].
    apply Hrefines.
    + intros file file' Heq. simpl in Heq. rewrite Heq. reflexivity.
    + intros file data Hl. rewrite lookup_empty in Hl. discriminate Hl.
    + vm_compute. reflexivity.
  - destruct (@C7_current_file_per_frame ex_nested_fs "cfg") as [Hrefines _].
    apply Hrefines.
    + intros file file' Heq. simpl in Heq. rewrite Heq. reflexivity.
    + intros file data Hl. rewrite lookup_empty in Hl. discriminate Hl.
    + vm_compute. reflexivity.
Defined.

(** ** Further properties of [process_device] *)

Lemma temp_resolved_artifact (rc : dict) (version : Z) (ts now : string) :
  match artifact rc version ts with
  | JMap ed => temp_resolved rc ed now = ed
  | _ => False
  end.
Proof.
  unfold artifact, temp_resolved, dict_get_default.
  rewrite dict_get_set_ne by discriminate. rewrite dict_get_set_eq.
  rewrite dict_get_set_eq. reflexivity.
Qed.

Lemma wf_artifact (rc : dict) (version : Z) (ts : string) :
  wf_value (JMap rc) -> wf_value (artifact rc version ts).
Proof.
  intros Hrc. unfold artifact.
  apply wf_dict_set; [ apply wf_dict_set; [ exact Hrc | exact I ] | exact I ].
Qed.

Lemma reconcile_artifact `{Files} (p : Path) (rc : dict) (version : Z)
  (ts : string) (md : mode) (now : string) :
  wf_value (JMap rc) ->
  reconcile p (JMap rc) (Some (artifact rc version ts)) md now = Unchanged.
Proof.
  intros Hrc. pose proof (temp_resolved_artifact rc version ts now) as Htemp.
  pose proof (wf_artifact rc version ts Hrc) as Hwf.
  destruct (artifact rc version ts) as [ | | | | | ed ]; try contradiction.
  apply reconcile_equal. rewrite Htemp. apply json_objects_equal_refl. exact Hwf.
Qed.

(** X19: a run against an artifact that is the document of an earlier run
    for the same resolved configuration, whatever its version and its time
    stamp, finds nothing to do: nothing is written, in either mode and at
    any time. *)
Theorem process_device_up_to_date `{Files} (base_dir indigo_dir : Path)
  (fuel : nat) (manufacturer_id device_filename : string) (md : mode)
  (now : string) (rc : dict) (content : string) (version : Z) (ts : string) :
  let out := output_path_of indigo_dir manufacturer_id device_filename in
  resolve_device_config base_dir fuel manufacturer_id device_filename
    = Ok (JMap rc) ->
  wf_value (JMap rc) ->
  path_exists out = true -> read_text out = Ok content ->
  json_loads content = Ok (artifact rc version ts) ->
  process_device base_dir indigo_dir fuel manufacturer_id device_filename md now
  = Unchanged.
Proof.
  intros out Hres Hwf Hex Hread Hloads.
  rewrite (process_device_existing base_dir indigo_dir fuel manufacturer_id
             device_filename md now (JMap rc) content (artifact rc version ts)
             Hres Hex Hread Hloads).
  apply reconcile_artifact. exact Hwf.
Qed.

Lemma process_device_up_to_date_witness :
  @process_device (ex_fs_with ex_artifact_same) ex_base_dir ex_indigo_dir 6
    "0x027a" "dev.json" (Interactive false) ex_timestamp_now = Unchanged.
Proof.
  apply (@process_device_up_to_date (ex_fs_with ex_artifact_same) ex_base_dir
           ex_indigo_dir 6 "0x027a" "dev.json" (Interactive false)
           ex_timestamp_now ex_resolved_dict (dumps ex_artifact_same) 3
           ex_timestamp_old).
  - vm_compute. reflexivity.
  - solve_wf.
  - vm_compute. reflexivity.
  - vm_compute. reflexivity.
  - vm_compute. reflexivity.
Defined.

Lemma temp_resolved_has_last_update (rc ed : dict) (now : string) :
  In "last_update" (keys (temp_resolved rc ed now)).
Proof.
  apply dict_has_In. unfold dict_has, temp_resolved.
  rewrite dict_get_set_eq. reflexivity.
Qed.

Lemma reconcile_unchanged_test `{Files} (p : Path) (rc ed : dict) (md : mode)
  (now : string) :
  reconcile p (JMap rc) (Some (JMap ed)) md now = Unchanged <->
  json_objects_equal (JMap ed) (JMap (temp_resolved rc ed now)) = true.
Proof.
  split; [ | apply reconcile_equal ].
  simpl. destruct (json_objects_equal _ _); [ reflexivity | ].
  unfold bump_and_save.
  destruct md as [ | [ | ] ]; try discriminate;
    destruct (py_add_one _); discriminate.
Qed.

(** X20: an existing artifact is left alone exactly when it carries a
    [vers] and a [last_update] and compares equal to the resolved
    configuration with these two values set; the time of the run plays no
    part. *)
Theorem reconcile_unchanged_iff `{Files} (p : Path) (rc ed : dict) (md : mode)
  (now : string) :
  List.NoDup (keys ed) ->
  reconcile p (JMap rc) (Some (JMap ed)) md now = Unchanged <->
  exists vers last_update,
    dict_get "vers" ed = Some vers /\
    dict_get "last_update" ed = Some last_update /\
    json_objects_equal
      (JMap ed)
      (JMap (dict_set (dict_set rc "vers" vers) "last_update" last_update))
    = true.
Proof.
  intros Hnd. rewrite reconcile_unchanged_test. split.
  - intros Heq.
    destruct (dict_get "vers" ed) as [ vers | ] eqn:Hv.
    2:{ rewrite (json_objects_equal_missing_key ed _ "vers" Hnd) in Heq;
          [ discriminate Heq | apply dict_get_None; exact Hv
          | apply temp_resolved_has_vers ]. }
    destruct (dict_get "last_update" ed) as [ last_update | ] eqn:Hu.
    2:{ rewrite (json_objects_equal_missing_key ed _ "last_update" Hnd) in Heq;
          [ discriminate Heq | apply dict_get_None; exact Hu
          | apply temp_resolved_has_last_update ]. }
    exists vers, last_update. repeat split.
    unfold temp_resolved, dict_get_default in Heq. rewrite Hv, Hu in Heq.
    exact Heq.
  - intros (vers & last_update & Hv & Hu & Heq).
    unfold temp_resolved, dict_get_default. rewrite Hv, Hu. exact Heq.
Qed.

Lemma reconcile_unchanged_iff_witness :
  @reconcile ex_fs ex_artifact_file (JMap ex_resolved_dict)
    (Some ex_artifact_same) (Interactive false) ex_timestamp_now = Unchanged.
Proof.
  apply (@reconcile_unchanged_iff ex_fs ex_artifact_file ex_resolved_dict
           (dict_set (dict_set ex_resolved_dict "vers" (JNum 3))
                     "last_update" (JStr ex_timestamp_old))
           (Interactive false) ex_timestamp_now).
  - solve_wf.
  - exists (JNum 3), (JStr ex_timestamp_old). vm_compute. repeat split.
Defined.

(** X21: the prompt decides.  An unattended run never ends as cancelled, and
    a run whose prompt was declined writes nothing over an existing
    artifact. *)
Theorem process_device_prompt `{Files} (base_dir indigo_dir : Path) (fuel : nat)
  (manufacturer_id device_filename : string) (now : string) :
  process_device base_dir indigo_dir fuel manufacturer_id device_filename
    Silent now <> Cancelled /\
  (path_exists (output_path_of indigo_dir manufacturer_id device_filename) = true ->
   forall p doc text,
     process_device base_dir indigo_dir fuel manufacturer_id device_filename
       (Interactive false) now <> Written p doc text).
Proof.
  split.
  - unfold process_device.
    destruct (resolve_device_config _ _ _ _) as [ resolved | e | ];
      [ | destruct (caught e); discriminate | discriminate ].
    assert (Hrec : forall existing,
               reconcile (output_path_of indigo_dir manufacturer_id device_filename)
                         resolved existing Silent now <> Cancelled).
    { intros [ existing_data | ]; simpl.
      - destruct existing_data as [ | | | | | ed ]; try discriminate.
        destruct resolved as [ | | | | | rc ]; try discriminate.
        destruct (json_objects_equal _ _); [ discriminate | ].
        unfold bump_and_save. destruct (py_add_one _); discriminate.
      - destruct resolved; discriminate. }
    destruct (path_exists _); [ | apply Hrec ].
    destruct (read_text _) as [ content | e | ];
      [ | destruct (caught e); discriminate | discriminate ].
    destruct (json_loads content) as [ existing_data | e | ];
      [ apply Hrec | destruct (caught e); discriminate | discriminate ].
  - intros Hex p doc text Hw.
    apply process_device_written in Hw
      as (resolved & existing & _ & Hrec & Hnone & _).
    apply reconcile_written in Hrec
      as (rc & version & _ & _ & _ & _ & _ & Hsome).
    destruct existing as [ existing_data | ].
    + destruct (Hsome existing_data eq_refl) as (ed & _ & _ & Hmd & _).
      apply Hmd. reflexivity.
    + rewrite (Hnone eq_refl) in Hex. discriminate Hex.
Qed.

Lemma process_device_prompt_witness :
  @process_device (ex_fs_with ex_artifact_old) ex_base_dir ex_indigo_dir 6
    "0x027a" "dev.json" (Interactive false) ex_timestamp_now
  <> @Written (ex_fs_with ex_artifact_old) ex_artifact_file
       (artifact ex_resolved_dict 4 ex_timestamp_now)
       (dumps_indent 0 (artifact ex_resolved_dict 4 ex_timestamp_now)
        ++ String NEWLINE "").
Proof.
  destruct (@process_device_prompt (ex_fs_with ex_artifact_old) ex_base_dir
              ex_indigo_dir 6 "0x027a" "dev.json" ex_timestamp_now) as [_ Hw].
  apply Hw. vm_compute. reflexivity.
Defined.

(** ** The analysers *)

(** *** [extract_param_keys] *)

Lemma extract_param_keys_list (l : list value) (keys : gset string) :
  extract_param_keys (JList l) keys =
  fold_left (fun acc item => extract_param_keys item acc) l keys.
Proof.
  simpl. revert keys. induction l as [ | x l IH ]; intros keys; simpl;
    [ reflexivity | apply IH ].
Qed.

Lemma extract_param_keys_dict (d : dict) (keys : gset string) :
  extract_param_keys (JMap d) keys =
  fold_left (fun acc e => extract_param_keys (snd e) acc) d
    match dict_get "paramInformation" d with
    | Some (JList params) =>
        fold_left
          (fun acc param =>
             match param with
             | JMap pd => union acc (list_to_set (List.map fst pd))
             | _ => acc
             end) params keys
    | _ => keys
    end.
Proof.
  cbn [extract_param_keys].
  generalize (match dict_get "paramInformation" d with
              | Some (JList params) =>
                  fold_left
                    (fun acc param =>
                       match param with
                       | JMap pd => union acc (list_to_set (List.map fst pd))
                       | _ => acc
                       end) params keys
              | _ => keys
              end).
  induction d as [ | [k v] d IH ]; intros acc; simpl; [ reflexivity | apply IH ].
Qed.

Lemma elem_of_params (params : list value) (keys : gset string) (k : string) :
  elem_of k
    (fold_left
        (fun acc param =>
           match param with
           | JMap pd => union acc (list_to_set (List.map fst pd))
           | _ => acc
           end) params keys) <->
  elem_of k keys \/ exists pd, In (JMap pd) params /\ In k (List.map fst pd).
Proof.
  revert keys. induction params as [ | param params IH ]; intros keys; simpl.
  - split; [ auto | intros [ Hk | (pd & [] & _) ]; exact Hk ].
  - rewrite IH. split.
    + intros [ Hk | (pd & Hpd & Hin) ].
      * destruct param as [ | | | | | pd ]; auto.
        apply elem_of_union in Hk as [ Hk | Hk ]; [ auto | ].
        apply elem_of_list_to_set, list_elem_of_In in Hk.
        right. exists pd. split; [ left; reflexivity | exact Hk ].
      * right. exists pd. split; [ right; exact Hpd | exact Hin ].
    + intros [ Hk | (pd & [ -> | Hpd ] & Hin) ].
      * left. destruct param; try exact Hk. apply elem_of_union. left. exact Hk.
      * left. apply elem_of_union. right.
        apply elem_of_list_to_set, list_elem_of_In. exact Hin.
      * right. exists pd. split; assumption.
Qed.

Lemma elem_of_fold_extract {A} (g : A -> value) (l : list A) (k : string)
  (Q : value -> Prop) :
  Forall (fun x => forall keys,
            elem_of k (extract_param_keys (g x) keys) <-> elem_of k keys \/ Q (g x)) l ->
  forall keys,
    elem_of k (fold_left (fun acc x => extract_param_keys (g x) acc) l keys) <->
    elem_of k keys \/ exists x, In x l /\ Q (g x).
Proof.
  induction 1 as [ | x l Hx _ IH ]; intros keys; simpl.
  - split; [ auto | intros [ Hk | (x & [] & _) ]; exact Hk ].
  - rewrite IH, Hx. split.
    + intros [ [ Hk | Hq ] | (y & Hy & Hq) ]; [ auto | | ].
      * right. exists x. split; [ left; reflexivity | exact Hq ].
      * right. exists y. split; [ right; exact Hy | exact Hq ].
    + intros [ Hk | (y & [ <- | Hy ] & Hq) ]; [ auto | auto | ].
      right. exists y. split; assumption.
Qed.

Lemma param_key_scalar (v : value) (k : string) :
  is_container v = false -> ~ param_key v k.
Proof.
  intros Hv (d & params & pd & Hocc & _).
  inversion Hocc; subst; discriminate Hv.
Qed.

Lemma param_key_list (l : list value) (k : string) :
  param_key (JList l) k <-> exists x, In x l /\ param_key x k.
Proof.
  split.
  - intros (d & params & pd & Hocc & Hrest).
    inversion Hocc as [ | l' x Hx Hsub | ]; subst.
    exists x. split; [ exact Hx | ]. exists d, params, pd. split; assumption.
  - intros (x & Hx & d & params & pd & Hocc & Hrest).
    exists d, params, pd. split; [ | exact Hrest ].
    eapply occurs_list; eassumption.
Qed.

Lemma param_key_dict (d : dict) (k : string) :
  param_key (JMap d) k <->
  (exists params pd, dict_get "paramInformation" d = Some (JList params) /\
                     In (JMap pd) params /\ In k (List.map fst pd)) \/
  exists e, In e d /\ param_key (snd e) k.
Proof.
  split.
  - intros (d' & params & pd & Hocc & Hrest).
    inversion Hocc as [ | | m key x Hx Hsub ]; subst.
    + left. exists params, pd. exact Hrest.
    + right. exists (key, x). split; [ exact Hx | ].
      exists d', params, pd. split; assumption.
  - intros [ (params & pd & Hrest) | ([key x] & Hx & d' & params & pd & Hocc & Hrest) ].
    + exists d, params, pd. split; [ constructor | exact Hrest ].
    + exists d', params, pd. split; [ | exact Hrest ].
      eapply occurs_map; eassumption.
Qed.

Lemma elem_of_extract_param_keys (obj : value) (k : string) :
  forall keys : gset string,
    elem_of k (extract_param_keys obj keys) <-> elem_of k keys \/ param_key obj k.
Proof.
  induction obj as [ | b | z | s | l IH | d IH ] using value_ind_nested;
    intros keys;
    try (simpl; split; [ auto | intros [ Hk | Hp ]; [ exact Hk | ];
         exfalso; revert Hp; apply param_key_scalar; reflexivity ]).
  - rewrite extract_param_keys_list, param_key_list.
    apply (elem_of_fold_extract (fun x => x) l k (fun x => param_key x k)). exact IH.
  - rewrite extract_param_keys_dict, param_key_dict.
    rewrite (elem_of_fold_extract snd d k (fun x => param_key x k) IH).
    destruct (dict_get "paramInformation" d) as [ [ | | | | params | ] | ];
      try (split; [ intros [ Hk | He ]; auto
                  | intros [ Hk | [ (params' & pd & Hd & _) | He ] ]; auto;
                    discriminate Hd ]).
    rewrite elem_of_params. split.
    + intros [ [ Hk | (pd & Hpd & Hin) ] | He ]; auto.
      right. left. exists params, pd. auto.
    + intros [ Hk | [ (params' & pd & Hd & Hpd & Hin) | He ] ]; auto.
      injection Hd as <-. left. right. exists pd. auto.
Qed.

(** X22: [extract_param_keys] adds to the set exactly the keys of the
    dictionaries listed under [paramInformation] by a dictionary at any depth
    of the object; what the set held is kept. *)
Theorem extract_param_keys_spec (obj : value) (keys : gset string) :
  extract_param_keys obj keys
  = union keys (extract_param_keys obj empty) /\
  forall k, elem_of k (extract_param_keys obj empty) <-> param_key obj k.
Proof.
  assert (Hempty : forall k, elem_of k (extract_param_keys obj empty) <-> param_key obj k).
  { intros k. rewrite elem_of_extract_param_keys. split; [ | auto ].
    intros [ Hk | Hp ]; [ | exact Hp ]. apply not_elem_of_empty in Hk. contradiction. }
  split; [ | exact Hempty ].
  apply set_eq. intros k.
  rewrite elem_of_union, elem_of_extract_param_keys, Hempty. reflexivity.
Qed.

(** *** The loops of the two [main] functions *)

Lemma param_keys_loop `{Files} (json_files : list Path) :
  forall st0 : param_keys_state,
    let st := fold_left
      (fun st json_file =>
         match load_json_file json_file with
         | Ok data =>
             {| all_keys := extract_param_keys data (all_keys st);
                file_count := S (file_count st);
                error_count := error_count st |}
         | _ =>
             {| all_keys := all_keys st;
                file_count := file_count st;
                error_count := S (error_count st) |}
         end) json_files st0 in
    (file_count st + error_count st
     = file_count st0 + error_count st0 + List.length json_files)%nat /\
    file_count st
    = (file_count st0 +
       List.length (List.filter
                      (fun f => match load_json_file f with Ok _ => true | _ => false end)
                      json_files))%nat /\
    forall k, elem_of k (all_keys st) <->
              elem_of k (all_keys st0) \/
              exists json_file data,
                In json_file json_files /\
                load_json_file json_file = Ok data /\ param_key data k.
Proof.
  induction json_files as [ | f fs IH ]; intros st0; cbn zeta.
  - simpl. split; [ lia | ]. split; [ lia | ].
    intros k. split; [ auto | intros [ Hk | (f & d & [] & _) ]; exact Hk ].
  - cbn [fold_left].
    match goal with |- context [ fold_left ?step fs ?s1 ] =>
      specialize (IH s1); cbn zeta in IH; destruct IH as (Hsum & Hcount & Hkeys)
    end.
    cbn [List.filter List.length].
    destruct (load_json_file f) as [ data | e | ] eqn:Hload;
      cbn [all_keys file_count error_count] in Hsum, Hcount, Hkeys.
    + split; [ simpl; lia | ]. split; [ simpl; lia | ].
      intros k. rewrite Hkeys, elem_of_extract_param_keys. split.
      * intros [ [ Hk | Hp ] | (g & d & Hg & Hl & Hp) ]; [ auto | | ].
        -- right. exists f, data. auto using in_eq.
        -- right. exists g, d. auto using in_cons.
      * intros [ Hk | (g & d & [ <- | Hg ] & Hl & Hp) ]; [ auto | | ].
        -- rewrite Hload in Hl. injection Hl as <-. auto.
        -- right. exists g, d. auto.
    + split; [ simpl; lia | ]. split; [ simpl; lia | ].
      intros k. rewrite Hkeys. split.
      * intros [ Hk | (g & d & Hg & Hl & Hp) ]; [ auto | ].
        right. exists g, d. auto using in_cons.
      * intros [ Hk | (g & d & [ <- | Hg ] & Hl & Hp) ]; [ auto | | ].
        -- rewrite Hload in Hl. discriminate Hl.
        -- right. exists g, d. auto.
    + split; [ simpl; lia | ]. split; [ simpl; lia | ].
      intros k. rewrite Hkeys. split.
      * intros [ Hk | (g & d & Hg & Hl & Hp) ]; [ auto | ].
        right. exists g, d. auto using in_cons.
      * intros [ Hk | (g & d & [ <- | Hg ] & Hl & Hp) ]; [ auto | | ].
        -- rewrite Hload in Hl. discriminate Hl.
        -- right. exists g, d. auto.
Qed.

(** X23: the key analyser counts every file once, as processed when it
    loads and as an error when it does not, and the keys it reports are those
    of the parameters of the files that loaded. *)
Theorem param_keys_main_spec `{Files} (json_files : list Path) :
  (file_count (param_keys_main json_files)
   + error_count (param_keys_main json_files) = List.length json_files)%nat /\
  file_count (param_keys_main json_files)
  = List.length (List.filter
                   (fun f => match load_json_file f with Ok _ => true | _ => false end)
                   json_files) /\
  forall k, elem_of k (all_keys (param_keys_main json_files)) <->
            exists json_file data,
              In json_file json_files /\
              load_json_file json_file = Ok data /\ param_key data k.
Proof.
  destruct (param_keys_loop json_files
              {| all_keys := empty; file_count := O; error_count := O |})
    as (Hsum & Hcount & Hkeys).
  split; [ exact Hsum | ]. split; [ exact Hcount | ].
  intros k. unfold param_keys_main. rewrite Hkeys. split; [ | auto ].
  intros [ Hk | Hp ]; [ | exact Hp ].
  simpl in Hk. apply not_elem_of_empty in Hk. contradiction.
Qed.

Lemma description_loop `{Files} (json_files : list Path) :
  forall st0 : description_state,
    let st := fold_left
      (fun st json_file =>
         match load_json_file json_file with
         | Ok data =>
             match description_of data with
             | Some desc =>
                 {| descriptions := (descriptions st ++ [desc])%list;
                    d_file_count := S (d_file_count st);
                    d_error_count := d_error_count st;
                    no_description_count := no_description_count st |}
             | None =>
                 {| descriptions := descriptions st;
                    d_file_count := S (d_file_count st);
                    d_error_count := d_error_count st;
                    no_description_count := S (no_description_count st) |}
             end
         | _ =>
             {| descriptions := descriptions st;
                d_file_count := d_file_count st;
                d_error_count := S (d_error_count st);
                no_description_count := no_description_count st |}
         end) json_files st0 in
    (d_file_count st + d_error_count st
     = d_file_count st0 + d_error_count st0 + List.length json_files)%nat /\
    (List.length (descriptions st) + no_description_count st + d_file_count st0
     = List.length (descriptions st0) + no_description_count st0
       + d_file_count st)%nat /\
    descriptions st =
    (descriptions st0 ++
     flat_map (fun json_file =>
                 match load_json_file json_file with
                 | Ok data => match description_of data with
                              | Some desc => [desc]
                              | None => []
                              end
                 | _ => []
                 end) json_files)%list.
Proof.
  induction json_files as [ | f fs IH ]; intros st0; cbn zeta.
  - simpl. rewrite app_nil_r. repeat split; lia.
  - cbn [fold_left flat_map].
    match goal with |- context [ fold_left ?step fs ?s1 ] =>
      specialize (IH s1); cbn zeta in IH; destruct IH as (Hsum & Hdesc & Hlist)
    end.
    destruct (load_json_file f) as [ data | e | ];
      [ destruct (description_of data) as [ desc | ] | | ];
      cbn [descriptions d_file_count d_error_count no_description_count]
        in Hsum, Hdesc, Hlist;
      rewrite ?List.length_app in Hdesc; cbn [List.length] in Hdesc |- *;
      (split; [ lia | split; [ lia | ] ]);
      rewrite Hlist, <- ?List.app_assoc; reflexivity.
Qed.

(** X24: the description analyser counts every file once, as processed or
    as an error; every processed file gives one description or counts as
    having none; the descriptions are recorded in the order of the files. *)
Theorem description_main_spec `{Files} (json_files : list Path) :
  (d_file_count (description_main json_files)
   + d_error_count (description_main json_files) = List.length json_files)%nat /\
  (List.length (descriptions (description_main json_files))
   + no_description_count (description_main json_files)
   = d_file_count (description_main json_files))%nat /\
  descriptions (description_main json_files) =
  flat_map (fun json_file =>
              match load_json_file json_file with
              | Ok data => match description_of data with
                           | Some desc => [desc]
                           | None => []
                           end
              | _ => []
              end) json_files.
Proof.
  destruct (description_loop json_files
              {| descriptions := []; d_file_count := O; d_error_count := O;
                 no_description_count := O |}) as (Hsum & Hdesc & Hlist).
  unfold description_main. simpl in Hsum, Hdesc, Hlist.
  split; [ exact Hsum | ]. split; [ lia | exact Hlist ].
Qed.

(** X25: descriptions that are lists or dictionaries are tallied up to the
    order of their keys: two files whose descriptions differ by that order
    only give the same entry. *)
Theorem description_of_key_order (d1 d2 : dict) (v1 v2 : value) :
  dict_get "description" d1 = Some v1 ->
  dict_get "description" d2 = Some v2 ->
  wf_value v1 -> wf_value v2 -> reorder_eq v1 v2 ->
  description_of (JMap d1) = description_of (JMap d2).
Proof.
  intros H1 H2 Hw1 Hw2 Hre. unfold description_of. rewrite H1, H2. f_equal.
  pose proof (reorder_eq_normalize v1 v2 Hre Hw1 Hw2) as Hnorm.
  unfold dumps_sorted.
  inversion Hre as [ a b Ha Hb Hab | l1 l2 Hall | m1 m2 m2' Hitems Hperm ]; subst.
  - reflexivity.
  - rewrite Hnorm. reflexivity.
  - rewrite Hnorm. reflexivity.
Qed.

Lemma description_of_key_order_witness :
  description_of
    (JMap [("description", JMap [("b", JNum 2); ("a", JList [JNull])])])
  = description_of
      (JMap [("label", JStr "x");
             ("description", JMap [("a", JList [JNull]); ("b", JNum 2)])]).
Proof.
  apply (description_of_key_order _ _
           (JMap [("b", JNum 2); ("a", JList [JNull])])
           (JMap [("a", JList [JNull]); ("b", JNum 2)]));
    [ reflexivity | reflexivity | solve_wf | solve_wf | ].
  apply (agree_map eq _ _ [("b", JNum 2); ("a", JList [JNull])]).
  - apply agree_items_cons; [ apply agree_scalar; reflexivity | ].
    apply agree_items_cons; [ | apply agree_items_nil ].
    apply agree_list. apply agree_all_cons; [ | apply agree_all_nil ].
    apply agree_scalar; reflexivity.
  - apply perm_swap.
Defined.

(** ** The file name given to [process_device] *)




